(** * DataAllocator: a pooled allocator with exact-size free lists

    Shallow embedding of [src/base/DataAllocator.cpp] (UPPAAL UUtils) and
    the properties its specification states about it.

    Memory is modelled word by word: an address is the index of one
    [uintptr_t] word, a pointer is an address ([0] is [nullptr]) and the
    process memory is a finite map from addresses to words.  Free-list
    links and the debug size header live in that memory, exactly where the
    C++ code writes them.  Pointer arithmetic is done on unbounded
    integers; [size_t] and [uint32_t] arithmetic wraps around as written
    out below.  Loops over linked structures take fuel; assertions and
    fuel running out are outcomes of their own.

    The first part holds the definitions, the second the properties:
    first those that hold in every state, then the invariant of the
    allocator with what follows from it, and at the end the properties on
    concrete runs with chunks of 8 words. *)

From stdpp Require Import gmap list.
From Stdlib Require Import ZArith Lia.

Local Open Scope Z_scope.

(** ** Build configuration *)

(** [sizeof(uintptr_t)] is 4 or 8; any other width runs into the
    [assert(false)] of [arch_size]. *)
Inductive arch : Set := Arch32 | Arch64.

(** The assertions of the file, so that an abort tells which one fired. *)
Inductive assertion : Set :=
| AssertChunkSize      (* ASSERT(intSize <= CHUNK_SIZE, ...) in allocate *)
| AssertMemPool        (* assert(memPool) *)
| AssertRecordedSize   (* the recorded-size assert of deallocate *)
| AssertInPools        (* assert(hasInPools(data, intSize)) *)
| AssertNotInPools.    (* assert(!hasInPools(data, intSize)) *)

(** Result of running a member function: it returns, an assertion aborts
    the process, or a loop of the code was still running when the fuel
    given to the model ran out. *)
Inductive outcome (T : Type) : Type :=
| Ok (x : T)
| Abort (why : assertion)
| OutOfFuel.

Arguments Ok {T} x.
Arguments Abort {T} why.
Arguments OutOfFuel {T}.

Definition obind {T U : Type} (c : outcome T) (k : T -> outcome U) : outcome U :=
  match c with
  | Ok x => k x
  | Abort why => Abort why
  | OutOfFuel => OutOfFuel
  end.

Definition lift_fuel {T : Type} (o : option T) : outcome T :=
  match o with
  | Some x => Ok x
  | None => OutOfFuel
  end.

Notation "x <-- c ;; k" := (obind c (fun x => k))
  (at level 100, c at next level, right associativity).

(** ** Machine integers *)

Definition uint32_t (x : Z) : Z := x mod 2 ^ 32.

(** ** Memory *)

(** Reading a word; a word that was never written reads as [0]. *)
Definition load (h : gmap Z Z) (a : Z) : Z := default 0 (h !! a).

(** Modelled from the spec: [getNext] (declared in DataAllocator.h, which
    is not part of the sources) converts a stored word into a link and a
    link into a word; both overloads are casts between [uintptr_t] and
    [uintptr_t*], the identity on words. *)
Definition getNext (w : Z) : Z := w.

(** ** [array_t<uintptr_t*>], the free-list table *)

Module array_t.

(** Modelled from the spec: [base::array_t] (base/array_t.h is not part of
    the sources).  A growable array of list heads indexed by size class:
    [get] reads a head and reports empty ([0]) outside the array,
    [replace] installs a new head and returns the previous one, growing
    the array with empty entries when needed, [operator[]] gives write
    access with the same growth ([set]), [reset] clears every list, and
    the size is the length of the list. *)
Abbreviation t := (list Z).

Definition make (initSize : nat) : t := replicate initSize 0.

Definition get (a : t) (at_ : Z) : Z := default 0 (a !! Z.to_nat at_).

Definition ensurePos (a : t) (at_ : Z) : t :=
  a ++ replicate (S (Z.to_nat at_) - length a) 0.

Definition set (a : t) (at_ : Z) (v : Z) : t :=
  <[Z.to_nat at_ := v]> (ensurePos a at_).

Definition replace (a : t) (at_ : Z) (v : Z) : Z * t :=
  (get a at_, set a at_ v).

Definition reset (a : t) : t := replicate (length a) 0.

End array_t.

(** ** The allocator and the heap it lives in *)

(** [heap], [live] and [brk] are the process: the memory words, the
    objects obtained from [new] and not yet deleted, and the address at
    which the next [new] places its object.  The other fields are the
    data members of [DataAllocator]. *)
Record state : Type := State {
  heap : gmap Z Z;
  live : list Z;
  brk : Z;
  memPool : Z;
  freePtr : Z;
  endFree : Z;
  freeMem : array_t.t;
}.

Definition set_heap (h : gmap Z Z) (s : state) : state :=
  State h (live s) (brk s) (memPool s) (freePtr s) (endFree s) (freeMem s).
Definition set_freePtr (p : Z) (s : state) : state :=
  State (heap s) (live s) (brk s) (memPool s) p (endFree s) (freeMem s).
Definition set_freeMem (a : array_t.t) (s : state) : state :=
  State (heap s) (live s) (brk s) (memPool s) (freePtr s) (endFree s) a.

(** ** Blocks and chains (for the invariant of the allocator) *)

(** A block of the arena: its first word and its number of words. *)
Abbreviation block := (Z * Z)%type.

(** Two blocks that share no word. *)
Definition apart (b1 b2 : block) : Prop :=
  b1.1 + b1.2 <= b2.1 \/ b2.1 + b2.2 <= b1.1.

(** A chain of cells linked through their first word and closed by
    [nullptr]: the chunk chain through [next], a free list through the
    link stored in each free block. *)
Fixpoint linked (h : gmap Z Z) (hd : Z) (cells : list Z) : Prop :=
  match cells with
  | [] => hd = 0
  | x :: rest => hd = x /\ x ≠ 0 /\ linked h (getNext (load h x)) rest
  end.

(** The lists of the classes with the list of class [c] replaced. *)
Definition upd (cells : Z -> list Z) (c : Z) (l : list Z) : Z -> list Z :=
  fun c' => if decide (c' = c) then l else cells c'.

(** The words on the free lists of the classes [i], ..., [i + k - 1]. *)
Fixpoint free_words (cells : Z -> list Z) (i : Z) (k : nat) : Z :=
  match k with
  | O => 0
  | S k' => i * Z.of_nat (length (cells i)) + free_words cells (i + 1) k'
  end.

(** What is fixed when the file is compiled: the pointer width, whether
    NDEBUG is defined ([debug] is [true] when it is not), and the enum
    constant CHUNK_SIZE of DataAllocator.h. *)
Class build : Type := Build {
  uintptr : arch;
  debug : bool;
  CHUNK_SIZE : positive;
}.

Section DataAllocator.

Context {cfg : build}.

Definition CHUNK : Z := Z.pos CHUNK_SIZE.

Definition size_bits : Z :=
  match uintptr with Arch32 => 32 | Arch64 => 64 end.

Definition size_t (x : Z) : Z := x mod 2 ^ size_bits.

Definition DEBUG_OFFSET : Z := if debug then 1 else 0.

Definition arch_size (I : Z) : Z :=
  match uintptr with
  | Arch64 => size_t (I + 1) / 2
  | Arch32 => I
  end.

(** The number of words a request of [n] items occupies: [n] adapted to
    the architecture, plus the debug header.  This is the request's size
    class and the amount by which the cursor moves. *)
Definition block_words (n : Z) : Z := size_t (arch_size n + DEBUG_OFFSET).

(** Modelled from the spec: [ASSERT] and [DODEBUG] of debug/macros.h
    (not part of the sources).  Like [assert], they are compiled only
    into debug builds.  [CHECK_ALIGNED32] never fires in this model,
    where every address is the address of a whole word. *)
Definition assert (b : bool) (why : assertion) : outcome unit :=
  if debug then (if b then Ok tt else Abort why) else Ok tt.

(** [DODEBUG( *data = intSize )] *)
Definition DODEBUG_store (data intSize : Z) (h : gmap Z Z) : gmap Z Z :=
  if debug then <[data := intSize]> h else h.

(** Modelled from the spec: [Pool_t] (declared in DataAllocator.h): a
    chunk of [CHUNK_SIZE] words with a link to its successor and an end
    boundary.  [next] is at the pool's address, [mem[CHUNK_SIZE]] follows
    it and [end] is the address after the last word of [mem]. *)
Definition Pool_mem (pool : Z) : Z := pool + 1.
Definition Pool_end (pool : Z) : Z := pool + 1 + CHUNK.
Definition Pool_next (h : gmap Z Z) (pool : Z) : Z := load h pool.

(** [new Pool_t]: the object is placed at [brk]; allocation failure is
    fatal and not modelled. *)
Definition new_Pool_t (s : state) : Z * state :=
  (brk s,
   State (heap s) (brk s :: live s) (Pool_end (brk s))
         (memPool s) (freePtr s) (endFree s) (freeMem s)).

(** [delete pool] *)
Definition delete_obj (p : Z) (lv : list Z) : list Z :=
  filter (fun q => q ≠ p) lv.

(** *** Constructor (DataAllocator.cpp, lines 46-55) *)
Definition DataAllocator_ctor (h : gmap Z Z) (lv : list Z) (b : Z) : state :=
  State (<[b := 0]> h) (b :: lv) (Pool_end b)
        b (Pool_mem b) (Pool_end b) (array_t.make 145).

(** *** Destructor (lines 59-68) *)

(** The loop [do { next = pool->next; delete pool; pool = next; }
    while (pool);] *)
Fixpoint delete_all_pools (fuel : nat) (h : gmap Z Z) (pool : Z) (lv : list Z)
    : option (list Z) :=
  match fuel with
  | O => None
  | S fuel' =>
      let next := Pool_next h pool in
      let lv' := delete_obj pool lv in
      if next =? 0 then Some lv' else delete_all_pools fuel' h next lv'
  end.

Definition DataAllocator_dtor (fuel : nat) (s : state) : outcome state :=
  _ <-- assert (negb (memPool s =? 0)) AssertMemPool ;;
  lv <-- lift_fuel (delete_all_pools fuel (heap s) (memPool s) (live s)) ;;
  Ok (State (heap s) lv (brk s) (memPool s) (freePtr s) (endFree s) (freeMem s)).

(** *** [allocate] (lines 76-125) *)
Definition allocate (intSize : Z) (s : state) : outcome (Z * state) :=
  _ <-- assert (intSize <=? CHUNK) AssertChunkSize ;;
  if intSize =? 0 then Ok (0, s)
  else
    let intSize := size_t (arch_size intSize + DEBUG_OFFSET) in
    (* try from free memory list *)
    let data := array_t.get (freeMem s) intSize in
    if negb (data =? 0) then
      let fm := array_t.set (freeMem s) intSize (getNext (load (heap s) data)) in
      Ok (data + DEBUG_OFFSET,
          set_heap (DODEBUG_store data intSize (heap s)) (set_freeMem fm s))
    else
      (* allocate and return if within bounds *)
      let data := freePtr s in
      let s1 := set_freePtr (data + intSize) s in
      if freePtr s1 <=? endFree s1 then
        Ok (data + DEBUG_OFFSET,
            set_heap (DODEBUG_store data intSize (heap s1)) s1)
      else
        (* store memory left from the pool *)
        let memLeft := uint32_t (endFree s1 - data) in
        let s2 :=
          if memLeft =? 0 then s1
          else
            let '(old, fm) := array_t.replace (freeMem s1) (arch_size memLeft) data in
            set_heap (<[data := getNext old]> (heap s1)) (set_freeMem fm s1) in
        (* new pool *)
        let '(newPool, s3) := new_Pool_t s2 in
        let h4 := <[newPool := memPool s3]> (heap s3) in
        let data := Pool_mem newPool in
        Ok (data + DEBUG_OFFSET,
            State (DODEBUG_store data intSize h4) (live s3) (brk s3)
                  newPool (data + intSize) (Pool_end newPool) (freeMem s3)).

(** *** [hasInPools] (lines 226-250) *)

(** The loop over the full pools, entered with [inPool = false]. *)
Fixpoint in_full_pools (fuel : nat) (h : gmap Z Z) (pool data : Z) : option bool :=
  if pool =? 0 then Some false
  else match fuel with
       | O => None
       | S fuel' =>
           if (Pool_mem pool <=? data) && (data <? Pool_end pool) then Some true
           else in_full_pools fuel' h (Pool_next h pool) data
       end.

(** The loop over one free list: is [data] one of its blocks? *)
Fixpoint on_free_list (fuel : nat) (h : gmap Z Z) (fdata data : Z) : option bool :=
  if fdata =? 0 then Some false
  else match fuel with
       | O => None
       | S fuel' =>
           if data =? fdata then Some true
           else on_free_list fuel' h (getNext (load h fdata)) data
       end.

Definition hasInPools (fuel : nat) (data intSize : Z) (s : state) : outcome bool :=
  _ <-- assert (negb (memPool s =? 0)) AssertMemPool ;;
  inPool <--
    (if (Pool_mem (memPool s) <=? data) && (data <? freePtr s) then Ok true
     else lift_fuel (in_full_pools fuel (heap s) (Pool_next (heap s) (memPool s)) data)) ;;
  if negb inPool then Ok false
  else
    listed <-- lift_fuel (on_free_list fuel (heap s) (array_t.get (freeMem s) intSize) data) ;;
    Ok (negb listed).

(** An assertion on the result of [hasInPools]. *)
Definition assert_hasInPools (fuel : nat) (expected : bool) (why : assertion)
    (data intSize : Z) (s : state) : outcome unit :=
  if debug then
    b <-- hasInPools fuel data intSize s ;;
    if Bool.eqb b expected then Ok tt else Abort why
  else Ok tt.

(** *** [deallocate] (lines 129-151) *)
Definition deallocate (fuel : nat) (ptr intSize : Z) (s : state) : outcome state :=
  if intSize =? 0 then Ok s
  else
    let data := ptr - DEBUG_OFFSET in
    let intSize := size_t (arch_size intSize + DEBUG_OFFSET) in
    _ <-- assert (load (heap s) data =? intSize) AssertRecordedSize ;;
    _ <-- assert_hasInPools fuel true AssertInPools data intSize s ;;
    let s' :=
      if data + intSize =? freePtr s then set_freePtr data s
      else
        let '(old, fm) := array_t.replace (freeMem s) intSize data in
        set_heap (<[data := getNext old]> (heap s)) (set_freeMem fm s) in
    _ <-- assert_hasInPools fuel false AssertNotInPools data intSize s' ;;
    Ok s'.

(** *** [reset] (lines 155-171) *)

(** The loop [for (pool = ...; pool != nullptr;) { next = pool->next;
    delete pool; pool = next; }] *)
Fixpoint delete_pools (fuel : nat) (h : gmap Z Z) (pool : Z) (lv : list Z)
    : option (list Z) :=
  if pool =? 0 then Some lv
  else match fuel with
       | O => None
       | S fuel' => delete_pools fuel' h (Pool_next h pool) (delete_obj pool lv)
       end.

Definition reset (fuel : nat) (s : state) : outcome state :=
  _ <-- assert (negb (memPool s =? 0)) AssertMemPool ;;
  let h1 := <[memPool s := 0]> (heap s) in        (* memPool->next = nullptr *)
  let fp := Pool_mem (memPool s) in
  let ef := Pool_end (memPool s) in
  lv <-- lift_fuel (delete_pools fuel h1 (Pool_next h1 (memPool s)) (live s)) ;;
  Ok (State h1 lv (brk s) (memPool s) fp ef (array_t.reset (freeMem s))).

(** *** [printStats] (lines 188-222): the numbers handed to
    [DataAllocator_printMem]; the text itself goes to the output stream *)

Fixpoint count_pools (fuel : nat) (h : gmap Z Z) (pool : Z) : option Z :=
  if pool =? 0 then Some 0
  else match fuel with
       | O => None
       | S fuel' => n ← count_pools fuel' h (Pool_next h pool); Some (n + 1)
       end.

Fixpoint free_list_length (fuel : nat) (h : gmap Z Z) (freeList : Z) : option Z :=
  if freeList =? 0 then Some 0
  else match fuel with
       | O => None
       | S fuel' => n ← free_list_length fuel' h (getNext (load h freeList)); Some (n + 1)
       end.

(** The outer loop over the size classes, from class [i] on. *)
Fixpoint memInFreeList_from (fuel : nat) (h : gmap Z Z) (i : Z) (heads : list Z)
    : option Z :=
  match heads with
  | [] => Some 0
  | freeList :: rest =>
      n ← free_list_length fuel h freeList;
      m ← memInFreeList_from fuel h (i + 1) rest;
      Some (i * n + m)
  end.

Record stats : Type := Stats {
  nbPools : Z;
  total_memory : Z;
  memory_allocated : Z;
  available_in_current_pool : Z;
  deallocated_available : Z;
}.

Definition printStats (fuel : nat) (s : state) : option stats :=
  n ← count_pools fuel (heap s) (memPool s);
  f ← memInFreeList_from fuel (heap s) 0 (freeMem s);
  let nbPools := uint32_t n in
  let memInFreeList := uint32_t f in
  Some (Stats nbPools
          (uint32_t (nbPools * (4 * CHUNK)))
          (uint32_t (nbPools * (4 * CHUNK)
                     - (memInFreeList + endFree s - freePtr s) * 4))
          (uint32_t ((endFree s - freePtr s) * 4))
          (uint32_t (memInFreeList * 4))).

(** *** The C wrappers (lines 256-278) *)

Definition base_allocate (size : Z) (allocator : state) : outcome (Z * state) :=
  allocate size allocator.

Definition base_deallocate (fuel : nat) (mem_ intSize : Z) (allocator : state)
    : outcome state :=
  deallocate fuel mem_ intSize allocator.

(** [new int32_t[size]]: a fresh object for every size, also for size 0;
    it never returns [nullptr].  The array takes [size] 32-bit items. *)
Definition base_new (size : Z) (s : state) : Z * state :=
  let words := match uintptr with Arch32 => size | Arch64 => (size + 1) / 2 end in
  (brk s,
   State (heap s) (brk s :: live s) (brk s + 1 + words)
         (memPool s) (freePtr s) (endFree s) (freeMem s)).

(** [delete[] (int32_t* )mem]: nothing happens for [nullptr]. *)
Definition base_delete (mem_ : Z) (unused1 : Z) (s : state) : state :=
  if mem_ =? 0 then s
  else State (heap s) (delete_obj mem_ (live s)) (brk s)
             (memPool s) (freePtr s) (endFree s) (freeMem s).

(** *** What every state of a running program satisfies

    Words are unsigned, [new] hands out positive addresses above the
    objects it handed out before, and the pointers the allocator holds are
    [nullptr] or such addresses. *)
Record valid_addresses (s : state) : Prop := ValidAddresses {
  va_heap : map_Forall (fun _ w => 0 <= w) (heap s);
  va_live : Forall (fun p => p < brk s) (live s);
  va_brk : 0 < brk s;
  va_memPool : 0 < memPool s;
  va_freePtr : 0 < freePtr s;
  va_freeMem : Forall (fun p => 0 <= p) (freeMem s);
}.

(** The states a program gets to: the allocator is constructed in a
    process whose words are unsigned and whose objects are below [brk];
    from there on the program allocates valid sizes, gives back pointers
    that are not null, resets, and uses [new] and [delete] itself. *)
Inductive reachable : state -> Prop :=
| reach_ctor (h : gmap Z Z) (lv : list Z) (b : Z) :
    0 < b -> map_Forall (fun _ w => 0 <= w) h -> Forall (fun p => p < b) lv ->
    reachable (DataAllocator_ctor h lv b)
| reach_allocate (n p : Z) (s s' : state) :
    reachable s -> 0 <= n <= CHUNK -> allocate n s = Ok (p, s') -> reachable s'
| reach_deallocate (fuel : nat) (ptr n : Z) (s s' : state) :
    reachable s -> DEBUG_OFFSET < ptr -> deallocate fuel ptr n s = Ok s' ->
    reachable s'
| reach_reset (fuel : nat) (s s' : state) :
    reachable s -> reset fuel s = Ok s' -> reachable s'
| reach_new (size : Z) (s : state) :
    reachable s -> 0 <= size -> reachable (base_new size s).2
| reach_delete (mem_ unused : Z) (s : state) :
    reachable s -> reachable (base_delete mem_ unused s).

(** *** The invariant of the allocator

    [wf pools cells used s]: in state [s] the chunk chain is [pools], the
    free list of class [c] is [cells c], and the blocks handed out and not
    given back are [used].  Chunks do not overlap, every block lies in
    the carved part of one chunk, no two blocks share a word, and in a
    debug build every block handed out carries its size. *)

(** The words of a chunk, header included. *)
Definition Pool_region (pool : Z) : block := (pool, 1 + CHUNK).

Section wf.
Variable pools : list Z.          (* the chunk chain, current chunk first *)
Variable cells : Z -> list Z.     (* the free blocks of each size class *)
Variable used : list block.       (* the blocks handed out, not given back *)
Variable s : state.

Definition is_block (b : block) : Prop := b ∈ used \/ b.1 ∈ cells b.2.

(** The part of a chunk from which blocks have been carved. *)
Definition carved_end (pool : Z) : Z :=
  if decide (pool = memPool s) then freePtr s else Pool_end pool.

Record wf : Prop := WF {
  wf_chain : linked (heap s) (memPool s) pools;
  wf_current : memPool s ∈ pools;
  wf_pools : forall p, p ∈ pools -> 0 < p /\ Pool_end p <= brk s;
  wf_pools_apart : forall i j p q, i ≠ j -> pools !! i = Some p -> pools !! j = Some q ->
                   apart (Pool_region p) (Pool_region q);
  wf_cursor : Pool_mem (memPool s) <= freePtr s <= endFree s;
  wf_end : endFree s = Pool_end (memPool s);
  wf_lists : forall c, 0 <= c -> linked (heap s) (array_t.get (freeMem s) c) (cells c);
  wf_cells_nodup : forall c, NoDup (cells c);
  wf_used_free : forall b, b ∈ used -> b.1 ∉ cells b.2;
  wf_apart : forall b1 b2, is_block b1 -> is_block b2 -> b1 ≠ b2 -> apart b1 b2;
  wf_size : forall b, is_block b -> 0 < b.2;
  wf_in_pool : forall b, is_block b ->
               exists p, p ∈ pools /\ Pool_mem p <= b.1 /\ b.1 + b.2 <= carved_end p;
  wf_header : debug = true -> forall b, b ∈ used -> load (heap s) b.1 = b.2;
}.
End wf.

(** The runs of a program that keeps the contract: it allocates valid
    sizes whose block fits a chunk, gives back only blocks it holds, with
    the size it asked for, and may reset.  The list is the blocks it
    holds. *)
Inductive protocol : list block -> state -> Prop :=
| protocol_ctor (h : gmap Z Z) (lv : list Z) (b : Z) :
    0 < b -> protocol [] (DataAllocator_ctor h lv b)
| protocol_allocate (used : list block) (n p : Z) (s s' : state) :
    protocol used s ->
    0 < n <= CHUNK -> block_words n <= CHUNK ->
    allocate n s = Ok (p, s') ->
    protocol ((p - DEBUG_OFFSET, block_words n) :: used) s'
| protocol_deallocate (used : list block) (fuel : nat) (ptr n : Z) (s s' : state) :
    protocol used s ->
    n ≠ 0 -> (ptr - DEBUG_OFFSET, block_words n) ∈ used ->
    deallocate fuel ptr n s = Ok s' ->
    protocol (filter (fun u => u ≠ (ptr - DEBUG_OFFSET, block_words n)) used) s'
| protocol_reset (used : list block) (fuel : nat) (s s' : state) :
    protocol used s -> reset fuel s = Ok s' -> protocol [] s'.

(** The words of the blocks a program holds, headers included. *)
Definition held_words (used : list block) : Z :=
  foldr (fun b acc => b.2 + acc) 0 used.

(** Every word of every chunk is accounted for: it belongs to a block
    that is held or to a block on a free list, or it lies between the
    cursor and the end of the current chunk. *)
Definition accounted (pools : list Z) (cells : Z -> list Z) (used : list block)
    (s : state) : Prop :=
  Z.of_nat (length pools) * CHUNK
  = held_words used + free_words cells 0 (length (freeMem s))
    + (endFree s - freePtr s).

(** The words that stop being counted as free when an overflowing
    request files the tail of [m] words under class [arch_size m]. *)
Definition lost_words (n : Z) (s : state) : Z :=
  let c := block_words n in
  if (array_t.get (freeMem s) c =? 0) && negb (freePtr s + c <=? endFree s)
  then (endFree s - freePtr s) - arch_size (endFree s - freePtr s)
  else 0.

End DataAllocator.

(** ** Concrete builds and a fresh allocator

    Chunks of 8 words, as in the scenario of the specification; the first
    chunk is the first object of the process and sits at address 100. *)
Module Scenario.

Definition release32 : build := Build Arch32 false 8.
Definition release64 : build := Build Arch64 false 8.
Definition debug32 : build := Build Arch32 true 8.
Definition debug64 : build := Build Arch64 true 8.

Definition fresh {cfg : build} : state := DataAllocator_ctor ∅ [] 100.

(** Release build: two blocks of 3 words carved from the first chunk, at
    101 and 104. *)
Definition two_blocks {cfg : build} : state := set_freePtr 107 fresh.

(** Debug build, 4-byte words: one block of 3 items carved from the first
    chunk, its header at 101. *)
Definition one_block {cfg : build} : state :=
  set_heap (<[101 := 4]> (heap fresh)) (set_freePtr 105 fresh).

(** The state a call of [allocate] leaves. *)
Definition after {cfg : build} (r : outcome (Z * state)) : state :=
  match r with Ok (_, s) => s | _ => fresh end.

(** Release build, 4-byte words: one request of a full chunk fills the
    first chunk (the block at 101), a second one makes the chunk at 109
    the current one (the block at 110) and the chunk at 100 its
    successor in the chain. *)
Definition full_chunk {cfg : build} : state := after (allocate 8 fresh).
Definition two_chunks {cfg : build} : state := after (allocate 8 full_chunk).

(** The same two requests in a process that has an object at 50 before
    the allocator is constructed. *)
Definition two_chunks_beside {cfg : build} : state :=
  after (allocate 8 (after (allocate 8 (DataAllocator_ctor ∅ [50] 100)))).

End Scenario.

(** * Properties *)

(** ** The free-list table *)

Module array_t_facts.
Import array_t.

Lemma get_ensurePos (a : t) (i j : Z) : get (ensurePos a i) j = get a j.
Proof.
  unfold get, ensurePos.
  destruct (decide (Z.to_nat j < length a)%nat) as [Hlt|Hge].
  - by rewrite lookup_app_l.
  - rewrite (lookup_ge_None_2 a) by lia.
    rewrite lookup_app_r by lia.
    destruct (replicate _ 0 !! _) as [x|] eqn:E; [|done].
    by apply lookup_replicate in E as [-> _].
Qed.

Lemma length_ensurePos (a : t) (i : Z) :
  (Z.to_nat i < length (ensurePos a i))%nat.
Proof. unfold ensurePos. rewrite length_app, length_replicate. lia. Qed.

Lemma get_set_eq (a : t) (i v : Z) : get (set a i v) i = v.
Proof.
  unfold set, get at 1.
  rewrite list_lookup_insert_eq; [done | apply length_ensurePos].
Qed.

Lemma get_set_ne (a : t) (i j v : Z) :
  Z.to_nat i ≠ Z.to_nat j -> get (set a i v) j = get a j.
Proof.
  intros Hne. rewrite <- (get_ensurePos a i j).
  unfold set, get. by rewrite list_lookup_insert_ne.
Qed.

Lemma get_reset (a : t) (i : Z) : get (reset a) i = 0.
Proof.
  unfold get, reset.
  destruct (replicate _ 0 !! _) as [x|] eqn:E; [|done].
  by apply lookup_replicate in E as [-> _].
Qed.

Lemma get_make (n : nat) (i : Z) : get (make n) i = 0.
Proof.
  unfold get, make.
  destruct (replicate _ 0 !! _) as [x|] eqn:E; [|done].
  by apply lookup_replicate in E as [-> _].
Qed.

(** Writing back the head that is already there changes nothing. *)
Lemma set_get_id (a : t) (i : Z) : get a i ≠ 0 -> set a i (get a i) = a.
Proof.
  unfold set, get, ensurePos. intros Hne.
  destruct (a !! Z.to_nat i) as [x|] eqn:E; [|done]. simpl.
  pose proof (lookup_lt_Some _ _ _ E) as Hlt.
  replace (S (Z.to_nat i) - length a)%nat with O by lia.
  simpl. rewrite app_nil_r. by apply list_insert_id.
Qed.

End array_t_facts.

(** ** Memory *)

Lemma load_insert_eq (h : gmap Z Z) (a v : Z) : load (<[a := v]> h) a = v.
Proof. unfold load. by rewrite lookup_insert_eq. Qed.

Lemma load_insert_ne (h : gmap Z Z) (a b v : Z) :
  a ≠ b -> load (<[a := v]> h) b = load h b.
Proof. intros Hne. unfold load. by rewrite lookup_insert_ne. Qed.

(** Reading a field of an updated state. *)
Ltac fields :=
  cbn [heap live brk memPool freePtr endFree freeMem
       set_heap set_freePtr set_freeMem] in *.

Section DataAllocator_facts.

Context {cfg : build}.

Lemma size_t_nonneg (x : Z) : 0 <= size_t x.
Proof. unfold size_t, size_bits. apply Z.mod_pos_bound. destruct uintptr; lia. Qed.

Lemma block_words_nonneg (n : Z) : 0 <= block_words n.
Proof. apply size_t_nonneg. Qed.

Lemma CHUNK_pos : 0 < CHUNK.
Proof. unfold CHUNK. lia. Qed.

Lemma DEBUG_OFFSET_range : 0 <= DEBUG_OFFSET <= 1.
Proof. unfold DEBUG_OFFSET. destruct debug; lia. Qed.

Lemma assert_chunk_size_ok (n : Z) :
  n <= CHUNK -> assert (n <=? CHUNK) AssertChunkSize = Ok tt.
Proof.
  intros Hn. unfold assert.
  destruct debug; [|done]. by rewrite (proj2 (Z.leb_le n CHUNK) Hn).
Qed.

(** ** Size 0 *)

Lemma allocate_zero (s : state) : allocate 0 s = Ok (0, s).
Proof.
  unfold allocate. rewrite assert_chunk_size_ok; [done|].
  pose proof CHUNK_pos. lia.
Qed.

(** C9: [allocate(0)] returns the absent value and leaves the allocator
    as it is, [deallocate(ptr, 0)] leaves the allocator as it is, and
    neither aborts, whatever the pointer width, the debug setting and the
    chunk size. *)
Theorem zero_size_is_a_no_op (fuel : nat) (ptr : Z) (s : state) :
  allocate 0 s = Ok (0, s) /\ deallocate fuel ptr 0 s = Ok s.
Proof.
  split; [apply allocate_zero | done].
Qed.

(** ** The three sources of [allocate] *)

(** What [allocate] does for a nonzero size, with the assertion out of
    the way. *)
Lemma allocate_nonzero (n : Z) (s : state) :
  0 < n <= CHUNK ->
  allocate n s =
    let c := block_words n in
    let head := array_t.get (freeMem s) c in
    if negb (head =? 0) then
      Ok (head + DEBUG_OFFSET,
          set_heap (DODEBUG_store head c (heap s))
            (set_freeMem (array_t.set (freeMem s) c (getNext (load (heap s) head))) s))
    else if freePtr s + c <=? endFree s then
      Ok (freePtr s + DEBUG_OFFSET,
          set_heap (DODEBUG_store (freePtr s) c (heap s))
            (set_freePtr (freePtr s + c) s))
    else
      let memLeft := uint32_t (endFree s - freePtr s) in
      let s2 :=
        if memLeft =? 0 then set_freePtr (freePtr s + c) s
        else set_heap (<[freePtr s := array_t.get (freeMem s) (arch_size memLeft)]> (heap s))
               (set_freeMem (array_t.set (freeMem s) (arch_size memLeft) (freePtr s))
                  (set_freePtr (freePtr s + c) s)) in
      Ok (Pool_mem (brk s) + DEBUG_OFFSET,
          State (DODEBUG_store (Pool_mem (brk s)) c (<[brk s := memPool s]> (heap s2)))
                (brk s :: live s) (Pool_end (brk s))
                (brk s) (Pool_mem (brk s) + c) (Pool_end (brk s)) (freeMem s2)).
Proof.
  intros [Hpos Hle]. unfold allocate.
  rewrite assert_chunk_size_ok by done. cbn [obind].
  rewrite (proj2 (Z.eqb_neq n 0)) by lia.
  fold (block_words n). cbv zeta.
  destruct (negb (array_t.get (freeMem s) (block_words n) =? 0)); [done|].
  cbn [freePtr endFree set_freePtr heap freeMem].
  destruct (freePtr s + block_words n <=? endFree s); [done|].
  destruct (uint32_t (endFree s - freePtr s) =? 0); done.
Qed.

(** C6: for a valid nonzero size [n], occupying [c = block_words n]
    words, [allocate] takes its block from the first source that has one:
    (1) the head of free-list class [c], which is popped, the cursor and
    the chunk chain staying as they are; (2) when that list is empty and
    cursor + [c] does not pass the end of the current chunk, the cursor
    position, the cursor advancing by [c]; (3) when both fail, the base
    of a new chunk that is put in front of the chain. *)
Theorem allocate_sources_in_order (n : Z) (s : state) :
  0 < n <= CHUNK ->
  let c := block_words n in
  let head := array_t.get (freeMem s) c in
  (head ≠ 0 ->
     exists s', allocate n s = Ok (head + DEBUG_OFFSET, s') /\
       array_t.get (freeMem s') c = getNext (load (heap s) head) /\
       freePtr s' = freePtr s /\ endFree s' = endFree s /\
       memPool s' = memPool s /\ live s' = live s) /\
  (head = 0 -> freePtr s + c <= endFree s ->
     exists s', allocate n s = Ok (freePtr s + DEBUG_OFFSET, s') /\
       freePtr s' = freePtr s + c /\ endFree s' = endFree s /\
       freeMem s' = freeMem s /\
       memPool s' = memPool s /\ live s' = live s) /\
  (head = 0 -> endFree s < freePtr s + c ->
     exists s', allocate n s = Ok (Pool_mem (brk s) + DEBUG_OFFSET, s') /\
       memPool s' = brk s /\ Pool_next (heap s') (memPool s') = memPool s /\
       live s' = brk s :: live s /\
       freePtr s' = Pool_mem (memPool s') + c /\
       endFree s' = Pool_end (memPool s')).
Proof.
  intros Hn c head. subst c head. rewrite (allocate_nonzero n s Hn). cbv zeta.
  repeat split.
  - intros Hne. rewrite (proj2 (Z.eqb_neq _ 0) Hne). simpl.
    eexists. split; [done|]. cbn. repeat split.
    apply array_t_facts.get_set_eq.
  - intros Hz Hfit. rewrite Hz. simpl.
    rewrite (proj2 (Z.leb_le _ _) Hfit).
    eexists. split; [done|]. cbn. done.
  - intros Hz Hover. rewrite Hz. simpl.
    rewrite (proj2 (Z.leb_gt _ _) Hover).
    eexists. split; [done|]. cbn. repeat split.
    unfold Pool_next, DODEBUG_store, Pool_mem.
    destruct debug.
    + rewrite load_insert_ne by lia. apply load_insert_eq.
    + apply load_insert_eq.
Qed.

(** ** [deallocate]: tail shrink or free list *)

(** The state [deallocate] leaves for a nonzero size, when its assertions
    let it through. *)
Lemma deallocate_Ok_inv (fuel : nat) (ptr n : Z) (s s' : state) :
  n ≠ 0 ->
  deallocate fuel ptr n s = Ok s' ->
  let data := ptr - DEBUG_OFFSET in
  let c := block_words n in
  s' = if data + c =? freePtr s then set_freePtr data s
       else set_heap (<[data := getNext (array_t.get (freeMem s) c)]> (heap s))
              (set_freeMem (array_t.set (freeMem s) c data) s).
Proof.
  intros Hn. unfold deallocate.
  rewrite (proj2 (Z.eqb_neq n 0) Hn). fold (block_words n). cbv zeta.
  destruct (assert _ AssertRecordedSize); [|done..]. cbn [obind].
  destruct (assert_hasInPools fuel true _ _ _ s); [|done..]. cbn [obind].
  destruct (assert_hasInPools fuel false _ _ _ _); [|done..]. cbn [obind].
  unfold array_t.replace. by intros [= <-].
Qed.

(** Without the debug instrumentation nothing can stop [deallocate]. *)
Lemma deallocate_release_total (fuel : nat) (ptr n : Z) (s : state) :
  debug = false -> exists s', deallocate fuel ptr n s = Ok s'.
Proof.
  intros Hrel. unfold deallocate, assert_hasInPools, assert. rewrite Hrel.
  destruct (n =? 0); cbn [obind]; eauto.
Qed.


(** ** Returned pointers are not null *)

Lemma load_nonneg (h : gmap Z Z) (a : Z) :
  map_Forall (fun _ w => 0 <= w) h -> 0 <= load h a.
Proof.
  intros Hh. unfold load. destruct (h !! a) as [w|] eqn:E; [|done].
  apply (Hh a w E).
Qed.

Lemma get_nonneg (a : list Z) (i : Z) :
  Forall (fun p => 0 <= p) a -> 0 <= array_t.get a i.
Proof.
  intros Ha. unfold array_t.get.
  destruct (a !! Z.to_nat i) as [w|] eqn:E; [|done].
  apply (Forall_lookup_1 _ _ _ _ Ha E).
Qed.

Lemma set_nonneg (a : list Z) (i v : Z) :
  Forall (fun p => 0 <= p) a -> 0 <= v ->
  Forall (fun p => 0 <= p) (array_t.set a i v).
Proof.
  intros Ha Hv. unfold array_t.set, array_t.ensurePos.
  apply Forall_insert; [|done].
  apply Forall_app. split; [done|].
  by apply Forall_replicate.
Qed.

Lemma DODEBUG_store_nonneg (data c : Z) (h : gmap Z Z) :
  0 <= c -> map_Forall (fun _ w => 0 <= w) h ->
  map_Forall (fun _ w => 0 <= w) (DODEBUG_store data c h).
Proof.
  intros Hc Hh. unfold DODEBUG_store. destruct debug; [|done].
  by apply map_Forall_insert_2.
Qed.

Lemma valid_addresses_ctor (h : gmap Z Z) (lv : list Z) (b : Z) :
  0 < b -> map_Forall (fun _ w => 0 <= w) h -> Forall (fun p => p < b) lv ->
  valid_addresses (DataAllocator_ctor h lv b).
Proof.
  intros Hb Hh Hlv. pose proof CHUNK_pos.
  unfold DataAllocator_ctor, Pool_end, Pool_mem. split; fields.
  - by apply map_Forall_insert_2.
  - constructor; [lia|]. eapply Forall_impl; [exact Hlv|]. fields. intros; lia.
  - lia.
  - lia.
  - lia.
  - by apply Forall_replicate.
Qed.

Lemma allocate_valid_addresses (n p : Z) (s s' : state) :
  valid_addresses s -> 0 <= n <= CHUNK ->
  allocate n s = Ok (p, s') -> valid_addresses s'.
Proof.
  intros [Hh Hlv Hb Hmp Hfp Hfm] Hn.
  destruct (decide (n = 0)) as [->|Hnz].
  { rewrite allocate_zero. intros [= <- <-]. by split. }
  rewrite allocate_nonzero by lia. cbv zeta.
  pose proof (block_words_nonneg n) as Hc.
  pose proof (get_nonneg (freeMem s) (block_words n) Hfm) as Hhead.
  pose proof CHUNK_pos.
  destruct (negb _) eqn:Epop.
  { intros [= <- <-]. split; fields; try done.
    - by apply DODEBUG_store_nonneg.
    - apply set_nonneg; [done|]. by apply load_nonneg. }
  destruct (_ <=? _) eqn:Efit.
  { intros [= <- <-]. split; fields; try done.
    - by apply DODEBUG_store_nonneg.
    - lia. }
  intros [= <- <-]. unfold Pool_end, Pool_mem.
  destruct (uint32_t _ =? 0); split; fields; try lia; try done.
  - apply DODEBUG_store_nonneg; [done|]. apply map_Forall_insert_2; [lia|done].
  - constructor; [lia|]. eapply Forall_impl; [exact Hlv|]. fields. intros; lia.
  - apply DODEBUG_store_nonneg; [done|]. apply map_Forall_insert_2; [lia|].
    apply map_Forall_insert_2; [|done]. by apply get_nonneg.
  - constructor; [lia|]. eapply Forall_impl; [exact Hlv|]. fields. intros; lia.
  - apply set_nonneg; [done|lia].
Qed.

Lemma deallocate_valid_addresses (fuel : nat) (ptr n : Z) (s s' : state) :
  valid_addresses s -> DEBUG_OFFSET < ptr ->
  deallocate fuel ptr n s = Ok s' -> valid_addresses s'.
Proof.
  intros [Hh Hlv Hb Hmp Hfp Hfm] Hptr Hok.
  destruct (decide (n = 0)) as [->|Hnz].
  { cbn in Hok. injection Hok as <-. by split. }
  apply deallocate_Ok_inv in Hok; [|done]. cbv zeta in Hok. subst s'.
  destruct (_ =? _); split; fields; try done; try lia.
  - apply map_Forall_insert_2; [|done]. by apply get_nonneg.
  - apply set_nonneg; [done|lia].
Qed.

Lemma delete_obj_below (p b : Z) (lv : list Z) :
  Forall (fun q => q < b) lv -> Forall (fun q => q < b) (delete_obj p lv).
Proof.
  intros Hlv. unfold delete_obj. apply Forall_forall. intros q Hq.
  apply list_elem_of_filter in Hq as [_ Hq].
  by apply (proj1 (Forall_forall _ _) Hlv).
Qed.

Lemma delete_pools_below (fuel : nat) (h : gmap Z Z) (pool b : Z) (lv lv' : list Z) :
  Forall (fun q => q < b) lv ->
  delete_pools fuel h pool lv = Some lv' -> Forall (fun q => q < b) lv'.
Proof.
  revert pool lv. induction fuel as [|fuel IH]; intros pool lv Hlv; cbn [delete_pools].
  - destruct (pool =? 0); [by intros [= <-] | done].
  - destruct (pool =? 0); [by intros [= <-]|].
    apply IH. by apply delete_obj_below.
Qed.

Lemma reset_valid_addresses (fuel : nat) (s s' : state) :
  valid_addresses s -> reset fuel s = Ok s' -> valid_addresses s'.
Proof.
  intros [Hh Hlv Hb Hmp Hfp Hfm]. unfold reset.
  destruct (assert _ _); [|done..]. cbn [obind].
  destruct (delete_pools _ _ _ _) as [lv'|] eqn:E; [|done]. cbn [lift_fuel obind].
  intros [= <-]. unfold Pool_mem. split; fields; try done; try lia.
  - by apply map_Forall_insert_2.
  - by eapply delete_pools_below.
  - unfold array_t.reset. by apply Forall_replicate.
Qed.

Lemma base_new_valid_addresses (size : Z) (s : state) :
  valid_addresses s -> 0 <= size -> valid_addresses (base_new size s).2.
Proof.
  intros [Hh Hlv Hb Hmp Hfp Hfm] Hsize. unfold base_new. cbn [snd].
  assert (0 <= match uintptr with Arch32 => size | Arch64 => (size + 1) / 2 end).
  { destruct uintptr; [done|]. apply Z.div_pos; lia. }
  split; fields; try done; try lia.
  constructor; [lia|]. eapply Forall_impl; [exact Hlv|]. fields. intros; lia.
Qed.

Lemma base_delete_valid_addresses (mem_ unused : Z) (s : state) :
  valid_addresses s -> valid_addresses (base_delete mem_ unused s).
Proof.
  intros [Hh Hlv Hb Hmp Hfp Hfm]. unfold base_delete.
  destruct (mem_ =? 0); split; fields; try done.
  by apply delete_obj_below.
Qed.

(** Every state a program gets to has valid addresses. *)
Lemma reachable_valid_addresses (s : state) : reachable s -> valid_addresses s.
Proof.
  induction 1 as [h lv b Hb Hh Hlv | n p s s' _ IH Hn Halloc
                 | fuel ptr n s s' _ IH Hptr Hfree | fuel s s' _ IH Hreset
                 | size s _ IH Hsize | mem_ unused s _ IH].
  - by apply valid_addresses_ctor.
  - by eapply allocate_valid_addresses.
  - by eapply deallocate_valid_addresses.
  - by eapply reset_valid_addresses.
  - by apply base_new_valid_addresses.
  - by apply base_delete_valid_addresses.
Qed.

(** C10: in a running program (see [valid_addresses]; [new] succeeding
    is part of the model), [allocate(n)] with [0 <= n <= CHUNK_SIZE]
    returns, and the pointer it returns is null exactly when [n = 0]. *)
Theorem allocate_null_only_for_zero (n : Z) (s : state) :
  valid_addresses s -> 0 <= n <= CHUNK ->
  exists p s', allocate n s = Ok (p, s') /\ (p = 0 <-> n = 0).
Proof.
  intros [Hh Hlv Hb Hmp Hfp Hfm] Hn.
  destruct (decide (n = 0)) as [->|Hnz].
  { exists 0, s. split; [apply allocate_zero | done]. }
  rewrite allocate_nonzero by lia. cbv zeta.
  pose proof DEBUG_OFFSET_range as Hd.
  pose proof (get_nonneg (freeMem s) (block_words n) Hfm) as Hhead.
  destruct (negb _) eqn:Epop.
  { apply negb_true_iff, Z.eqb_neq in Epop.
    eexists _, _. split; [done|]. lia. }
  destruct (_ <=? _).
  { eexists _, _. split; [done|]. lia. }
  eexists _, _. split; [done|]. unfold Pool_mem. lia.
Qed.

(** ** The recorded size (debug instrumentation) *)

(** In a debug build the word in front of a returned block holds the
    number of words of the block. *)
Lemma allocate_records_size (n p : Z) (s s' : state) :
  debug = true -> 0 < n <= CHUNK ->
  allocate n s = Ok (p, s') ->
  load (heap s') (p - DEBUG_OFFSET) = block_words n.
Proof.
  intros Hdbg Hn. rewrite allocate_nonzero by done. cbv zeta.
  unfold DODEBUG_store. rewrite Hdbg.
  destruct (negb _).
  { intros [= <- <-]. fields. rewrite Z.add_simpl_r. apply load_insert_eq. }
  destruct (_ <=? _).
  { intros [= <- <-]. fields. rewrite Z.add_simpl_r. apply load_insert_eq. }
  intros [= <- <-]. fields. rewrite Z.add_simpl_r. apply load_insert_eq.
Qed.

Lemma hasInPools_abort (fuel : nat) (data c : Z) (s : state) (a : assertion) :
  hasInPools fuel data c s = Abort a -> a = AssertMemPool.
Proof.
  unfold hasInPools, assert.
  destruct debug; [destruct (negb _); [|by intros [= <-]]|]; cbn [obind].
  all: destruct (_ && _); cbn [obind negb];
    [|destruct (in_full_pools _ _ _ _) as [[]|]; cbn [lift_fuel obind negb]; try done];
    destruct (on_free_list _ _ _ _); done.
Qed.

Lemma assert_hasInPools_abort (fuel : nat) (e : bool) (why a : assertion)
    (data c : Z) (s : state) :
  assert_hasInPools fuel e why data c s = Abort a -> a = AssertMemPool \/ a = why.
Proof.
  unfold assert_hasInPools. destruct debug; [|done].
  destruct (hasInPools fuel data c s) as [b| |] eqn:E; cbn [obind]; [| |done].
  - destruct (Bool.eqb b e); [done|]. intros [= <-]. by right.
  - intros [= <-]. left. by eapply hasInPools_abort.
Qed.

(** Two sizes occupy the same number of words exactly when the
    architecture adaptation maps them to the same count. *)
Lemma block_words_eq_iff (n w : Z) :
  0 < n <= CHUNK -> CHUNK + 1 < 2 ^ 32 -> 0 <= w < 2 ^ size_bits ->
  block_words w = block_words n <-> arch_size w = arch_size n.
Proof.
  unfold block_words, arch_size, size_t, size_bits, DEBUG_OFFSET.
  intros Hn Hc Hw.
  destruct uintptr, debug.
  - rewrite (Z.mod_small (n + 1)) by lia.
    destruct (decide (w + 1 < 2 ^ 32)).
    + rewrite Z.mod_small by lia. lia.
    + replace w with (2 ^ 32 - 1) by lia.
      replace (2 ^ 32 - 1 + 1) with (1 * 2 ^ 32) by lia.
      rewrite Z.mod_mul by lia. lia.
  - rewrite !Z.add_0_r, !Z.mod_small by lia. done.
  - pose proof (Z.mod_pos_bound (w + 1) (2 ^ 64) ltac:(lia)).
    pose proof (Z.mod_pos_bound (n + 1) (2 ^ 64) ltac:(lia)).
    rewrite !(Z.mod_small (_ / 2 + 1)); [lia| |].
    all: split; [apply Z.add_nonneg_nonneg; [apply Z.div_pos|]; lia|].
    all: apply (Z.le_lt_trans _ (2 ^ 64 / 2 + 1)); [|by vm_compute].
    all: apply Z.add_le_mono_r, Z.div_le_mono; lia.
  - pose proof (Z.mod_pos_bound (w + 1) (2 ^ 64) ltac:(lia)).
    pose proof (Z.mod_pos_bound (n + 1) (2 ^ 64) ltac:(lia)).
    rewrite !Z.add_0_r.
    rewrite !(Z.mod_small (_ / 2)); [done| |].
    all: split; [apply Z.div_pos; lia|].
    all: apply Z.div_lt_upper_bound; lia.
Qed.

(** The recorded-size assertion compares the header with the word count
    of the size passed to [deallocate]. *)
Lemma recorded_size_check (fuel : nat) (n w ptr : Z) (s : state) :
  debug = true ->
  0 < n <= CHUNK -> CHUNK + 1 < 2 ^ 32 -> 0 <= w < 2 ^ size_bits ->
  load (heap s) (ptr - DEBUG_OFFSET) = block_words n ->
  deallocate fuel ptr w s = Abort AssertRecordedSize <->
  w ≠ 0 /\ arch_size w ≠ arch_size n.
Proof.
  intros Hdbg Hn Hc Hw Hrec.
  rewrite <- (block_words_eq_iff n w Hn Hc Hw).
  unfold deallocate.
  destruct (decide (w = 0)) as [->|Hwz]; [cbn; split; [done|tauto]|].
  rewrite (proj2 (Z.eqb_neq w 0) Hwz). fold (block_words w). cbv zeta.
  rewrite Hrec. unfold assert at 1. rewrite Hdbg.
  destruct (decide (block_words w = block_words n)) as [Heq|Hne].
  - rewrite Heq, Z.eqb_refl. cbn [obind]. split; [|tauto].
    destruct (assert_hasInPools fuel true _ _ _ _) as [[]| |] eqn:E1; cbn [obind].
    + destruct (assert_hasInPools fuel false _ _ _ _) as [[]| |] eqn:E2;
        cbn [obind]; [done| |done].
      intros [= ->]. by apply assert_hasInPools_abort in E2 as [|].
    + intros [= ->]. by apply assert_hasInPools_abort in E1 as [|].
    + done.
  - rewrite (proj2 (Z.eqb_neq _ _)) by congruence. cbn [obind].
    split; [done|]. done.
Qed.

(** C3 (as the code has it): in a debug build, for a block returned by
    [allocate(n)], [deallocate(ptr, wrong_size)] stops on the
    recorded-size assertion exactly when [wrong_size] is not zero and
    occupies another number of words than [n], that is when
    [arch_size wrong_size] differs from [arch_size n].  A [wrong_size] of
    0 is the no-op of [deallocate], and with 8-byte words the sizes
    [2k-1] and [2k] are one and the same. *)
Theorem recorded_size_abort_iff (fuel : nat) (n w p : Z) (s s' : state) :
  debug = true ->
  0 < n <= CHUNK -> CHUNK + 1 < 2 ^ 32 -> 0 <= w < 2 ^ size_bits ->
  allocate n s = Ok (p, s') ->
  deallocate fuel p w s' = Abort AssertRecordedSize <->
  w ≠ 0 /\ arch_size w ≠ arch_size n.
Proof.
  intros Hdbg Hn Hc Hw Halloc.
  apply recorded_size_check; [done..|].
  by apply (allocate_records_size n p s s').
Qed.

(** ** [reset] *)

Lemma memInFreeList_from_empty (fuel : nat) (h : gmap Z Z) (i : Z) (k : nat) :
  memInFreeList_from fuel h i (replicate k 0) = Some 0.
Proof.
  revert i. induction k as [|k IH]; intros i; [done|].
  cbn [replicate memInFreeList_from].
  replace (free_list_length fuel h 0) with (Some 0) by (by destruct fuel).
  cbn. rewrite IH. cbn. f_equal. lia.
Qed.

(** The loop of [reset] starts from the [next] field that was cleared one
    statement earlier, so its body never runs. *)
Lemma reset_loop_is_dead (fuel : nat) (h : gmap Z Z) (pool : Z) (lv : list Z) :
  delete_pools fuel (<[pool := 0]> h) (Pool_next (<[pool := 0]> h) pool) lv = Some lv.
Proof. unfold Pool_next. rewrite load_insert_eq. by destruct fuel. Qed.

Lemma reset_Ok (fuel : nat) (s : state) :
  memPool s ≠ 0 ->
  reset fuel s =
    Ok (State (<[memPool s := 0]> (heap s)) (live s) (brk s) (memPool s)
              (Pool_mem (memPool s)) (Pool_end (memPool s))
              (array_t.reset (freeMem s))).
Proof.
  intros Hmp. unfold reset, assert.
  rewrite (proj2 (Z.eqb_neq _ _) Hmp). cbn [negb].
  replace (if debug then Ok tt else Ok tt) with (@Ok unit tt) by (by destruct debug).
  cbn [obind]. by rewrite reset_loop_is_dead.
Qed.

(** [reset] deletes no chunk: the chunks behind the current one stay
    allocated and are no longer reachable from the allocator. *)
Lemma reset_deletes_nothing (fuel : nat) (s s' : state) :
  memPool s ≠ 0 -> reset fuel s = Ok s' -> live s' = live s.
Proof. intros Hmp. rewrite reset_Ok by done. by intros [= <-]. Qed.

(** C1 (as the code has it): after [reset()] the chunk chain consists of
    exactly one chunk, the chunk that was current when [reset] was called
    (the head of the chain, the one allocated last); every free list is
    empty, the cursor is at the start of that chunk and its bound at the
    chunk's end; [printStats] then reports one pool and no consumed
    byte. *)
Theorem reset_keeps_current_chunk (fuel k : nat) (s : state) :
  memPool s ≠ 0 ->
  exists s', reset fuel s = Ok s' /\
    memPool s' = memPool s /\
    Pool_next (heap s') (memPool s') = 0 /\
    freePtr s' = Pool_mem (memPool s') /\
    endFree s' = Pool_end (memPool s') /\
    (forall c, array_t.get (freeMem s') c = 0) /\
    exists st, printStats (S k) s' = Some st /\
      nbPools st = 1 /\ memory_allocated st = 0.
Proof.
  intros Hmp. rewrite reset_Ok by done. eexists. split; [done|]. fields.
  split; [done|]. split; [apply load_insert_eq|]. do 2 (split; [done|]).
  split; [apply array_t_facts.get_reset|].
  unfold printStats. fields. cbn [count_pools].
  rewrite (proj2 (Z.eqb_neq _ _) Hmp).
  unfold Pool_next at 1. rewrite load_insert_eq.
  replace (count_pools k _ 0) with (Some 0) by (by destruct k).
  unfold array_t.reset. rewrite memInFreeList_from_empty. cbn.
  eexists. split; [done|]. cbn. split; [done|].
  unfold Pool_end, Pool_mem.
  change (uint32_t (0 + 1)) with 1. change (uint32_t 0) with 0.
  replace (_ - _) with 0 by lia. done.
Qed.

(** ** The tail left over when a chunk overflows *)

(** When the request does not fit and [m] words are left before the end
    of the chunk, the tail becomes the head of free-list class
    [arch_size m]; the other classes are untouched and the request is
    served at the base of a new chunk. *)
Lemma allocate_overflow_leftover (n : Z) (s : state) :
  0 < n <= CHUNK ->
  array_t.get (freeMem s) (block_words n) = 0 ->
  let m := endFree s - freePtr s in
  0 < m < 2 ^ 32 -> m < block_words n ->
  exists s', allocate n s = Ok (Pool_mem (brk s) + DEBUG_OFFSET, s') /\
    memPool s' = brk s /\
    array_t.get (freeMem s') (arch_size m) = freePtr s /\
    (forall j, Z.to_nat j ≠ Z.to_nat (arch_size m) ->
       array_t.get (freeMem s') j = array_t.get (freeMem s) j).
Proof.
  intros Hn Hempty m Hm Hover. subst m.
  rewrite allocate_nonzero by done. cbv zeta.
  rewrite Hempty. cbn [Z.eqb negb].
  rewrite (proj2 (Z.leb_gt _ _)) by lia.
  unfold uint32_t. rewrite Z.mod_small by lia.
  rewrite (proj2 (Z.eqb_neq _ 0)) by lia.
  eexists. split; [done|]. fields. split; [done|]. split.
  - apply array_t_facts.get_set_eq.
  - intros j Hj. by apply array_t_facts.get_set_ne.
Qed.

Lemma arch_size_32 (m : Z) : uintptr = Arch32 -> arch_size m = m.
Proof. unfold arch_size. by intros ->. Qed.

Lemma arch_size_64 (m : Z) :
  uintptr = Arch64 -> 0 <= m < 2 ^ 32 -> arch_size m = (m + 1) / 2.
Proof.
  unfold arch_size, size_t, size_bits. intros -> Hm.
  by rewrite Z.mod_small by lia.
Qed.

(** With 4-byte words the tail is filed under its own word count, and the
    next request that occupies [m] words gets the tail itself. *)
Lemma leftover_reused_arch32 (n n' : Z) (s : state) :
  uintptr = Arch32 ->
  0 < n <= CHUNK -> 0 < n' <= CHUNK ->
  array_t.get (freeMem s) (block_words n) = 0 ->
  let m := endFree s - freePtr s in
  0 < m < 2 ^ 32 -> m < block_words n -> block_words n' = m ->
  0 < freePtr s ->
  exists p s' s'', allocate n s = Ok (p, s') /\
    array_t.get (freeMem s') m = freePtr s /\
    allocate n' s' = Ok (freePtr s + DEBUG_OFFSET, s'').
Proof.
  intros H32 Hn Hn' Hempty m Hm Hover Hm' Hfp.
  destruct (allocate_overflow_leftover n s Hn Hempty Hm Hover)
    as (s' & Halloc & _ & Hhead & _).
  fold m in Hhead. rewrite (arch_size_32 m H32) in Hhead.
  eexists _, s', _. split; [exact Halloc|]. split; [exact Hhead|].
  rewrite allocate_nonzero by done. cbv zeta.
  rewrite Hm', Hhead. rewrite (proj2 (Z.eqb_neq _ 0)) by lia. done.
Qed.

(** With 8-byte words a valid request of [n] items occupies [n] halved
    and rounded up, plus the debug header: the size passed in is halved
    once, and [allocate] and [deallocate] do all their bookkeeping with
    that number ([allocate_nonzero], [deallocate_Ok_inv]). *)
Lemma block_words_arch64 (n : Z) :
  uintptr = Arch64 -> 0 < n <= CHUNK -> CHUNK + 1 < 2 ^ 32 ->
  block_words n = (n + 1) / 2 + DEBUG_OFFSET.
Proof.
  intros H64 Hn HCH. pose proof DEBUG_OFFSET_range as Hd.
  unfold block_words. rewrite (arch_size_64 n H64) by lia.
  assert (0 <= (n + 1) / 2 <= n) as [Hlo Hhi].
  { split; [apply Z.div_pos; lia | apply Z.div_le_upper_bound; lia]. }
  unfold size_t, size_bits. rewrite H64. apply Z.mod_small. lia.
Qed.

(** C4 (what the code does): with 8-byte words, the tail of [m >= 2]
    words left over by an overflowing [allocate] is filed under class
    [(m + 1) / 2], which is smaller than [m], and class [m] does not get
    it: the word count [m], made of sizes that were already halved, is
    halved once more. *)
Theorem leftover_is_halved_again (n : Z) (s : state) :
  uintptr = Arch64 ->
  0 < n <= CHUNK ->
  array_t.get (freeMem s) (block_words n) = 0 ->
  let m := endFree s - freePtr s in
  2 <= m < 2 ^ 32 -> m < block_words n ->
  exists p s', allocate n s = Ok (p, s') /\
    array_t.get (freeMem s') ((m + 1) / 2) = freePtr s /\
    (m + 1) / 2 < m /\
    array_t.get (freeMem s') m = array_t.get (freeMem s) m.
Proof.
  intros H64 Hn Hempty m Hm Hover.
  assert (0 < m < 2 ^ 32) as Hm' by lia.
  destruct (allocate_overflow_leftover n s Hn Hempty Hm' Hover)
    as (s' & Halloc & _ & Hhead & Hothers).
  fold m in Hhead, Hothers.
  rewrite (arch_size_64 m H64) in Hhead, Hothers by lia.
  assert ((m + 1) / 2 < m) as Hlt.
  { apply Z.div_lt_upper_bound; lia. }
  eexists _, s'. split; [exact Halloc|]. split; [exact Hhead|]. split; [exact Hlt|].
  apply Hothers.
  assert (0 <= (m + 1) / 2) by (apply Z.div_pos; lia). lia.
Qed.

(** ** The consumed bytes over [deallocate(allocate(n), n)] *)

Lemma count_pools_ext (fuel : nat) (h1 h2 : gmap Z Z) (pool : Z) :
  (forall a, load h1 a = load h2 a) ->
  count_pools fuel h1 pool = count_pools fuel h2 pool.
Proof.
  intros Hext. revert pool. induction fuel as [|fuel IH]; intros pool; [done|].
  cbn [count_pools]. unfold Pool_next. by rewrite Hext, IH.
Qed.

Lemma free_list_length_ext (fuel : nat) (h1 h2 : gmap Z Z) (freeList : Z) :
  (forall a, load h1 a = load h2 a) ->
  free_list_length fuel h1 freeList = free_list_length fuel h2 freeList.
Proof.
  intros Hext. revert freeList. induction fuel as [|fuel IH]; intros freeList; [done|].
  cbn [free_list_length]. by rewrite Hext, IH.
Qed.

Lemma memInFreeList_from_ext (fuel : nat) (h1 h2 : gmap Z Z) (i : Z) (heads : list Z) :
  (forall a, load h1 a = load h2 a) ->
  memInFreeList_from fuel h1 i heads = memInFreeList_from fuel h2 i heads.
Proof.
  intros Hext. revert i. induction heads as [|hd heads IH]; intros i; [done|].
  cbn [memInFreeList_from].
  by rewrite (free_list_length_ext fuel h1 h2 hd Hext), IH.
Qed.

(** More fuel does not change the length of a list that was walked to
    its end. *)
Lemma free_list_length_more_fuel (fuel : nat) (h : gmap Z Z) (freeList k : Z) :
  free_list_length fuel h freeList = Some k ->
  free_list_length (S fuel) h freeList = Some k.
Proof.
  revert freeList k. induction fuel as [|fuel IH]; intros freeList k.
  - cbn. by destruct (freeList =? 0).
  - cbn [free_list_length]. destruct (freeList =? 0); [done|].
    destruct (free_list_length fuel h _) as [m|] eqn:E; [|done].
    apply IH in E. cbn [free_list_length] in E. rewrite E. done.
Qed.

(** The list behind the head of a list is one block shorter. *)
Lemma free_list_length_tail (fuel : nat) (h : gmap Z Z) (freeList k : Z) :
  freeList ≠ 0 ->
  free_list_length fuel h freeList = Some k ->
  free_list_length fuel h (getNext (load h freeList)) = Some (k - 1).
Proof.
  intros Hne. destruct fuel as [|fuel].
  - cbn. by rewrite (proj2 (Z.eqb_neq _ _) Hne).
  - intros Hlen. apply free_list_length_more_fuel.
    cbn [free_list_length] in Hlen. rewrite (proj2 (Z.eqb_neq _ _) Hne) in Hlen.
    destruct (free_list_length fuel h _) as [m|]; [|done].
    injection Hlen as <-. f_equal. lia.
Qed.

(** Replacing the head of one class changes the free-list total by the
    class times the change in length. *)
Lemma memInFreeList_from_insert (fuel : nat) (h : gmap Z Z) (i : Z)
    (heads : list Z) (c : nat) (hd x f a b : Z) :
  heads !! c = Some hd ->
  memInFreeList_from fuel h i heads = Some f ->
  free_list_length fuel h hd = Some a ->
  free_list_length fuel h x = Some b ->
  memInFreeList_from fuel h i (<[c := x]> heads)
  = Some (f + (i + Z.of_nat c) * (b - a)).
Proof.
  revert i c f. induction heads as [|hd' heads IH]; intros i c f; [done|].
  destruct c as [|c]; cbn [memInFreeList_from].
  - intros [= ->] Hf Ha Hb.
    change (<[O := x]> (hd :: heads)) with (x :: heads).
    cbn [memInFreeList_from] in *.
    rewrite Ha in Hf. rewrite Hb. cbn in *.
    destruct (memInFreeList_from fuel h (i + 1) heads) as [m|]; [|done].
    cbn in *. injection Hf as <-. f_equal. lia.
  - intros Hhd Hf Ha Hb. cbn in Hhd.
    change (<[S c := x]> (hd' :: heads)) with (hd' :: <[c := x]> heads).
    cbn [memInFreeList_from].
    destruct (free_list_length fuel h hd') as [n0|]; [|done]. cbn in *.
    destruct (memInFreeList_from fuel h (i + 1) heads) as [m|] eqn:E; [|done].
    cbn in Hf. injection Hf as <-.
    rewrite (IH (i + 1) c m Hhd E Ha Hb). cbn. f_equal. lia.
Qed.

Lemma memInFreeList_from_lookup (fuel : nat) (h : gmap Z Z) (i : Z)
    (heads : list Z) (c : nat) (hd f : Z) :
  heads !! c = Some hd ->
  memInFreeList_from fuel h i heads = Some f ->
  exists a, free_list_length fuel h hd = Some a.
Proof.
  revert i c f. induction heads as [|hd' heads IH]; intros i c f; [done|].
  destruct c as [|c]; cbn [memInFreeList_from].
  - intros [= ->] Hf. destruct (free_list_length fuel h hd); [eauto|done].
  - intros Hhd Hf. cbn in Hhd.
    destruct (free_list_length fuel h hd'); [|done]. cbn in Hf.
    destruct (memInFreeList_from fuel h (i + 1) heads) eqn:E; [|done].
    by eapply IH.
Qed.

Lemma uint32_t_idemp_sub (x y e q : Z) :
  uint32_t (x - (uint32_t y + e - q) * 4) = uint32_t (x - (y + e - q) * 4).
Proof.
  unfold uint32_t. rewrite (Z.mod_eq y (2 ^ 32)) by lia.
  replace (x - (y - 2 ^ 32 * (y / 2 ^ 32) + e - q) * 4)
    with (x - (y + e - q) * 4 + (4 * (y / 2 ^ 32)) * 2 ^ 32) by lia.
  apply Z_mod_plus_full.
Qed.

(** When the request is served from its free list or at the cursor,
    giving the block back at once leaves the consumed bytes of the report
    as they were, for both pointer widths (release build). *)
Lemma tail_round_trip_without_overflow (fuel fuel' : nat) (n p : Z)
    (s s1 s2 : state) (st : stats) :
  debug = false -> 0 < n <= CHUNK ->
  array_t.get (freeMem s) (block_words n) ≠ 0 \/
    freePtr s + block_words n <= endFree s ->
  allocate n s = Ok (p, s1) -> deallocate fuel' p n s1 = Ok s2 ->
  printStats fuel s = Some st ->
  exists st2, printStats fuel s2 = Some st2 /\
    nbPools st2 = nbPools st /\ memory_allocated st2 = memory_allocated st.
Proof.
  intros Hrel Hn Hsrc Halloc Hfree Hst.
  assert (n ≠ 0) as Hnz by lia.
  apply (deallocate_Ok_inv fuel' p n s1 s2 Hnz) in Hfree. cbv zeta in Hfree.
  rewrite allocate_nonzero in Halloc by done. cbv zeta in Halloc.
  unfold DODEBUG_store, DEBUG_OFFSET in *. rewrite Hrel in *.
  set (c := block_words n) in *.
  destruct (decide (array_t.get (freeMem s) c = 0)) as [Hempty|Hhead].
  - (* served at the cursor *)
    destruct Hsrc as [|Hfit]; [done|].
    rewrite Hempty in Halloc. cbn [Z.eqb negb] in Halloc.
    rewrite (proj2 (Z.leb_le _ _) Hfit) in Halloc.
    injection Halloc as <- <-. fields.
    rewrite !Z.add_0_r, ?Z.sub_0_r in Hfree.
    rewrite Z.eqb_refl in Hfree. subst s2.
    exists st. split; [|done]. by destruct s.
  - (* served from the free list *)
    rewrite (proj2 (Z.eqb_neq _ 0) Hhead) in Halloc. cbn [negb] in Halloc.
    injection Halloc as <- <-. fields.
    rewrite !Z.add_0_r, ?Z.sub_0_r in Hfree.
    set (hd := array_t.get (freeMem s) c) in *.
    unfold printStats in Hst |- *.
    destruct (count_pools fuel (heap s) (memPool s)) as [np|] eqn:Enp; [|done].
    destruct (memInFreeList_from fuel (heap s) 0 (freeMem s)) as [f|] eqn:Ef; [|done].
    cbn in Hst. injection Hst as <-.
    assert (freeMem s !! Z.to_nat c = Some hd) as Hlook.
    { unfold hd, array_t.get in *.
      destruct (freeMem s !! Z.to_nat c); [done|]. by cbn in Hhead. }
    destruct (memInFreeList_from_lookup _ _ _ _ _ _ _ Hlook Ef) as [a Ha].
    pose proof (free_list_length_tail _ _ _ _ Hhead Ha) as Hb.
    assert (array_t.set (freeMem s) c (getNext (load (heap s) hd))
            = <[Z.to_nat c := getNext (load (heap s) hd)]> (freeMem s)) as Hset.
    { unfold array_t.set, array_t.ensurePos.
      pose proof (lookup_lt_Some _ _ _ Hlook).
      replace (S (Z.to_nat c) - length (freeMem s))%nat with O by lia.
      cbn. by rewrite app_nil_r. }
    destruct (hd + c =? freePtr s) eqn:Etail; subst s2; fields.
    + (* the block ends at the cursor: the cursor moves back *)
      apply Z.eqb_eq in Etail. rewrite Enp, Hset.
      rewrite (memInFreeList_from_insert _ _ _ _ _ _ _ _ _ _ Hlook Ef Ha Hb).
      cbn. eexists. split; [done|]. cbn. split; [done|].
      rewrite !uint32_t_idemp_sub. f_equal.
      pose proof (block_words_nonneg n). fold c in H. lia.
    + (* the block goes back to the head of its list *)
      rewrite array_t_facts.get_set_eq.
      assert (forall a0, load (<[hd := getNext (getNext (load (heap s) hd))]> (heap s)) a0
                         = load (heap s) a0) as Hext.
      { intros a0. destruct (decide (hd = a0)) as [<-|Hne].
        - apply load_insert_eq.
        - by apply load_insert_ne. }
      rewrite (count_pools_ext _ _ _ _ Hext), Enp.
      rewrite (memInFreeList_from_ext _ _ _ _ _ Hext).
      assert (array_t.set (array_t.set (freeMem s) c (getNext (load (heap s) hd))) c hd
              = freeMem s) as ->.
      { rewrite Hset. unfold array_t.set, array_t.ensurePos.
        pose proof (lookup_lt_Some _ _ _ Hlook).
        rewrite length_insert.
        replace (S (Z.to_nat c) - length (freeMem s))%nat with O by lia.
        cbn. rewrite app_nil_r, list_insert_insert_eq.
        by apply list_insert_id. }
      rewrite Ef. cbn. eexists. split; [done|]. done.
Qed.

(** ** The invariant is kept *)


Lemma linked_insert (h : gmap Z Z) (a v hd : Z) (cells : list Z) :
  a ∉ cells -> linked h hd cells -> linked (<[a := v]> h) hd cells.
Proof.
  revert hd. induction cells as [|x rest IH]; intros hd Ha; [done|].
  cbn [linked]. intros (-> & Hx & Hrest). split; [done|]. split; [done|].
  rewrite load_insert_ne by (intros ->; apply Ha; by left).
  apply IH; [|done]. intros Hin. apply Ha. by right.
Qed.

Lemma linked_DODEBUG_store (h : gmap Z Z) (a v hd : Z) (cells : list Z) :
  a ∉ cells -> linked h hd cells -> linked (DODEBUG_store a v h) hd cells.
Proof. unfold DODEBUG_store. destruct debug; [apply linked_insert|done]. Qed.

Lemma linked_head_nonzero (h : gmap Z Z) (hd : Z) (cells : list Z) :
  linked h hd cells -> hd ≠ 0 -> exists rest, cells = hd :: rest /\ linked h (getNext (load h hd)) rest.
Proof.
  destruct cells as [|x rest]; cbn [linked]; [done|].
  intros (-> & _ & Hrest) _. eauto.
Qed.

Lemma linked_head_zero (h : gmap Z Z) (cells : list Z) :
  linked h 0 cells -> cells = [].
Proof. destruct cells as [|x rest]; cbn [linked]; [done|]. by intros (<- & ? & _). Qed.


Section wf_facts.
Variable pools : list Z.
Variable cells : Z -> list Z.
Variable used : list block.
Variable s : state.
Hypothesis Hwf : wf pools cells used s.

Lemma wf_pools_apart_elem (p q : Z) :
  p ∈ pools -> q ∈ pools -> p ≠ q -> apart (Pool_region p) (Pool_region q).
Proof.
  intros [i Hi]%list_elem_of_lookup [j Hj]%list_elem_of_lookup Hne.
  apply (wf_pools_apart _ _ _ _ Hwf i j); [congruence|done..].
Qed.

Lemma carved_end_le (p : Z) : carved_end s p <= Pool_end p.
Proof.
  unfold carved_end. destruct (decide _) as [->|]; [|lia].
  destruct Hwf. lia.
Qed.

Lemma wf_memPool_pos : 0 < memPool s.
Proof. apply (wf_pools _ _ _ _ Hwf). apply (wf_current _ _ _ _ Hwf). Qed.

(** No word of a block is the header of a chunk. *)
Lemma wf_block_not_pool (b : block) (a : Z) :
  is_block cells used b -> b.1 <= a < b.1 + b.2 -> a ∉ pools.
Proof.
  intros Hb Ha Hin.
  destruct (wf_in_pool _ _ _ _ Hwf b Hb) as (q & Hq & Hlo & Hhi).
  pose proof (carved_end_le q) as Hce. pose proof CHUNK_pos.
  destruct (decide (a = q)) as [->|Hne]; [unfold Pool_mem in *; lia|].
  destruct (wf_pools_apart_elem a q Hin Hq Hne) as [H1|H1];
    unfold Pool_region, Pool_mem, Pool_end in *; cbn in H1; lia.
Qed.

(** Two blocks that start at the same word are the same block. *)
Lemma wf_block_start_unique (b1 b2 : block) :
  is_block cells used b1 -> is_block cells used b2 -> b1.1 = b2.1 -> b1 = b2.
Proof.
  intros H1 H2 Heq. destruct (decide (b1 = b2)) as [|Hne]; [done|].
  pose proof (wf_size _ _ _ _ Hwf b1 H1). pose proof (wf_size _ _ _ _ Hwf b2 H2).
  destruct (wf_apart _ _ _ _ Hwf b1 b2 H1 H2 Hne); lia.
Qed.

(** Every block is apart from the unused tail of the current chunk. *)
Lemma wf_block_apart_tail (b : block) :
  is_block cells used b -> apart b (freePtr s, endFree s - freePtr s).
Proof.
  intros Hb.
  destruct (wf_in_pool _ _ _ _ Hwf b Hb) as (q & Hq & Hlo & Hhi).
  pose proof (wf_cursor _ _ _ _ Hwf) as Hcur. pose proof (wf_end _ _ _ _ Hwf) as Hend.
  pose proof CHUNK_pos.
  unfold apart, carved_end in *. cbn.
  destruct (decide (q = memPool s)) as [->|Hne]; [lia|].
  destruct (wf_pools_apart_elem q (memPool s) Hq (wf_current _ _ _ _ Hwf) Hne) as [H1|H1];
    unfold Pool_region, Pool_mem, Pool_end in *; cbn in H1; lia.
Qed.

(** Blocks lie below [brk] and above address 0. *)
Lemma wf_block_bounds (b : block) :
  is_block cells used b -> 0 < b.1 /\ b.1 + b.2 <= brk s.
Proof.
  intros Hb.
  destruct (wf_in_pool _ _ _ _ Hwf b Hb) as (q & Hq & Hlo & Hhi).
  pose proof (carved_end_le q). destruct (wf_pools _ _ _ _ Hwf q Hq).
  unfold Pool_mem in *. lia.
Qed.

Lemma wf_used_is_block (b : block) : b ∈ used -> is_block cells used b.
Proof. by left. Qed.

Lemma wf_free_is_block (x c : Z) : x ∈ cells c -> is_block cells used (x, c).
Proof. by right. Qed.

Lemma elem_of_upd (c c' x : Z) (l : list Z) :
  x ∈ upd cells c l c' <-> (c' = c /\ x ∈ l) \/ (c' ≠ c /\ x ∈ cells c').
Proof. unfold upd. destruct (decide (c' = c)); tauto. Qed.

Lemma get_set_class (fm : list Z) (c c' v : Z) :
  0 <= c -> 0 <= c' ->
  array_t.get (array_t.set fm c v) c' = if decide (c' = c) then v else array_t.get fm c'.
Proof.
  intros Hc Hc'. destruct (decide (c' = c)) as [->|Hne].
  - apply array_t_facts.get_set_eq.
  - apply array_t_facts.get_set_ne. lia.
Qed.

(** *** A block is taken from its free list *)
Lemma wf_pop (c : Z) :
  0 <= c -> array_t.get (freeMem s) c ≠ 0 ->
  let x := array_t.get (freeMem s) c in
  exists rest, cells c = x :: rest /\
    wf pools (upd cells c rest) ((x, c) :: used)
       (set_heap (DODEBUG_store x c (heap s))
          (set_freeMem (array_t.set (freeMem s) c (getNext (load (heap s) x))) s)) /\
    forall u, u ∈ used -> apart (x, c) u.
Proof.
  intros Hc Hx x.
  destruct (linked_head_nonzero _ _ _ (wf_lists _ _ _ _ Hwf c Hc) Hx)
    as (rest & Hcells & Hrest).
  fold x in Hcells, Hrest.
  exists rest. split; [done|].
  assert (is_block cells used (x, c)) as Hblk.
  { right. cbn. rewrite Hcells. by left. }
  assert (NoDup (x :: rest)) as Hnd.
  { rewrite <- Hcells. apply (wf_cells_nodup _ _ _ _ Hwf). }
  apply NoDup_cons in Hnd as [Hxrest Hndrest].
  assert (x ∉ pools) as Hxpools.
  { apply (wf_block_not_pool (x, c) x Hblk). cbn.
    pose proof (wf_size _ _ _ _ Hwf _ Hblk). cbn in *. lia. }
  assert (forall c', c' ≠ c -> x ∉ cells c') as Hxother.
  { intros c' Hne Hin.
    assert ((x, c') = (x, c)) as [=]; [|done].
    apply wf_block_start_unique; [by right|done|done]. }
  assert (forall u, u ∈ used -> u.1 ≠ x) as Hxused.
  { intros u Hu Heq.
    assert (u = (x, c)) as ->.
    { apply wf_block_start_unique; [by left|done|done]. }
    apply (wf_used_free _ _ _ _ Hwf _ Hu). cbn. rewrite Hcells. by left. }
  assert (forall b, is_block (upd cells c rest) ((x, c) :: used) b ->
                    is_block cells used b) as Hsub.
  { intros b [Hb|Hb].
    - apply elem_of_cons in Hb as [->|Hb]; [done|by left].
    - right. apply elem_of_upd in Hb as [[Heq Hb]|[_ Hb]]; [|done].
      rewrite Heq, Hcells. by right. }
  split; [split; fields|].
  - apply linked_DODEBUG_store; [done|]. apply (wf_chain _ _ _ _ Hwf).
  - apply (wf_current _ _ _ _ Hwf).
  - apply (wf_pools _ _ _ _ Hwf).
  - apply (wf_pools_apart _ _ _ _ Hwf).
  - apply (wf_cursor _ _ _ _ Hwf).
  - apply (wf_end _ _ _ _ Hwf).
  - intros c' Hc'. rewrite get_set_class by done. unfold upd.
    destruct (decide (c' = c)) as [->|Hne].
    + by apply linked_DODEBUG_store.
    + apply linked_DODEBUG_store; [by apply Hxother|].
      by apply (wf_lists _ _ _ _ Hwf).
  - intros c'. unfold upd. destruct (decide _); [done|].
    apply (wf_cells_nodup _ _ _ _ Hwf).
  - intros b Hb Hin. apply elem_of_cons in Hb as [->|Hb].
    + cbn in Hin. apply elem_of_upd in Hin as [[_ Hin]|[Hne _]]; done.
    + apply elem_of_upd in Hin as [[Heq Hin]|[_ Hin]].
      * apply (wf_used_free _ _ _ _ Hwf _ Hb). rewrite Heq, Hcells. by right.
      * by apply (wf_used_free _ _ _ _ Hwf _ Hb).
  - intros b1 b2 H1 H2. apply (wf_apart _ _ _ _ Hwf); by apply Hsub.
  - intros b Hb. apply (wf_size _ _ _ _ Hwf). by apply Hsub.
  - intros b Hb. apply (wf_in_pool _ _ _ _ Hwf). by apply Hsub.
  - intros Hdbg b Hb. unfold DODEBUG_store. rewrite Hdbg.
    apply elem_of_cons in Hb as [->|Hb]; [apply load_insert_eq|].
    rewrite load_insert_ne by (intros Heq; by apply (Hxused b Hb)).
    by apply (wf_header _ _ _ _ Hwf).
  - intros u Hu. apply (wf_apart _ _ _ _ Hwf); [done|by left|].
    intros <-. by apply (Hxused _ Hu).
Qed.

(** *** A block is carved at the cursor *)
Lemma wf_bump (c : Z) :
  0 < c -> freePtr s + c <= endFree s ->
  let x := freePtr s in
  wf pools cells ((x, c) :: used)
     (set_heap (DODEBUG_store x c (heap s)) (set_freePtr (x + c) s)) /\
  forall u, u ∈ used -> apart (x, c) u.
Proof.
  intros Hc Hfit x.
  pose proof (wf_cursor _ _ _ _ Hwf) as Hcur. pose proof (wf_end _ _ _ _ Hwf) as Hend.
  pose proof CHUNK_pos as HCH.
  assert (forall b, is_block cells used b -> apart (x, c) b) as Hapart.
  { intros b Hb. destruct (wf_block_apart_tail b Hb) as [H1|H1]; cbn in H1.
    - right. cbn. fold x in H1. lia.
    - left. cbn. fold x in H1. lia. }
  assert (forall b, is_block cells used b -> b.1 ≠ x) as Hstart.
  { intros b Hb Heq. pose proof (wf_size _ _ _ _ Hwf b Hb).
    destruct (Hapart b Hb) as [H1|H1]; cbn in H1; lia. }
  assert (x ∉ pools) as Hxpools.
  { intros Hin. destruct (decide (x = memPool s)) as [Heq|Hne].
    - unfold Pool_mem in *. fold x in Hcur. lia.
    - destruct (wf_pools_apart_elem x (memPool s) Hin (wf_current _ _ _ _ Hwf) Hne) as [H1|H1];
        unfold Pool_region, Pool_mem, Pool_end in *; cbn in H1; fold x in Hcur; lia. }
  assert (forall c', x ∉ cells c') as Hxcells.
  { intros c' Hin. by apply (Hstart (x, c')); [right|]. }
  assert (forall b, is_block cells ((x, c) :: used) b ->
                    b = (x, c) \/ is_block cells used b) as Hsub.
  { intros b [Hb|Hb]; [|by right; right].
    apply elem_of_cons in Hb as [->|Hb]; [by left|by right; left]. }
  split; [split; fields|].
  - apply linked_DODEBUG_store; [done|]. apply (wf_chain _ _ _ _ Hwf).
  - apply (wf_current _ _ _ _ Hwf).
  - apply (wf_pools _ _ _ _ Hwf).
  - apply (wf_pools_apart _ _ _ _ Hwf).
  - fold x in Hcur. lia.
  - done.
  - intros c' Hc'. apply linked_DODEBUG_store; [done|].
    by apply (wf_lists _ _ _ _ Hwf).
  - apply (wf_cells_nodup _ _ _ _ Hwf).
  - intros b Hb. apply elem_of_cons in Hb as [->|Hb]; [apply Hxcells|].
    by apply (wf_used_free _ _ _ _ Hwf).
  - intros b1 b2 H1 H2 Hne.
    destruct (Hsub b1 H1) as [->|H1'], (Hsub b2 H2) as [->|H2'].
    + done.
    + by apply Hapart.
    + destruct (Hapart b1 H1'); [by right|by left].
    + by apply (wf_apart _ _ _ _ Hwf).
  - intros b Hb. destruct (Hsub b Hb) as [->|Hb']; [done|].
    by apply (wf_size _ _ _ _ Hwf).
  - intros b Hb. destruct (Hsub b Hb) as [->|Hb'].
    + exists (memPool s). split; [apply (wf_current _ _ _ _ Hwf)|].
      unfold carved_end. fields. rewrite decide_True by done.
      cbn. fold x in Hcur. lia.
    + destruct (wf_in_pool _ _ _ _ Hwf b Hb') as (p & Hp & Hlo & Hhi).
      exists p. split; [done|]. split; [done|].
      unfold carved_end in *. fields. destruct (decide _); lia.
  - intros Hdbg b Hb. unfold DODEBUG_store. rewrite Hdbg.
    apply elem_of_cons in Hb as [->|Hb]; [apply load_insert_eq|].
    rewrite load_insert_ne by (intros Heq; by apply (Hstart b (wf_used_is_block b Hb))).
    by apply (wf_header _ _ _ _ Hwf).
  - intros u Hu. apply Hapart. by left.
Qed.

(** *** A new chunk is put in front of the chain *)
Lemma wf_new_chunk (c : Z) (lv : list Z) :
  0 < c <= CHUNK ->
  let x := Pool_mem (brk s) in
  wf (brk s :: pools) cells ((x, c) :: used)
     (State (DODEBUG_store x c (<[brk s := memPool s]> (heap s)))
            lv (Pool_end (brk s)) (brk s) (x + c) (Pool_end (brk s)) (freeMem s)) /\
  forall u, u ∈ used -> apart (x, c) u.
Proof.
  intros Hc x.
  pose proof CHUNK_pos as HCH.
  pose proof wf_memPool_pos as Hmp.
  assert (forall p, p ∈ pools -> 0 < p /\ p < Pool_end p <= brk s) as Hpools.
  { intros p Hp. destruct (wf_pools _ _ _ _ Hwf p Hp). unfold Pool_end in *. lia. }
  assert (0 < brk s) as Hbrk.
  { destruct (Hpools _ (wf_current _ _ _ _ Hwf)). lia. }
  assert (forall a, brk s <= a -> a ∉ pools) as Hfresh_pool.
  { intros a Ha Hin. destruct (Hpools a Hin). lia. }
  assert (forall b, is_block cells used b -> 0 < b.1 /\ b.1 < brk s /\ b.1 + b.2 <= brk s)
    as Hbelow.
  { intros b Hb. destruct (wf_block_bounds b Hb).
    pose proof (wf_size _ _ _ _ Hwf b Hb). lia. }
  assert (forall a c', brk s <= a -> a ∉ cells c') as Hfresh_cell.
  { intros a c' Ha Hin. destruct (Hbelow (a, c')) as (_ & ? & _); [by right|].
    cbn in *. lia. }
  assert (forall b, is_block cells used b -> apart (x, c) b) as Hapart.
  { intros b Hb. destruct (Hbelow b Hb) as (_ & _ & ?). right. cbn.
    unfold x, Pool_mem. lia. }
  assert (forall b, is_block cells ((x, c) :: used) b ->
                    b = (x, c) \/ is_block cells used b) as Hsub.
  { intros b [Hb|Hb]; [|by right; right].
    apply elem_of_cons in Hb as [->|Hb]; [by left|by right; left]. }
  assert (forall hd l, (forall a, brk s <= a -> a ∉ l) -> linked (heap s) hd l ->
            linked (DODEBUG_store x c (<[brk s := memPool s]> (heap s))) hd l) as Hframe.
  { intros hd l Hl Hlinked. apply linked_DODEBUG_store.
    - apply Hl. unfold x, Pool_mem. lia.
    - apply linked_insert; [apply Hl; lia | done]. }
  split; [split; fields|].
  - cbn [linked]. split; [done|]. split; [lia|].
    replace (load _ (brk s)) with (memPool s).
    + apply Hframe; [done|]. apply (wf_chain _ _ _ _ Hwf).
    + unfold DODEBUG_store, x, Pool_mem. destruct debug.
      * rewrite load_insert_ne by lia. by rewrite load_insert_eq.
      * by rewrite load_insert_eq.
  - by left.
  - intros p Hp. apply elem_of_cons in Hp as [->|Hp]; [unfold Pool_end; lia|].
    destruct (Hpools p Hp). unfold Pool_end in *. lia.
  - intros i j p q Hij Hi Hj. unfold apart, Pool_region. cbn.
    destruct i as [|i], j as [|j]; cbn in Hi, Hj; [done| | |].
    + injection Hi as <-. apply list_elem_of_lookup_2 in Hj.
      destruct (Hpools q Hj). unfold Pool_end in *. lia.
    + injection Hj as <-. apply list_elem_of_lookup_2 in Hi.
      destruct (Hpools p Hi). unfold Pool_end in *. lia.
    + apply (wf_pools_apart _ _ _ _ Hwf i j); [congruence|done..].
  - unfold x, Pool_mem, Pool_end. lia.
  - done.
  - intros c' Hc'. apply Hframe; [intros a Ha; by apply Hfresh_cell|].
    by apply (wf_lists _ _ _ _ Hwf).
  - apply (wf_cells_nodup _ _ _ _ Hwf).
  - intros b Hb. apply elem_of_cons in Hb as [->|Hb].
    + apply Hfresh_cell. cbn. unfold x, Pool_mem. lia.
    + by apply (wf_used_free _ _ _ _ Hwf).
  - intros b1 b2 H1 H2 Hne.
    destruct (Hsub b1 H1) as [->|H1'], (Hsub b2 H2) as [->|H2'].
    + done.
    + by apply Hapart.
    + destruct (Hapart b1 H1'); [by right|by left].
    + by apply (wf_apart _ _ _ _ Hwf).
  - intros b Hb. destruct (Hsub b Hb) as [->|Hb']; [cbn; lia|].
    by apply (wf_size _ _ _ _ Hwf).
  - intros b Hb. destruct (Hsub b Hb) as [->|Hb'].
    + exists (brk s). split; [by left|].
      unfold carved_end. fields. rewrite decide_True by done. cbn. lia.
    + destruct (wf_in_pool _ _ _ _ Hwf b Hb') as (p & Hp & Hlo & Hhi).
      exists p. split; [by right|]. split; [done|].
      pose proof (carved_end_le p). destruct (Hpools p Hp).
      unfold carved_end. fields. rewrite decide_False by lia. lia.
  - intros Hdbg b Hb. unfold DODEBUG_store. rewrite Hdbg.
    apply elem_of_cons in Hb as [->|Hb]; [apply load_insert_eq|].
    destruct (Hbelow b (wf_used_is_block b Hb)) as (? & ? & _).
    rewrite !load_insert_ne by (unfold x, Pool_mem; lia).
    by apply (wf_header _ _ _ _ Hwf).
  - intros u Hu. apply Hapart. by left.
Qed.

(** *** A block goes back to its free list *)
Lemma wf_push (d c : Z) :
  (d, c) ∈ used ->
  wf pools (upd cells c (d :: cells c)) (filter (fun u => u ≠ (d, c)) used)
     (set_heap (<[d := getNext (array_t.get (freeMem s) c)]> (heap s))
        (set_freeMem (array_t.set (freeMem s) c d) s)).
Proof.
  intros Hused.
  assert (is_block cells used (d, c)) as Hblk by (by left).
  pose proof (wf_size _ _ _ _ Hwf _ Hblk) as Hc. cbn in Hc.
  assert (d ∉ pools) as Hdpools.
  { apply (wf_block_not_pool (d, c) d Hblk). cbn. lia. }
  assert (forall c', d ∉ cells c') as Hdcells.
  { intros c' Hin.
    assert ((d, c') = (d, c)) as [= ->].
    { apply wf_block_start_unique; [by right|done|done]. }
    by apply (wf_used_free _ _ _ _ Hwf _ Hused). }
  assert (forall b, is_block (upd cells c (d :: cells c))
                      (filter (fun u => u ≠ (d, c)) used) b ->
                    is_block cells used b) as Hsub.
  { intros b [Hb|Hb].
    - apply list_elem_of_filter in Hb as [_ Hb]. by left.
    - apply elem_of_upd in Hb as [[Heq Hb]|[_ Hb]]; [|by right].
      apply elem_of_cons in Hb as [Hb|Hb].
      + destruct b as [b1 b2]. cbn in *. by subst.
      + right. by rewrite Heq. }
  split; fields.
  - apply linked_insert; [done|]. apply (wf_chain _ _ _ _ Hwf).
  - apply (wf_current _ _ _ _ Hwf).
  - apply (wf_pools _ _ _ _ Hwf).
  - apply (wf_pools_apart _ _ _ _ Hwf).
  - apply (wf_cursor _ _ _ _ Hwf).
  - apply (wf_end _ _ _ _ Hwf).
  - intros c' Hc'. rewrite get_set_class by lia. unfold upd.
    destruct (decide (c' = c)) as [->|Hne].
    + cbn [linked]. split; [done|]. split.
      { destruct (wf_block_bounds _ Hblk). cbn in *. lia. }
      rewrite load_insert_eq. unfold getNext at 1.
      apply linked_insert; [done|]. by apply (wf_lists _ _ _ _ Hwf).
    + apply linked_insert; [done|]. by apply (wf_lists _ _ _ _ Hwf).
  - intros c'. unfold upd. destruct (decide _) as [->|].
    + apply NoDup_cons. split; [done|]. apply (wf_cells_nodup _ _ _ _ Hwf).
    + apply (wf_cells_nodup _ _ _ _ Hwf).
  - intros b Hb Hin. apply list_elem_of_filter in Hb as [Hne Hb].
    apply elem_of_upd in Hin as [[Heq Hin]|[_ Hin]].
    + apply elem_of_cons in Hin as [Hin|Hin].
      * apply Hne. destruct b as [b1 b2]. cbn in *. by subst.
      * apply (wf_used_free _ _ _ _ Hwf _ Hb). by rewrite Heq.
    + by apply (wf_used_free _ _ _ _ Hwf _ Hb).
  - intros b1 b2 H1 H2. apply (wf_apart _ _ _ _ Hwf); by apply Hsub.
  - intros b Hb. apply (wf_size _ _ _ _ Hwf). by apply Hsub.
  - intros b Hb. apply (wf_in_pool _ _ _ _ Hwf). by apply Hsub.
  - intros Hdbg b Hb. apply list_elem_of_filter in Hb as [Hne Hb].
    rewrite load_insert_ne.
    + by apply (wf_header _ _ _ _ Hwf).
    + intros Heq. apply Hne. symmetry.
      apply wf_block_start_unique; [done|by left|done].
Qed.

(** *** The block at the cursor goes back by moving the cursor *)
Lemma wf_tail (d c : Z) :
  (d, c) ∈ used -> d + c = freePtr s ->
  wf pools cells (filter (fun u => u ≠ (d, c)) used) (set_freePtr d s).
Proof.
  intros Hused Htail.
  assert (is_block cells used (d, c)) as Hblk by (by left).
  pose proof (wf_size _ _ _ _ Hwf _ Hblk) as Hc. cbn in Hc.
  pose proof (wf_cursor _ _ _ _ Hwf) as Hcur. pose proof (wf_end _ _ _ _ Hwf) as Hend.
  pose proof CHUNK_pos as HCH.
  assert (Pool_mem (memPool s) <= d) as Hlo.
  { destruct (wf_in_pool _ _ _ _ Hwf _ Hblk) as (q & Hq & Hlo & Hhi). cbn in Hlo, Hhi.
    pose proof (carved_end_le q).
    destruct (decide (q = memPool s)) as [->|Hne]; [done|].
    destruct (wf_pools_apart_elem q (memPool s) Hq (wf_current _ _ _ _ Hwf) Hne) as [H1|H1];
      unfold Pool_region, Pool_mem, Pool_end in *; cbn in H1; lia. }
  assert (forall b, is_block cells (filter (fun u => u ≠ (d, c)) used) b ->
                    is_block cells used b /\ b ≠ (d, c)) as Hsub.
  { intros b [Hb|Hb].
    - apply list_elem_of_filter in Hb as [Hne Hb]. split; [by left|done].
    - split; [by right|]. intros ->.
      by apply (wf_used_free _ _ _ _ Hwf _ Hused). }
  split; fields.
  - apply (wf_chain _ _ _ _ Hwf).
  - apply (wf_current _ _ _ _ Hwf).
  - apply (wf_pools _ _ _ _ Hwf).
  - apply (wf_pools_apart _ _ _ _ Hwf).
  - lia.
  - done.
  - apply (wf_lists _ _ _ _ Hwf).
  - apply (wf_cells_nodup _ _ _ _ Hwf).
  - intros b Hb. apply list_elem_of_filter in Hb as [_ Hb].
    by apply (wf_used_free _ _ _ _ Hwf).
  - intros b1 b2 H1 H2. apply (wf_apart _ _ _ _ Hwf); by apply Hsub.
  - intros b Hb. apply (wf_size _ _ _ _ Hwf). by apply Hsub.
  - intros b Hb. destruct (Hsub b Hb) as [Hb' Hne].
    destruct (wf_in_pool _ _ _ _ Hwf b Hb') as (p & Hp & Hplo & Hphi).
    exists p. split; [done|]. split; [done|].
    unfold carved_end in *. fields. destruct (decide _); [|done].
    pose proof (wf_size _ _ _ _ Hwf b Hb').
    destruct (wf_apart _ _ _ _ Hwf b (d, c) Hb' Hblk Hne) as [H1|H1]; cbn in H1; lia.
  - intros Hdbg b Hb. apply list_elem_of_filter in Hb as [_ Hb].
    by apply (wf_header _ _ _ _ Hwf).
Qed.

(** *** [reset] *)
Lemma wf_reset :
  wf [memPool s] (fun _ => []) []
     (State (<[memPool s := 0]> (heap s)) (live s) (brk s) (memPool s)
            (Pool_mem (memPool s)) (Pool_end (memPool s)) (array_t.reset (freeMem s))).
Proof.
  pose proof wf_memPool_pos as Hmp. pose proof CHUNK_pos as HCH.
  assert (forall b, is_block (fun _ => []) [] b -> False) as Hnone.
  { intros b [Hb|Hb]; by apply elem_of_nil in Hb. }
  split; fields.
  - cbn [linked]. split; [done|]. split; [lia|]. by rewrite load_insert_eq.
  - by left.
  - intros p ->%list_elem_of_singleton.
    apply (wf_pools _ _ _ _ Hwf). apply (wf_current _ _ _ _ Hwf).
  - intros [|i] [|j] p q Hij Hi Hj; cbn in Hi, Hj; done.
  - unfold Pool_mem, Pool_end. lia.
  - done.
  - intros c Hc. cbn [linked]. apply array_t_facts.get_reset.
  - intros c. constructor.
  - intros b Hb. by apply elem_of_nil in Hb.
  - intros b1 b2 H1. by destruct (Hnone b1).
  - intros b Hb. by destruct (Hnone b).
  - intros b Hb. by destruct (Hnone b).
  - intros _ b Hb. by apply elem_of_nil in Hb.
Qed.

(** Only the set of blocks handed out matters. *)
Lemma wf_used_equiv (used' : list block) :
  (forall b, b ∈ used' <-> b ∈ used) -> wf pools cells used' s.
Proof.
  intros Heq.
  assert (forall b, is_block cells used' b -> is_block cells used b) as Hsub.
  { intros b [Hb|Hb]; [left; by apply Heq | by right]. }
  destruct Hwf. split; try done.
  - intros b Hb. apply wf_used_free0. by apply Heq.
  - intros b1 b2 H1 H2. apply wf_apart0; by apply Hsub.
  - intros b Hb. apply wf_size0. by apply Hsub.
  - intros b Hb. apply wf_in_pool0. by apply Hsub.
  - intros Hdbg b Hb. apply wf_header0; [done|]. by apply Heq.
Qed.

End wf_facts.

(** *** The constructor *)
Lemma wf_ctor (h : gmap Z Z) (lv : list Z) (b : Z) :
  0 < b -> wf [b] (fun _ => []) [] (DataAllocator_ctor h lv b).
Proof.
  intros Hb. pose proof CHUNK_pos as HCH.
  assert (forall b, is_block (fun _ => []) [] b -> False) as Hnone.
  { intros b' [Hb'|Hb']; by apply elem_of_nil in Hb'. }
  unfold DataAllocator_ctor. split; fields.
  - cbn [linked]. split; [done|]. split; [lia|]. by rewrite load_insert_eq.
  - by left.
  - intros p ->%list_elem_of_singleton. lia.
  - intros [|i] [|j] p q Hij Hi Hj; cbn in Hi, Hj; done.
  - unfold Pool_mem, Pool_end. lia.
  - done.
  - intros c Hc. cbn [linked]. apply array_t_facts.get_make.
  - intros c. constructor.
  - intros b' Hb'. by apply elem_of_nil in Hb'.
  - intros b1 b2 H1. by destruct (Hnone b1).
  - intros b' Hb'. by destruct (Hnone b').
  - intros b' Hb'. by destruct (Hnone b').
  - intros _ b' Hb'. by apply elem_of_nil in Hb'.
Qed.

(** *** Sizes in words *)
Lemma arch_size_leftover (m : Z) : 0 < m < 2 ^ 32 -> 0 < arch_size m <= m.
Proof.
  intros Hm. unfold arch_size, size_t, size_bits. destruct uintptr; [lia|].
  rewrite Z.mod_small by lia.
  split; [apply Z.div_str_pos; lia|].
  apply Z.div_le_upper_bound; lia.
Qed.

Lemma block_words_valid (n : Z) :
  0 < n <= CHUNK -> CHUNK + 1 < 2 ^ 32 ->
  block_words n = arch_size n + DEBUG_OFFSET /\ 0 < arch_size n.
Proof.
  intros Hn HCH. pose proof DEBUG_OFFSET_range as Hd.
  destruct (arch_size_leftover n ltac:(lia)) as [Hlo Hhi].
  split; [|done]. unfold block_words, size_t, size_bits.
  apply Z.mod_small. destruct uintptr; lia.
Qed.

(** ** Handing out a block *)

(** On a well-formed allocator a valid request whose block fits a chunk
    gets a block that shares no word with the blocks handed out, and the
    allocator stays well formed with that block added; the chain grows by
    one chunk at most and the free list of the request's class does not
    grow. *)
Theorem allocate_fresh_block (pools : list Z) (cells : Z -> list Z)
    (used : list block) (n : Z) (s : state) :
  wf pools cells used s ->
  0 < n <= CHUNK -> block_words n <= CHUNK -> CHUNK + 1 < 2 ^ 32 ->
  exists p s' pools' cells',
    allocate n s = Ok (p, s') /\
    let b := (p - DEBUG_OFFSET, block_words n) in
    (forall u, u ∈ used -> apart b u) /\
    wf pools' cells' (b :: used) s' /\
    (length pools' <= S (length pools))%nat /\
    (length (cells' (block_words n)) <= length (cells (block_words n)))%nat.
Proof.
  intros Hwf Hn Hfits HCH.
  destruct (block_words_valid n Hn HCH) as [Hc Ha].
  pose proof DEBUG_OFFSET_range as Hd.
  assert (0 < block_words n) as Hcpos by lia.
  rewrite allocate_nonzero by done. cbv zeta.
  set (c := block_words n) in *.
  destruct (decide (array_t.get (freeMem s) c = 0)) as [Hempty|Hhead].
  2:{ (* from the free list *)
    rewrite (proj2 (Z.eqb_neq _ 0) Hhead). cbn [negb].
    destruct (wf_pop pools cells used s Hwf c ltac:(lia) Hhead)
      as (rest & Hcells & Hwf' & Hapart).
    eexists _, _, pools, _. split; [done|]. cbn [fst snd].
    rewrite Z.add_simpl_r. split; [exact Hapart|]. split; [exact Hwf'|].
    split; [lia|]. unfold upd. rewrite decide_True by done.
    rewrite Hcells. cbn [length]. lia. }
  rewrite Hempty. cbn [Z.eqb negb].
  destruct (freePtr s + c <=? endFree s) eqn:Efit.
  { (* at the cursor *)
    apply Z.leb_le in Efit.
    destruct (wf_bump pools cells used s Hwf c Hcpos Efit) as (Hwf' & Hapart).
    eexists _, _, pools, cells. split; [done|]. cbn [fst snd].
    rewrite Z.add_simpl_r. split; [exact Hapart|]. split; [exact Hwf'|]. lia. }
  (* in a new chunk *)
  apply Z.leb_gt in Efit.
  pose proof (wf_cursor _ _ _ _ Hwf) as Hcur. pose proof (wf_end _ _ _ _ Hwf) as Hend.
  set (m := endFree s - freePtr s) in *.
  assert (0 <= m <= CHUNK) as Hm by (unfold m, Pool_mem, Pool_end in *; lia).
  assert (uint32_t m = m) as Htrunc by (apply Z.mod_small; lia).
  rewrite !Htrunc.
  destruct (decide (m = 0)) as [Hm0|Hm0].
  { rewrite Hm0. cbn [Z.eqb]. fields.
    destruct (wf_new_chunk pools cells used s Hwf c (brk s :: live s) ltac:(lia))
      as (Hwf' & Hapart).
    eexists _, _, _, cells. split; [done|]. cbn [fst snd].
    rewrite Z.add_simpl_r. split; [exact Hapart|]. split; [exact Hwf'|].
    cbn [length]. lia. }
  rewrite (proj2 (Z.eqb_neq _ 0) Hm0). fields.
  (* the tail goes to a free list first: carve it, then give it back *)
  destruct (arch_size_leftover m ltac:(lia)) as [Halo Hahi].
  set (a := arch_size m) in *. set (x := freePtr s) in *.
  destruct (wf_bump pools cells used s Hwf a Halo ltac:(unfold m in *; lia))
    as (HwfA & HapartA). fold x in HwfA, HapartA.
  pose proof (wf_push pools cells _ _ HwfA x a ltac:(by left)) as HwfB. fields.
  assert (wf pools (upd cells a (x :: cells a)) used
            (set_heap (<[x := getNext (array_t.get (freeMem s) a)]> (heap s))
               (set_freeMem (array_t.set (freeMem s) a x)
                  (set_freePtr (x + a) s)))) as HwfC.
  { replace (<[x := getNext (array_t.get (freeMem s) a)]> (heap s))
      with (<[x := getNext (array_t.get (freeMem s) a)]> (DODEBUG_store x a (heap s))).
    2:{ unfold DODEBUG_store. destruct debug; [|done]. by rewrite insert_insert_eq. }
    eapply wf_used_equiv; [exact HwfB|].
    intros u. rewrite list_elem_of_filter, elem_of_cons. split.
    - intros Hu. split; [|by right]. intros ->.
      destruct (HapartA _ Hu) as [H1|H1]; cbn in H1; lia.
    - intros [Hne [->|Hu]]; done. }
  destruct (wf_new_chunk _ _ _ _ HwfC c (brk s :: live s) ltac:(lia)) as (Hwf' & Hapart).
  fields.
  eexists _, _, _, _. split; [done|]. cbn [fst snd].
  rewrite Z.add_simpl_r. split; [exact Hapart|]. split; [exact Hwf'|].
  cbn [length]. split; [lia|]. unfold upd. rewrite decide_False by lia. lia.
Qed.

(** ** Giving a block back *)

Lemma in_full_pools_found (fuel : nat) (h : gmap Z Z) (hd d q : Z) (ps : list Z) :
  linked h hd ps -> q ∈ ps -> Pool_mem q <= d < Pool_end q ->
  (length ps <= fuel)%nat ->
  in_full_pools fuel h hd d = Some true.
Proof.
  revert fuel hd. induction ps as [|x rest IH]; intros fuel hd Hl Hq Hd Hfuel.
  { by apply elem_of_nil in Hq. }
  destruct Hl as (-> & Hx & Hrest).
  destruct fuel as [|fuel]; [cbn in Hfuel; lia|]. cbn [in_full_pools].
  rewrite (proj2 (Z.eqb_neq _ _) Hx).
  destruct (_ && _) eqn:E; [done|].
  apply elem_of_cons in Hq as [->|Hq].
  - apply andb_false_iff in E as [E|E]; [apply Z.leb_gt in E | apply Z.ltb_ge in E]; lia.
  - apply IH; [done..|]. cbn in Hfuel. lia.
Qed.

Lemma in_full_pools_not_found (fuel : nat) (h : gmap Z Z) (hd d : Z) (ps : list Z) :
  linked h hd ps -> (forall q, q ∈ ps -> ~ (Pool_mem q <= d < Pool_end q)) ->
  (length ps <= fuel)%nat ->
  in_full_pools fuel h hd d = Some false.
Proof.
  revert fuel hd. induction ps as [|x rest IH]; intros fuel hd Hl Hq Hfuel.
  { cbn in Hl. subst hd. by destruct fuel. }
  destruct Hl as (-> & Hx & Hrest).
  destruct fuel as [|fuel]; [cbn in Hfuel; lia|]. cbn [in_full_pools].
  rewrite (proj2 (Z.eqb_neq _ _) Hx).
  destruct (_ && _) eqn:E.
  - apply andb_true_iff in E as [E1 E2]. apply Z.leb_le in E1. apply Z.ltb_lt in E2.
    destruct (Hq x); [by left | lia].
  - apply IH; [done| |cbn in Hfuel; lia].
    intros q Hin. apply Hq. by right.
Qed.

Lemma on_free_list_absent (fuel : nat) (h : gmap Z Z) (hd d : Z) (l : list Z) :
  linked h hd l -> d ∉ l -> (length l <= fuel)%nat ->
  on_free_list fuel h hd d = Some false.
Proof.
  revert fuel hd. induction l as [|x rest IH]; intros fuel hd Hl Hd Hfuel.
  { cbn in Hl. subst hd. by destruct fuel. }
  destruct Hl as (-> & Hx & Hrest).
  destruct fuel as [|fuel]; [cbn in Hfuel; lia|]. cbn [on_free_list].
  rewrite (proj2 (Z.eqb_neq _ _) Hx).
  rewrite (proj2 (Z.eqb_neq d x)) by (intros ->; apply Hd; by left).
  apply IH; [done| |cbn in Hfuel; lia].
  intros Hin. apply Hd. by right.
Qed.

(** The first half of [hasInPools]: the block lies in a chunk. *)
Lemma block_in_pools (pools : list Z) (cells : Z -> list Z) (used : list block)
    (s : state) (fuel : nat) (b : block) :
  wf pools cells used s -> is_block cells used b ->
  (length pools <= fuel)%nat ->
  (if (Pool_mem (memPool s) <=? b.1) && (b.1 <? freePtr s) then Ok true
   else lift_fuel (in_full_pools fuel (heap s) (Pool_next (heap s) (memPool s)) b.1))
  = Ok true.
Proof.
  intros Hwf Hb Hfuel.
  destruct (_ && _) eqn:E; [done|].
  destruct (wf_in_pool _ _ _ _ Hwf b Hb) as (q & Hq & Hlo & Hhi).
  pose proof (wf_size _ _ _ _ Hwf b Hb) as Hsz.
  pose proof (carved_end_le pools cells used s Hwf q) as Hce.
  pose proof (wf_chain _ _ _ _ Hwf) as Hchain.
  destruct (linked_head_nonzero _ _ _ Hchain) as (rest & Hpools & Hrest).
  { pose proof (wf_memPool_pos pools cells used s Hwf). lia. }
  assert (q ≠ memPool s) as Hne.
  { intros ->. unfold carved_end in Hhi. rewrite decide_True in Hhi by done.
    apply andb_false_iff in E as [E|E]; [apply Z.leb_gt in E | apply Z.ltb_ge in E]; lia. }
  rewrite Hpools in Hq, Hfuel. apply elem_of_cons in Hq as [Hq|Hq]; [done|].
  unfold Pool_next. unfold getNext in Hrest.
  rewrite (in_full_pools_found fuel (heap s) _ b.1 q rest Hrest Hq); [done|lia|].
  cbn in Hfuel. lia.
Qed.

Lemma hasInPools_used (pools : list Z) (cells : Z -> list Z) (used : list block)
    (s : state) (fuel : nat) (d c : Z) :
  wf pools cells used s -> (d, c) ∈ used ->
  (length pools <= fuel)%nat -> (length (cells c) <= fuel)%nat ->
  hasInPools fuel d c s = Ok true.
Proof.
  intros Hwf Hused Hfuel1 Hfuel2. unfold hasInPools.
  pose proof (wf_memPool_pos pools cells used s Hwf) as Hmp.
  replace (assert _ _) with (@Ok unit tt).
  2:{ unfold assert. rewrite (proj2 (Z.eqb_neq _ 0)) by lia. by destruct debug. }
  cbn [obind].
  pose proof (block_in_pools pools cells used s fuel (d, c) Hwf
                (wf_used_is_block _ _ _ Hused) Hfuel1) as Hin.
  cbn [fst] in Hin. rewrite Hin. cbn [obind negb].
  pose proof (wf_size _ _ _ _ Hwf _ (wf_used_is_block cells _ _ Hused)) as Hc. cbn in Hc.
  rewrite (on_free_list_absent fuel (heap s) _ d (cells c)); [done| | |done].
  - apply (wf_lists _ _ _ _ Hwf). lia.
  - apply (wf_used_free _ _ _ _ Hwf _ Hused).
Qed.

(** Giving back a block that is handed out: every assertion of the debug
    build passes (its loops get enough fuel) and the block goes back by
    moving the cursor or to the head of its free list. *)
Lemma deallocate_used_cases (pools : list Z) (cells : Z -> list Z)
    (used : list block) (fuel : nat) (ptr n : Z) (s : state) :
  wf pools cells used s -> n ≠ 0 ->
  let d := ptr - DEBUG_OFFSET in
  let c := block_words n in
  let used' := filter (fun u => u ≠ (d, c)) used in
  (d, c) ∈ used ->
  (length pools <= fuel)%nat -> (length (cells c) < fuel)%nat ->
  exists s', deallocate fuel ptr n s = Ok s' /\
    ((d + c = freePtr s /\ s' = set_freePtr d s /\ wf pools cells used' s') \/
     (d + c ≠ freePtr s /\
      s' = set_heap (<[d := getNext (array_t.get (freeMem s) c)]> (heap s))
             (set_freeMem (array_t.set (freeMem s) c d) s) /\
      wf pools (upd cells c (d :: cells c)) used' s')).
Proof.
  intros Hwf Hn d c used' Hused Hfuel1 Hfuel2. subst used'.
  assert (is_block cells used (d, c)) as Hblk by (by left).
  pose proof (wf_size _ _ _ _ Hwf _ Hblk) as Hc. cbn in Hc.
  unfold deallocate. rewrite (proj2 (Z.eqb_neq n 0) Hn).
  fold (block_words n). fold c d. cbv zeta.
  replace (assert _ AssertRecordedSize) with (@Ok unit tt).
  2:{ unfold assert. destruct debug eqn:Hdbg; [|done].
      pose proof (wf_header _ _ _ _ Hwf Hdbg _ Hused) as Hhdr. cbn in Hhdr.
      rewrite Hhdr. by rewrite Z.eqb_refl. }
  cbn [obind].
  replace (assert_hasInPools fuel true _ d c s) with (@Ok unit tt).
  2:{ unfold assert_hasInPools. destruct debug; [|done].
      rewrite (hasInPools_used pools cells used s fuel d c Hwf Hused); [done|lia|lia]. }
  cbn [obind]. unfold array_t.replace.
  destruct (d + c =? freePtr s) eqn:Etail.
  - (* at the cursor *)
    apply Z.eqb_eq in Etail.
    pose proof (wf_tail pools cells used s Hwf d c Hused Etail) as Hwf'.
    exists (set_freePtr d s). split; [|by left].
    replace (assert_hasInPools _ _ _ _ _ _) with (@Ok unit tt); [done|].
    unfold assert_hasInPools. destruct debug; [|done].
    unfold hasInPools. fields.
    pose proof (wf_memPool_pos pools cells used s Hwf) as Hmp.
    replace (assert _ _) with (@Ok unit tt).
    2:{ unfold assert. rewrite (proj2 (Z.eqb_neq _ 0)) by lia. by destruct debug. }
    cbn [obind]. rewrite Z.ltb_irrefl, andb_false_r.
    pose proof (wf_chain _ _ _ _ Hwf) as Hchain.
    destruct (linked_head_nonzero _ _ _ Hchain) as (rest & Hpools & Hrest); [lia|].
    pose proof (wf_cursor _ _ _ _ Hwf') as Hcur. fields.
    pose proof (wf_cursor _ _ _ _ Hwf) as Hcur0. pose proof (wf_end _ _ _ _ Hwf) as Hend.
    unfold Pool_next. unfold getNext in Hrest.
    rewrite (in_full_pools_not_found fuel (heap s) _ d rest Hrest); [done| |].
    + intros q Hq Hin.
      assert (q ∈ pools) as Hq' by (rewrite Hpools; by right).
      assert (q ≠ memPool s) as Hne.
      { intros ->. apply list_elem_of_lookup in Hq as [j Hj].
        destruct (wf_pools_apart _ _ _ _ Hwf 0%nat (S j) (memPool s) (memPool s)) as [H1|H1];
          [done|by rewrite Hpools|by rewrite Hpools|..];
          unfold Pool_region in H1; cbn in H1; pose proof CHUNK_pos; lia. }
      destruct (wf_pools_apart_elem pools cells used s Hwf q (memPool s) Hq'
                  (wf_current _ _ _ _ Hwf) Hne) as [H1|H1];
        unfold Pool_region, Pool_mem, Pool_end in *; cbn in H1; lia.
    + rewrite Hpools in Hfuel1. cbn in Hfuel1. lia.
  - (* to the free list *)
    apply Z.eqb_neq in Etail.
    pose proof (wf_push pools cells used s Hwf d c Hused) as Hwf'.
    eexists. split; [|right; split; [done|]; split; [reflexivity|exact Hwf']].
    replace (assert_hasInPools _ _ _ _ _ _) with (@Ok unit tt); [done|].
    unfold assert_hasInPools. destruct debug; [|done].
    unfold hasInPools.
    pose proof (wf_memPool_pos pools cells used s Hwf) as Hmp.
    replace (assert _ _) with (@Ok unit tt).
    2:{ unfold assert. fields. rewrite (proj2 (Z.eqb_neq _ 0)) by lia. by destruct debug. }
    cbn [obind].
    assert (is_block (upd cells c (d :: cells c))
              (filter (fun u => u ≠ (d, c)) used) (d, c)) as Hfree.
    { right. cbn. unfold upd. rewrite decide_True by done. by left. }
    pose proof (block_in_pools pools _ _ _ fuel (d, c) Hwf' Hfree Hfuel1) as Hin.
    cbn [fst] in Hin. rewrite Hin.
    cbn [obind negb]. fields. rewrite array_t_facts.get_set_eq.
    destruct fuel as [|fuel]; [lia|]. cbn [on_free_list].
    destruct (wf_block_bounds pools cells used s Hwf _ Hblk) as [Hd _]. cbn in Hd.
    rewrite (proj2 (Z.eqb_neq d 0)) by lia. by rewrite Z.eqb_refl.
Qed.

(** Giving back a block that is handed out succeeds, the block leaves the
    blocks handed out, and the allocator stays well formed. *)
Theorem deallocate_used_block (pools : list Z) (cells : Z -> list Z)
    (used : list block) (fuel : nat) (ptr n : Z) (s : state) :
  wf pools cells used s -> n ≠ 0 ->
  let b := (ptr - DEBUG_OFFSET, block_words n) in
  b ∈ used ->
  (length pools <= fuel)%nat -> (length (cells b.2) < fuel)%nat ->
  exists s' cells',
    deallocate fuel ptr n s = Ok s' /\
    wf pools cells' (filter (fun u => u ≠ b) used) s'.
Proof.
  intros Hwf Hn b Hused Hfuel1 Hfuel2.
  destruct (deallocate_used_cases pools cells used fuel ptr n s Hwf Hn Hused Hfuel1 Hfuel2)
    as (s' & Hfree & [(_ & _ & Hwf')|(_ & _ & Hwf')]); eauto.
Qed.

(** The room of a block: with [k] items to a word, the [arch_size n]
    words of the payload hold [n] items and waste less than a word. *)
Lemma payload_room (n : Z) :
  0 < n <= CHUNK -> CHUNK + 1 < 2 ^ 32 ->
  block_words n - DEBUG_OFFSET = arch_size n /\
  n <= match uintptr with Arch32 => 1 | Arch64 => 2 end * arch_size n
    < n + match uintptr with Arch32 => 1 | Arch64 => 2 end.
Proof.
  intros Hn Hc. destruct (block_words_valid n Hn Hc) as [-> _].
  split; [lia|].
  destruct uintptr eqn:E.
  - rewrite (arch_size_32 n E). lia.
  - rewrite (arch_size_64 n E) by lia.
    pose proof (Z.div_mod (n + 1) 2 ltac:(lia)).
    pose proof (Z.mod_pos_bound (n + 1) 2 ltac:(lia)). lia.
Qed.

Lemma on_free_list_present (fuel : nat) (h : gmap Z Z) (hd d : Z) (l : list Z) :
  linked h hd l -> d ∈ l -> (length l <= fuel)%nat ->
  on_free_list fuel h hd d = Some true.
Proof.
  revert fuel hd. induction l as [|x rest IH]; intros fuel hd Hl Hd Hfuel.
  { by apply elem_of_nil in Hd. }
  destruct Hl as (-> & Hx & Hrest).
  destruct fuel as [|fuel]; [cbn in Hfuel; lia|]. cbn [on_free_list].
  rewrite (proj2 (Z.eqb_neq _ _) Hx).
  destruct (Z.eqb_spec d x) as [|Hne]; [done|].
  apply elem_of_cons in Hd as [Hd|Hd]; [done|].
  apply IH; [done..|]. cbn in Hfuel. lia.
Qed.

(** [hasInPools] on a block of a free list: it is in the pools, and
    listed. *)
Lemma hasInPools_free (pools : list Z) (cells : Z -> list Z) (used : list block)
    (s : state) (fuel : nat) (d c : Z) :
  wf pools cells used s -> 0 <= c -> d ∈ cells c ->
  (length pools <= fuel)%nat -> (length (cells c) <= fuel)%nat ->
  hasInPools fuel d c s = Ok false.
Proof.
  intros Hwf Hc Hd Hfuel1 Hfuel2. unfold hasInPools.
  pose proof (wf_memPool_pos pools cells used s Hwf) as Hmp.
  replace (assert _ _) with (@Ok unit tt).
  2:{ unfold assert. rewrite (proj2 (Z.eqb_neq _ 0)) by lia. by destruct debug. }
  cbn [obind].
  pose proof (block_in_pools pools cells used s fuel (d, c) Hwf
                (wf_free_is_block cells used d c Hd) Hfuel1) as Hin.
  cbn [fst] in Hin. rewrite Hin. cbn [obind negb].
  by rewrite (on_free_list_present fuel (heap s) _ d (cells c)
                (wf_lists _ _ _ _ Hwf c Hc) Hd Hfuel2).
Qed.

(** [hasInPools] on the address at which the cursor stands: it is in the
    carved part of no chunk. *)
Lemma hasInPools_cursor (pools : list Z) (cells : Z -> list Z) (used : list block)
    (s : state) (fuel : nat) (c : Z) :
  wf pools cells used s -> freePtr s < endFree s ->
  (length pools <= fuel)%nat ->
  hasInPools fuel (freePtr s) c s = Ok false.
Proof.
  intros Hwf Hlt Hfuel1. unfold hasInPools.
  pose proof (wf_memPool_pos pools cells used s Hwf) as Hmp.
  replace (assert _ _) with (@Ok unit tt).
  2:{ unfold assert. rewrite (proj2 (Z.eqb_neq _ 0)) by lia. by destruct debug. }
  cbn [obind]. rewrite Z.ltb_irrefl, andb_false_r.
  pose proof (wf_chain _ _ _ _ Hwf) as Hchain.
  destruct (linked_head_nonzero _ _ _ Hchain) as (rest & Hpools & Hrest); [lia|].
  pose proof (wf_cursor _ _ _ _ Hwf) as Hcur. pose proof (wf_end _ _ _ _ Hwf) as Hend.
  unfold Pool_next. unfold getNext in Hrest.
  rewrite (in_full_pools_not_found fuel (heap s) _ (freePtr s) rest Hrest); [done| |].
  - intros q Hq Hin.
    assert (q ∈ pools) as Hq' by (rewrite Hpools; by right).
    assert (q ≠ memPool s) as Hne.
    { intros ->. apply list_elem_of_lookup in Hq as [j Hj].
      destruct (wf_pools_apart _ _ _ _ Hwf 0%nat (S j) (memPool s) (memPool s)) as [H1|H1];
        [done|by rewrite Hpools|by rewrite Hpools|..];
        unfold Pool_region in H1; cbn in H1; pose proof CHUNK_pos; lia. }
    destruct (wf_pools_apart_elem pools cells used s Hwf q (memPool s) Hq'
                (wf_current _ _ _ _ Hwf) Hne) as [H1|H1];
      unfold Pool_region, Pool_mem, Pool_end in *; cbn in H1; lia.
  - rewrite Hpools in Hfuel1. cbn in Hfuel1. lia.
Qed.

(** A valid request on a well-formed allocator and the block it gets
    given back at once: the block is handed out, inside the carved part
    of one chunk of the chain and apart from the blocks handed out
    before; after [deallocate] it is free again, at the cursor or at the
    head of the free list of its class. *)
Lemma allocate_then_release (pools : list Z) (cells : Z -> list Z)
    (used : list block) (fuel : nat) (n : Z) (s : state) :
  wf pools cells used s ->
  0 < n <= CHUNK -> block_words n <= CHUNK -> CHUNK + 1 < 2 ^ 32 ->
  (length pools < fuel)%nat -> (length (cells (block_words n)) < fuel)%nat ->
  exists p s1 pools1 cells1,
    allocate n s = Ok (p, s1) /\
    let b := (p - DEBUG_OFFSET, block_words n) in
    0 < b.1 /\
    wf pools1 cells1 (b :: used) s1 /\
    (exists pool, pool ∈ pools1 /\ Pool_mem pool <= b.1 /\
                  b.1 + b.2 <= carved_end s1 pool) /\
    (forall u, u ∈ used -> apart b u) /\
    hasInPools fuel b.1 b.2 s1 = Ok true /\
    exists s2 cells2,
      deallocate fuel p n s1 = Ok s2 /\
      wf pools1 cells2 used s2 /\
      (freePtr s2 = b.1 \/ array_t.get (freeMem s2) b.2 = b.1) /\
      hasInPools fuel b.1 b.2 s2 = Ok false.
Proof.
  intros Hwf Hn Hfits HCH Hfuel1 Hfuel2.
  destruct (allocate_fresh_block pools cells used n s Hwf Hn Hfits HCH)
    as (p & s1 & pools1 & cells1 & Halloc & Hfresh & Hwf1 & Hlen1 & Hlen2).
  cbv zeta in Hfresh, Hwf1.
  exists p, s1, pools1, cells1. split; [done|]. cbv zeta.
  set (c := block_words n) in *. set (d := p - DEBUG_OFFSET) in *.
  assert ((d, c) ∈ (d, c) :: used) as Hheld by (by left).
  assert (is_block cells1 ((d, c) :: used) (d, c)) as Hblk by (by left).
  pose proof (wf_size _ _ _ _ Hwf1 _ Hblk) as Hsz. cbn [fst snd] in *.
  destruct (wf_block_bounds _ _ _ _ Hwf1 _ Hblk) as [Hpos _]. cbn [fst] in Hpos.
  split; [done|]. split; [done|].
  split; [exact (wf_in_pool _ _ _ _ Hwf1 _ Hblk)|]. split; [done|].
  assert (length pools1 <= fuel)%nat as Hf1 by lia.
  assert (length (cells1 c) < fuel)%nat as Hf2 by lia.
  split.
  { apply (hasInPools_used pools1 cells1 _ s1 fuel d c Hwf1 Hheld); lia. }
  assert (n ≠ 0) as Hnz by lia.
  destruct (deallocate_used_cases pools1 cells1 _ fuel p n s1 Hwf1 Hnz Hheld Hf1 Hf2)
    as (s2 & Hfree & Hcases).
  fold d c in Hcases.
  assert (forall u, u ∈ filter (fun u => u ≠ (d, c)) ((d, c) :: used) <-> u ∈ used)
    as Hused.
  { intros u. rewrite list_elem_of_filter, elem_of_cons. split.
    - intros [Hne [->|Hu]]; done.
    - intros Hu. split; [|by right]. intros ->.
      destruct (Hfresh _ Hu) as [H1|H1]; cbn in H1; lia. }
  destruct Hcases as [(Htail & Hs2 & Hwf2) | (Htail & Hs2 & Hwf2)].
  - (* the cursor moves back *)
    exists s2, cells1. split; [done|].
    assert (wf pools1 cells1 used s2) as Hwf2'.
    { eapply wf_used_equiv; [exact Hwf2|]. intros u. symmetry. apply Hused. }
    split; [done|]. split; [left; by subst s2|].
    assert (freePtr s2 = d) as Hfp by (by subst s2).
    pose proof (wf_cursor _ _ _ _ Hwf1) as Hcur1.
    assert (endFree s2 = endFree s1) as Hef by (by subst s2).
    rewrite <- Hfp.
    apply (hasInPools_cursor pools1 cells1 used s2 fuel c Hwf2'); lia.
  - (* to the head of the free list *)
    exists s2, (upd cells1 c (d :: cells1 c)). split; [done|].
    assert (wf pools1 (upd cells1 c (d :: cells1 c)) used s2) as Hwf2'.
    { eapply wf_used_equiv; [exact Hwf2|]. intros u. symmetry. apply Hused. }
    split; [done|].
    split; [right; subst s2; fields; apply array_t_facts.get_set_eq|].
    apply (hasInPools_free pools1 _ used s2 fuel d c Hwf2'); [lia| |lia|].
    + unfold upd. rewrite decide_True by done. by left.
    + unfold upd. rewrite decide_True by done. cbn [length]. lia.
Qed.

(** The check of the recorded size also holds for every block the
    program still holds, however long ago it was handed out. *)
Lemma recorded_size_check_held (pools : list Z) (cells : Z -> list Z)
    (used : list block) (fuel : nat) (n w ptr : Z) (s : state) :
  wf pools cells used s -> debug = true ->
  0 < n <= CHUNK -> CHUNK + 1 < 2 ^ 32 -> 0 <= w < 2 ^ size_bits ->
  (ptr - DEBUG_OFFSET, block_words n) ∈ used ->
  deallocate fuel ptr w s = Abort AssertRecordedSize <->
  w ≠ 0 /\ arch_size w ≠ arch_size n.
Proof.
  intros Hwf Hdbg Hn Hc Hw Hused.
  apply recorded_size_check; [done..|].
  apply (wf_header _ _ _ _ Hwf Hdbg _ Hused).
Qed.

(** C7: for a nonzero size [n], occupying [c = block_words n] words,
    [deallocate(ptr, n)] of a block that ends exactly at the cursor moves
    the cursor back to the start of the block and touches neither the
    free-list table nor the memory; of any other block, it makes the block
    the head of free-list class [c], linked to the previous head, and
    leaves the cursor and the other classes alone.  The release build
    always gets there; the debug build gets there for every block that
    was handed out and not given back (its loops need fuel for the chunk
    chain and for the free list of class [c]). *)
Theorem deallocate_tail_or_free_list (fuel : nat) (ptr n : Z) (s : state) :
  n ≠ 0 ->
  let data := ptr - DEBUG_OFFSET in
  let c := block_words n in
  (debug = false -> exists s', deallocate fuel ptr n s = Ok s') /\
  (forall pools cells used,
     wf pools cells used s -> (data, c) ∈ used ->
     (length pools <= fuel)%nat -> (length (cells c) < fuel)%nat ->
     exists s', deallocate fuel ptr n s = Ok s') /\
  forall s', deallocate fuel ptr n s = Ok s' ->
    (data + c = freePtr s ->
       freePtr s' = data /\ freeMem s' = freeMem s /\ heap s' = heap s) /\
    (data + c ≠ freePtr s ->
       freePtr s' = freePtr s /\
       array_t.get (freeMem s') c = data /\
       getNext (load (heap s') data) = array_t.get (freeMem s) c /\
       forall j, Z.to_nat j ≠ Z.to_nat c ->
         array_t.get (freeMem s') j = array_t.get (freeMem s) j).
Proof.
  intros Hn data c. split; [apply deallocate_release_total|]. split.
  { intros pools cells used Hwf Hused Hfuel1 Hfuel2.
    destruct (deallocate_used_block pools cells used fuel ptr n s Hwf Hn Hused Hfuel1 Hfuel2)
      as (s' & _ & Hfree & _).
    by exists s'. }
  intros s' Hok. apply (deallocate_Ok_inv fuel ptr n s s' Hn) in Hok.
  cbv zeta in Hok. fold data c in Hok. split.
  - intros Htail. rewrite (proj2 (Z.eqb_eq _ _) Htail) in Hok. by subst s'.
  - intros Hother. rewrite (proj2 (Z.eqb_neq _ _) Hother) in Hok. subst s'.
    cbn. repeat split.
    + apply array_t_facts.get_set_eq.
    + apply load_insert_eq.
    + intros j Hj. by apply array_t_facts.get_set_ne.
Qed.

(** ** [reset] hands every block back *)
Theorem reset_well_formed (pools : list Z) (cells : Z -> list Z)
    (used : list block) (fuel : nat) (s : state) :
  wf pools cells used s ->
  exists s', reset fuel s = Ok s' /\ wf [memPool s] (fun _ => []) [] s'.
Proof.
  intros Hwf. pose proof (wf_memPool_pos pools cells used s Hwf) as Hmp.
  rewrite reset_Ok by lia. eexists. split; [done|].
  by apply (wf_reset pools cells used).
Qed.

(** ** Runs that follow the contract *)

Lemma protocol_wf (used : list block) (s : state) :
  CHUNK + 1 < 2 ^ 32 ->
  protocol used s -> exists pools cells, wf pools cells used s.
Proof.
  intros HCH. induction 1 as [h lv b Hb | used n p s s' _ IH Hn Hfits Halloc
                             | used fuel ptr n s s' _ IH Hn Hused Hfree
                             | used fuel s s' _ IH Hreset].
  - eexists _, _. by apply wf_ctor.
  - destruct IH as (pools & cells & Hwf).
    destruct (allocate_fresh_block pools cells used n s Hwf Hn Hfits HCH)
      as (p' & s'' & pools' & cells' & Halloc' & _ & Hwf' & _).
    rewrite Halloc in Halloc'. injection Halloc' as <- <-. eauto.
  - destruct IH as (pools & cells & Hwf).
    apply deallocate_Ok_inv in Hfree; [|done]. cbv zeta in Hfree. subst s'.
    destruct (_ =? _) eqn:Etail.
    + apply Z.eqb_eq in Etail. eexists _, _. by eapply wf_tail.
    + eexists _, _. by eapply wf_push.
  - destruct IH as (pools & cells & Hwf).
    destruct (reset_well_formed pools cells used fuel s Hwf) as (s'' & Hreset' & Hwf').
    rewrite Hreset in Hreset'. injection Hreset' as <-. eauto.
Qed.

(** No two blocks held by the program share a word, and none crosses a
    chunk boundary. *)
Theorem blocks_never_overlap (used : list block) (s : state) :
  CHUNK + 1 < 2 ^ 32 -> protocol used s ->
  (forall b1 b2, b1 ∈ used -> b2 ∈ used -> b1 ≠ b2 -> apart b1 b2) /\
  (forall b, b ∈ used ->
     exists pool, 0 < b.2 /\ Pool_mem pool <= b.1 /\ b.1 + b.2 <= Pool_end pool).
Proof.
  intros HCH Hrun. destruct (protocol_wf used s HCH Hrun) as (pools & cells & Hwf).
  split.
  - intros b1 b2 H1 H2. apply (wf_apart _ _ _ _ Hwf); by left.
  - intros b Hb.
    destruct (wf_in_pool _ _ _ _ Hwf b (wf_used_is_block _ _ _ Hb)) as (p & _ & Hlo & Hhi).
    pose proof (carved_end_le pools cells used s Hwf p).
    exists p. split; [|lia]. apply (wf_size _ _ _ _ Hwf). by left.
Qed.

(** ** The report on a well-formed allocator *)

Lemma count_pools_linked (fuel : nat) (h : gmap Z Z) (hd : Z) (ps : list Z) :
  linked h hd ps -> (length ps <= fuel)%nat ->
  count_pools fuel h hd = Some (Z.of_nat (length ps)).
Proof.
  revert fuel hd. induction ps as [|x rest IH]; intros fuel hd Hl Hfuel.
  { cbn in Hl. subst hd. by destruct fuel. }
  destruct Hl as (-> & Hx & Hrest).
  destruct fuel as [|fuel]; [cbn in Hfuel; lia|]. cbn [count_pools].
  rewrite (proj2 (Z.eqb_neq _ _) Hx). unfold Pool_next.
  unfold getNext in Hrest.
  rewrite (IH fuel _ Hrest) by (cbn in Hfuel; lia).
  cbn. f_equal. lia.
Qed.

Lemma free_list_length_linked (fuel : nat) (h : gmap Z Z) (hd : Z) (l : list Z) :
  linked h hd l -> (length l <= fuel)%nat ->
  free_list_length fuel h hd = Some (Z.of_nat (length l)).
Proof.
  revert fuel hd. induction l as [|x rest IH]; intros fuel hd Hl Hfuel.
  { cbn in Hl. subst hd. by destruct fuel. }
  destruct Hl as (-> & Hx & Hrest).
  destruct fuel as [|fuel]; [cbn in Hfuel; lia|]. cbn [free_list_length].
  rewrite (proj2 (Z.eqb_neq _ _) Hx).
  rewrite (IH fuel _ Hrest) by (cbn in Hfuel; lia).
  cbn. f_equal. lia.
Qed.

Lemma memInFreeList_from_linked (fuel : nat) (h : gmap Z Z) (cells : Z -> list Z)
    (i : Z) (heads : list Z) :
  (forall k hd, heads !! k = Some hd ->
     linked h hd (cells (i + Z.of_nat k)) /\
     (length (cells (i + Z.of_nat k)%Z) <= fuel)%nat) ->
  memInFreeList_from fuel h i heads = Some (free_words cells i (length heads)).
Proof.
  revert i. induction heads as [|hd heads IH]; intros i Hheads; [done|].
  cbn [memInFreeList_from length free_words].
  destruct (Hheads O hd eq_refl) as [Hl Hfuel]. rewrite Z.add_0_r in Hl, Hfuel.
  rewrite (free_list_length_linked fuel h hd _ Hl Hfuel). cbn.
  rewrite IH; [done|].
  intros k hd' Hk. destruct (Hheads (S k) hd' Hk) as [Hl' Hfuel'].
  by replace (i + 1 + Z.of_nat k) with (i + Z.of_nat (S k)) by lia.
Qed.

Lemma free_words_upd (cells : Z -> list Z) (c : Z) (l : list Z) (i : Z) (k : nat) :
  free_words (upd cells c l) i k
  = free_words cells i k
    + (if decide (i <= c < i + Z.of_nat k)
       then c * (Z.of_nat (length l) - Z.of_nat (length (cells c))) else 0).
Proof.
  revert i. induction k as [|k IH]; intros i.
  { cbn. destruct (decide _); lia. }
  cbn [free_words]. rewrite IH. unfold upd at 1.
  destruct (decide (i = c)) as [->|Hne];
    repeat (destruct (decide (_ <= _ < _))); lia.
Qed.

Lemma free_words_empty (cells : Z -> list Z) (i : Z) (k : nat) :
  (forall c, i <= c -> cells c = []) -> free_words cells i k = 0.
Proof.
  revert i. induction k as [|k IH]; intros i Hempty; [done|].
  cbn [free_words]. rewrite Hempty by lia. rewrite IH; [cbn; lia|].
  intros c Hc. apply Hempty. lia.
Qed.

Lemma free_words_app (cells : Z -> list Z) (i : Z) (k j : nat) :
  free_words cells i (k + j)
  = free_words cells i k + free_words cells (i + Z.of_nat k) j.
Proof.
  revert i. induction k as [|k IH]; intros i.
  { cbn. by rewrite Z.add_0_r. }
  cbn [plus free_words]. rewrite IH.
  replace (i + 1 + Z.of_nat k) with (i + Z.of_nat (S k)) by lia. lia.
Qed.

Lemma uint32_t_idemp_mul (a k r : Z) :
  uint32_t (uint32_t a * k - r) = uint32_t (a * k - r).
Proof.
  unfold uint32_t. rewrite (Z.mod_eq a (2 ^ 32)) by lia.
  replace ((a - 2 ^ 32 * (a / 2 ^ 32)) * k - r)
    with (a * k - r + (- (a / 2 ^ 32) * k) * 2 ^ 32) by lia.
  apply Z_mod_plus_full.
Qed.

Section report.
Variable pools : list Z.
Variable cells : Z -> list Z.
Variable used : list block.
Variable s : state.
Hypothesis Hwf : wf pools cells used s.

(** The classes outside the table have no free block. *)
Lemma wf_cells_outside (c : Z) :
  Z.of_nat (length (freeMem s)) <= c -> cells c = [].
Proof.
  intros Hc. apply (linked_head_zero (heap s)).
  replace 0 with (array_t.get (freeMem s) c); [apply (wf_lists _ _ _ _ Hwf); lia|].
  unfold array_t.get. by rewrite lookup_ge_None_2 by lia.
Qed.

(** All the words on the free lists, whatever the length of the table
    beyond the classes in use. *)
Lemma free_words_table (k : nat) :
  (length (freeMem s) <= k)%nat ->
  free_words cells 0 k = free_words cells 0 (length (freeMem s)).
Proof.
  intros Hk. replace k with (length (freeMem s) + (k - length (freeMem s)))%nat by lia.
  rewrite free_words_app, (free_words_empty _ (0 + _)); [lia|].
  intros c Hc. apply wf_cells_outside. lia.
Qed.

Lemma printStats_wf (fuel : nat) :
  (length pools <= fuel)%nat -> (forall c, (length (cells c) <= fuel)%nat) ->
  exists st, printStats fuel s = Some st /\
    nbPools st = uint32_t (Z.of_nat (length pools)) /\
    memory_allocated st =
      uint32_t (Z.of_nat (length pools) * (4 * CHUNK)
                - (free_words cells 0 (length (freeMem s)) + endFree s - freePtr s) * 4).
Proof.
  intros Hfuel1 Hfuel2. unfold printStats.
  rewrite (count_pools_linked fuel _ _ pools (wf_chain _ _ _ _ Hwf) Hfuel1).
  rewrite (memInFreeList_from_linked fuel (heap s) cells 0 (freeMem s)).
  2:{ intros k hd Hk. split; [|done]. rewrite Z.add_0_l.
      replace hd with (array_t.get (freeMem s) (Z.of_nat k)).
      - apply (wf_lists _ _ _ _ Hwf). lia.
      - unfold array_t.get. by rewrite Nat2Z.id, Hk. }
  cbn. eexists. split; [done|]. cbn. split; [done|].
  by rewrite uint32_t_idemp_sub, uint32_t_idemp_mul.
Qed.

End report.

(** ** The consumed bytes over [deallocate(allocate(n), n)], in general *)

Lemma length_set (fm : list Z) (c v : Z) :
  length (array_t.set fm c v) = (length fm `max` S (Z.to_nat c))%nat.
Proof.
  unfold array_t.set, array_t.ensurePos.
  rewrite length_insert, length_app, length_replicate. lia.
Qed.

Lemma arch_size_0 : arch_size 0 = 0.
Proof. unfold arch_size, size_t, size_bits. by destruct uintptr. Qed.

(** The free words after one class of a well-formed allocator got a new
    list and the table a new head for it. *)
Lemma free_words_set (pools : list Z) (cells : Z -> list Z) (used : list block)
    (s : state) (c v : Z) (l : list Z) :
  wf pools cells used s -> 0 <= c ->
  free_words (upd cells c l) 0 (length (array_t.set (freeMem s) c v))
  = free_words cells 0 (length (freeMem s))
    + c * (Z.of_nat (length l) - Z.of_nat (length (cells c))).
Proof.
  intros Hwf Hc. rewrite free_words_upd, length_set.
  rewrite decide_True by lia.
  by rewrite (free_words_table pools cells used s Hwf) by lia.
Qed.

Lemma stats_compare (pools pools2 : list Z) (cells cells2 : Z -> list Z)
    (used used2 : list block) (s s2 : state) (fuel : nat) (lost : Z) :
  wf pools cells used s -> wf pools2 cells2 used2 s2 ->
  (length pools <= fuel)%nat -> (forall c, (length (cells c) <= fuel)%nat) ->
  (length pools2 <= fuel)%nat -> (forall c, (length (cells2 c) <= fuel)%nat) ->
  Z.of_nat (length pools2) * (4 * CHUNK)
    - (free_words cells2 0 (length (freeMem s2)) + endFree s2 - freePtr s2) * 4
  = Z.of_nat (length pools) * (4 * CHUNK)
    - (free_words cells 0 (length (freeMem s)) + endFree s - freePtr s) * 4
    + 4 * lost ->
  exists st st2, printStats fuel s = Some st /\ printStats fuel s2 = Some st2 /\
    memory_allocated st2 = uint32_t (memory_allocated st + 4 * lost).
Proof.
  intros Hwf Hwf2 Hf1 Hf2 Hf3 Hf4 Heq.
  destruct (printStats_wf pools cells used s Hwf fuel Hf1 Hf2) as (st & Hst & _ & Hal).
  destruct (printStats_wf pools2 cells2 used2 s2 Hwf2 fuel Hf3 Hf4) as (st2 & Hst2 & _ & Hal2).
  exists st, st2. split; [done|]. split; [done|].
  rewrite Hal2, Hal, Heq. unfold uint32_t. by rewrite Zplus_mod_idemp_l.
Qed.

(** On a well-formed allocator [deallocate(allocate(n), n)] goes through
    in every build, and the report counts the same bytes as consumed
    before and after, except for the words lost with an overflow tail. *)
Theorem tail_round_trip (pools : list Z) (cells : Z -> list Z)
    (used : list block) (fuel : nat) (n : Z) (s : state) :
  wf pools cells used s ->
  0 < n <= CHUNK -> block_words n <= CHUNK -> CHUNK + 1 < 2 ^ 32 ->
  (length pools < fuel)%nat -> (forall c, (length (cells c) < fuel)%nat) ->
  exists p s1 s2 st st2,
    allocate n s = Ok (p, s1) /\ deallocate fuel p n s1 = Ok s2 /\
    printStats fuel s = Some st /\ printStats fuel s2 = Some st2 /\
    memory_allocated st2 = uint32_t (memory_allocated st + 4 * lost_words n s).
Proof.
  intros Hwf Hn Hfits HCH Hfuel1 Hfuel2.
  destruct (block_words_valid n Hn HCH) as [Hc Ha].
  pose proof DEBUG_OFFSET_range as Hd.
  assert (0 < block_words n) as Hcpos by lia.
  assert (n ≠ 0) as Hnz by lia.
  assert (forall c, (length (cells c) <= fuel)%nat) as Hfuel2'.
  { intros c. specialize (Hfuel2 c). lia. }
  rewrite allocate_nonzero by done. cbv zeta. unfold lost_words.
  set (c := block_words n) in *.
  destruct (decide (array_t.get (freeMem s) c = 0)) as [Hempty|Hhead].
  2:{ (* from the free list *)
    rewrite (proj2 (Z.eqb_neq _ 0) Hhead). cbn [negb andb].
    destruct (wf_pop pools cells used s Hwf c ltac:(lia) Hhead)
      as (rest & Hcells & Hwf1 & _).
    set (x := array_t.get (freeMem s) c) in *.
    match type of Hwf1 with wf _ _ _ ?t => set (s1 := t) in * end.
    destruct (deallocate_used_cases pools _ _ fuel (x + DEBUG_OFFSET) n s1 Hwf1 Hnz)
      as (s2 & Hfree & Hcases).
    { rewrite Z.add_simpl_r. by left. }
    { lia. }
    { fold c. unfold upd. rewrite decide_True by done.
      specialize (Hfuel2 c). rewrite Hcells in Hfuel2. cbn in Hfuel2. lia. }
    rewrite Z.add_simpl_r in Hcases. fold c in Hcases.
    assert (forall c', (length (upd cells c rest c') <= fuel)%nat) as Hfuel3.
    { intros c'. unfold upd. destruct (decide _); [|done].
      specialize (Hfuel2 c). rewrite Hcells in Hfuel2. cbn in Hfuel2. lia. }
    destruct Hcases as [(Htail & -> & Hwf2)|(Hpush & -> & Hwf2)].
    - destruct (stats_compare pools pools cells _ used _ s _ fuel 0 Hwf Hwf2)
        as (st & st2 & Hst & Hst2 & Hal); [lia|done|lia|done| |].
      + subst s1. fields.
        rewrite (free_words_set pools cells used s c _ rest Hwf) by lia.
        rewrite Hcells. cbn [length]. lia.
      + eexists _, s1, _, st, st2. done.
    - destruct (stats_compare pools pools cells _ used _ s _ fuel 0 Hwf Hwf2)
        as (st & st2 & Hst & Hst2 & Hal); [lia|done|lia| | |].
      + intros c'. unfold upd at 1. destruct (decide _); [|done].
        unfold upd. rewrite decide_True by done.
        specialize (Hfuel2 c). rewrite Hcells in Hfuel2. cbn in *. lia.
      + fields.
        rewrite (free_words_set pools _ _ s1 c _ _ Hwf1) by lia.
        subst s1. fields.
        rewrite (free_words_set pools cells used s c _ rest Hwf) by lia.
        unfold upd. rewrite decide_True by done.
        rewrite Hcells. cbn [length]. lia.
      + eexists _, s1, _, st, st2. done. }
  rewrite Hempty. cbn [Z.eqb negb andb].
  destruct (freePtr s + c <=? endFree s) eqn:Efit.
  { (* at the cursor *)
    apply Z.leb_le in Efit. cbn [negb].
    destruct (wf_bump pools cells used s Hwf c Hcpos Efit) as (Hwf1 & _).
    set (x := freePtr s) in *.
    match type of Hwf1 with wf _ _ _ ?t => set (s1 := t) in * end.
    destruct (deallocate_used_cases pools _ _ fuel (x + DEBUG_OFFSET) n s1 Hwf1 Hnz)
      as (s2 & Hfree & Hcases).
    { rewrite Z.add_simpl_r. by left. }
    { lia. }
    { apply Hfuel2. }
    rewrite Z.add_simpl_r in Hcases. fold c in Hcases.
    destruct Hcases as [(Htail & -> & Hwf2)|(Hpush & _)]; [|by subst s1].
    destruct (stats_compare pools pools cells _ used _ s _ fuel 0 Hwf Hwf2)
      as (st & st2 & Hst & Hst2 & Hal); [lia|done|lia|done| |].
    - subst s1 x. fields. lia.
    - eexists _, s1, _, st, st2. done. }
  (* in a new chunk *)
  apply Z.leb_gt in Efit. cbn [negb].
  pose proof (wf_cursor _ _ _ _ Hwf) as Hcur. pose proof (wf_end _ _ _ _ Hwf) as Hend.
  set (m := endFree s - freePtr s) in *.
  assert (0 <= m <= CHUNK) as Hm by (unfold m, Pool_mem, Pool_end in *; lia).
  assert (uint32_t m = m) as Htrunc by (apply Z.mod_small; lia).
  rewrite !Htrunc.
  destruct (decide (m = 0)) as [Hm0|Hm0].
  { rewrite Hm0. cbn [Z.eqb]. fields. rewrite arch_size_0, Z.sub_0_r.
    destruct (wf_new_chunk pools cells used s Hwf c (brk s :: live s) ltac:(lia))
      as (Hwf1 & _).
    match type of Hwf1 with wf _ _ _ ?t => set (s1 := t) in * end.
    destruct (deallocate_used_cases _ _ _ fuel (Pool_mem (brk s) + DEBUG_OFFSET) n s1 Hwf1 Hnz)
      as (s2 & Hfree & Hcases).
    { rewrite Z.add_simpl_r. by left. }
    { cbn [length]. lia. }
    { apply Hfuel2. }
    rewrite Z.add_simpl_r in Hcases. fold c in Hcases.
    destruct Hcases as [(Htail & -> & Hwf2)|(Hpush & _)]; [|by subst s1].
    destruct (stats_compare pools _ cells _ used _ s _ fuel 0 Hwf Hwf2)
      as (st & st2 & Hst & Hst2 & Hal); [lia|done|cbn [length]; lia|done| |].
    - subst s1. fields. cbn [length]. unfold Pool_mem, Pool_end in *. lia.
    - eexists _, s1, _, st, st2. done. }
  rewrite (proj2 (Z.eqb_neq _ 0) Hm0). fields.
  destruct (arch_size_leftover m ltac:(lia)) as [Halo Hahi].
  set (a := arch_size m) in *. set (x := freePtr s) in *.
  destruct (wf_bump pools cells used s Hwf a Halo ltac:(unfold m in *; lia))
    as (HwfA & HapartA). fold x in HwfA, HapartA.
  pose proof (wf_push pools cells _ _ HwfA x a ltac:(by left)) as HwfB. fields.
  assert (wf pools (upd cells a (x :: cells a)) used
            (set_heap (<[x := getNext (array_t.get (freeMem s) a)]> (heap s))
               (set_freeMem (array_t.set (freeMem s) a x)
                  (set_freePtr (x + a) s)))) as HwfC.
  { replace (<[x := getNext (array_t.get (freeMem s) a)]> (heap s))
      with (<[x := getNext (array_t.get (freeMem s) a)]> (DODEBUG_store x a (heap s))).
    2:{ unfold DODEBUG_store. destruct debug; [|done]. by rewrite insert_insert_eq. }
    eapply wf_used_equiv; [exact HwfB|].
    intros u. rewrite list_elem_of_filter, elem_of_cons. split.
    - intros Hu. split; [|by right]. intros ->.
      destruct (HapartA _ Hu) as [H1|H1]; cbn in H1; lia.
    - intros [Hne [->|Hu]]; done. }
  destruct (wf_new_chunk _ _ _ _ HwfC c (brk s :: live s) ltac:(lia)) as (Hwf1 & _).
  fields.
  match type of Hwf1 with wf _ _ _ ?t => set (s1 := t) in * end.
  destruct (deallocate_used_cases _ _ _ fuel (Pool_mem (brk s) + DEBUG_OFFSET) n s1 Hwf1 Hnz)
    as (s2 & Hfree & Hcases).
  { rewrite Z.add_simpl_r. by left. }
  { cbn [length]. lia. }
  { fold c. unfold upd. rewrite decide_False by lia. apply Hfuel2. }
  rewrite Z.add_simpl_r in Hcases. fold c in Hcases.
  destruct Hcases as [(Htail & -> & Hwf2)|(Hpush & _)]; [|by subst s1].
  destruct (stats_compare pools _ cells _ used _ s _ fuel (m - a) Hwf Hwf2)
    as (st & st2 & Hst & Hst2 & Hal); [lia|done|cbn [length]; lia| | |].
  - intros c'. unfold upd. destruct (decide _); [|done].
    specialize (Hfuel2 a). cbn [length]. lia.
  - subst s1. fields. cbn [length].
    rewrite (free_words_set pools cells used s a _ _ Hwf) by lia.
    cbn [length]. unfold Pool_mem, Pool_end in *. subst m x. lia.
  - eexists _, s1, _, st, st2. done.
Qed.

(** With 4-byte words nothing is lost with an overflow tail: the report
    counts the same bytes as consumed before and after
    [deallocate(allocate(n), n)], in every run that keeps the contract. *)
Lemma lost_words_arch32 (n : Z) (s : state) :
  uintptr = Arch32 -> lost_words n s = 0.
Proof.
  intros H32. unfold lost_words. destruct (_ && _); [|done].
  rewrite arch_size_32 by done. lia.
Qed.

Lemma memory_allocated_uint32_t (fuel : nat) (s : state) (st : stats) :
  printStats fuel s = Some st -> uint32_t (memory_allocated st) = memory_allocated st.
Proof.
  unfold printStats.
  destruct (count_pools _ _ _); [|done]. destruct (memInFreeList_from _ _ _ _); [|done].
  cbn. intros [= <-]. cbn. unfold uint32_t. by rewrite Z.mod_mod by lia.
Qed.

Lemma tail_round_trip_arch32_any_run (pools : list Z) (cells : Z -> list Z)
    (used : list block) (fuel : nat) (n : Z) (s : state) :
  uintptr = Arch32 ->
  wf pools cells used s ->
  0 < n <= CHUNK -> block_words n <= CHUNK -> CHUNK + 1 < 2 ^ 32 ->
  (length pools < fuel)%nat -> (forall c, (length (cells c) < fuel)%nat) ->
  exists p s1 s2 st st2,
    allocate n s = Ok (p, s1) /\ deallocate fuel p n s1 = Ok s2 /\
    printStats fuel s = Some st /\ printStats fuel s2 = Some st2 /\
    memory_allocated st2 = memory_allocated st.
Proof.
  intros H32 Hwf Hn Hfits HCH Hfuel1 Hfuel2.
  destruct (tail_round_trip pools cells used fuel n s Hwf Hn Hfits HCH Hfuel1 Hfuel2)
    as (p & s1 & s2 & st & st2 & Halloc & Hfree & Hst & Hst2 & Hal).
  exists p, s1, s2, st, st2. do 4 (split; [done|]).
  rewrite Hal, lost_words_arch32 by done.
  rewrite Z.mul_0_r, Z.add_0_r. by eapply memory_allocated_uint32_t.
Qed.

(** ** The two strategies behind [allocator_t] *)

(** C8 (as the code has it): on a well-formed allocator and for every
    size [0 <= n <= CHUNK_SIZE] whose block fits a chunk, both strategies
    return.  The pooled one ([base_allocate], which is [allocate])
    returns the absent value exactly for [n = 0].  For the other sizes
    it returns a block that lies in the carved part of one chunk of the
    chain, shares no word with the blocks handed out, and has room for
    the [n] items; the allocator is well formed with the block added to
    the blocks handed out, and its own test [hasInPools] finds the block
    in the pools and not free.  [base_deallocate] of that block goes
    through in every build and puts the block back: the cursor moves
    back to it or it becomes the head of the free list of its class,
    [hasInPools] no longer finds it, and the allocator is well formed
    with the blocks it had handed out before.  The pass-through one
    ([base_new]) never returns the absent value, also not for [n = 0];
    it returns an object that was not live before, and [base_delete]
    takes it out of the live objects. *)
Theorem strategies_on_valid_sizes (pools : list Z) (cells : Z -> list Z)
    (used : list block) (fuel : nat) (n : Z) (s : state) :
  wf pools cells used s -> Forall (fun q => q < brk s) (live s) ->
  0 <= n <= CHUNK -> block_words n <= CHUNK -> CHUNK + 1 < 2 ^ 32 ->
  (length pools < fuel)%nat -> (length (cells (block_words n)) < fuel)%nat ->
  (exists p s1, base_allocate n s = Ok (p, s1) /\ (p = 0 <-> n = 0) /\
     (n ≠ 0 ->
        let b := (p - DEBUG_OFFSET, block_words n) in
        let k := match uintptr with Arch32 => 1 | Arch64 => 2 end in
        (exists pools1 cells1,
           wf pools1 cells1 (b :: used) s1 /\
           exists pool, pool ∈ pools1 /\ Pool_mem pool <= b.1 /\
                        b.1 + b.2 <= carved_end s1 pool) /\
        (forall u, u ∈ used -> apart b u) /\
        n <= k * (b.2 - DEBUG_OFFSET) /\
        hasInPools fuel b.1 b.2 s1 = Ok true /\
        exists s2 pools2 cells2,
          base_deallocate fuel p n s1 = Ok s2 /\ wf pools2 cells2 used s2 /\
          (freePtr s2 = b.1 \/ array_t.get (freeMem s2) b.2 = b.1) /\
          hasInPools fuel b.1 b.2 s2 = Ok false)) /\
  (exists q s2, base_new n s = (q, s2) /\ q ≠ 0 /\
     (q ∉ live s) /\ (q ∈ live s2) /\ (q ∉ live (base_delete q n s2))).
Proof.
  intros Hwf Hlv Hn Hfits HCH Hfuel1 Hfuel2. split.
  - unfold base_allocate, base_deallocate.
    destruct (decide (n = 0)) as [->|Hnz].
    { exists 0, s. split; [apply allocate_zero|]. done. }
    assert (0 < n <= CHUNK) as Hn' by lia.
    destruct (allocate_then_release pools cells used fuel n s Hwf Hn' Hfits HCH
                Hfuel1 Hfuel2)
      as (p & s1 & pools1 & cells1 & Halloc & Hpos & Hwf1 & Hchunk & Hfresh
          & Hheld & s2 & cells2 & Hfree & Hwf2 & Hwhere & Hgone).
    cbn [fst snd] in *. pose proof DEBUG_OFFSET_range as Hd.
    destruct (payload_room n Hn' HCH) as [Hw Hroom].
    exists p, s1. split; [done|]. split; [lia|]. intros _. cbv zeta. cbn [fst snd].
    split; [by exists pools1, cells1|]. split; [done|].
    split; [rewrite Hw; lia|]. split; [done|].
    by exists s2, pools1, cells2.
  - assert (0 < brk s) as Hb.
    { destruct (wf_pools _ _ _ _ Hwf _ (wf_current _ _ _ _ Hwf)) as [Hp Hend].
      pose proof CHUNK_pos. unfold Pool_end in Hend. lia. }
    unfold base_new, base_delete. eexists _, _. split; [done|]. fields.
    split; [lia|]. split; [|split].
    + intros Hin. apply (Forall_forall _ _) with (x := brk s) in Hlv; [lia|done].
    + by left.
    + rewrite (proj2 (Z.eqb_neq _ 0)) by lia. fields.
      unfold delete_obj. rewrite list_elem_of_filter. tauto.
Qed.

(** * Further properties of the code *)

(** ** The destructor *)

Lemma elem_of_delete_obj (p q : Z) (lv : list Z) :
  q ∈ delete_obj p lv <-> q ∈ lv /\ q ≠ p.
Proof. unfold delete_obj. rewrite list_elem_of_filter. tauto. Qed.

Lemma delete_all_pools_linked (fuel : nat) (h : gmap Z Z) (x : Z) (rest lv : list Z) :
  linked h x (x :: rest) -> (length (x :: rest) <= fuel)%nat ->
  exists lv', delete_all_pools fuel h x lv = Some lv' /\
    forall q, q ∈ lv' <-> q ∈ lv /\ q ∉ x :: rest.
Proof.
  revert fuel x lv. induction rest as [|y rest IH]; intros fuel x lv Hl Hfuel.
  - destruct Hl as (_ & Hx & Hnext). cbn in Hnext. unfold getNext in Hnext.
    destruct fuel as [|fuel]; [cbn in Hfuel; lia|]. cbn [delete_all_pools].
    unfold Pool_next. rewrite Hnext. cbn. eexists. split; [done|].
    intros q. rewrite elem_of_delete_obj, list_elem_of_singleton. tauto.
  - destruct Hl as (_ & Hx & Hnext). unfold getNext in Hnext.
    pose proof Hnext as (Hy & Hynz & _).
    destruct fuel as [|fuel]; [cbn in Hfuel; lia|]. cbn [delete_all_pools].
    unfold Pool_next. rewrite Hy, (proj2 (Z.eqb_neq _ _) Hynz).
    rewrite Hy in Hnext.
    destruct (IH fuel y (delete_obj x lv) Hnext) as (lv' & Hrun & Hlv').
    { cbn in *. lia. }
    exists lv'. split; [done|]. intros q.
    rewrite Hlv', elem_of_delete_obj, !elem_of_cons. tauto.
Qed.

(** X1: on a well-formed allocator the destructor returns (its loop needs
    one unit of fuel per chunk) and deletes exactly the chunks of the
    chain: afterwards an object is live when it was live before and is
    not one of these chunks. *)
Theorem destructor_deletes_the_chain (pools : list Z) (cells : Z -> list Z)
    (used : list block) (fuel : nat) (s : state) :
  wf pools cells used s -> (length pools <= fuel)%nat ->
  exists s', DataAllocator_dtor fuel s = Ok s' /\
    forall q, q ∈ live s' <-> q ∈ live s /\ q ∉ pools.
Proof.
  intros Hwf Hfuel. unfold DataAllocator_dtor.
  pose proof (wf_memPool_pos pools cells used s Hwf) as Hmp.
  replace (assert _ _) with (@Ok unit tt).
  2:{ unfold assert. rewrite (proj2 (Z.eqb_neq _ 0)) by lia. by destruct debug. }
  cbn [obind].
  pose proof (wf_chain _ _ _ _ Hwf) as Hchain.
  destruct (linked_head_nonzero _ _ _ Hchain) as (rest & Hpools & _); [lia|].
  rewrite Hpools in Hchain, Hfuel.
  destruct (delete_all_pools_linked fuel (heap s) (memPool s) rest (live s) Hchain Hfuel)
    as (lv' & Hrun & Hlv').
  rewrite Hrun. cbn. eexists. split; [done|]. cbn. by rewrite Hpools.
Qed.

(** X2: [reset] deletes no object, and the destructor that runs after it
    deletes the current chunk only: every other object that was live
    before [reset], the older chunks of the chain among them, is still
    live after the allocator is destroyed. *)
Theorem reset_then_destructor_leaks (fuel k : nat) (s : state) :
  memPool s ≠ 0 ->
  exists s1 s2, reset fuel s = Ok s1 /\ live s1 = live s /\
    DataAllocator_dtor (S k) s1 = Ok s2 /\
    forall q, q ∈ live s2 <-> q ∈ live s /\ q ≠ memPool s.
Proof.
  intros Hmp. rewrite reset_Ok by done. eexists _, _. split; [done|].
  split; [done|]. unfold DataAllocator_dtor. fields.
  replace (assert _ _) with (@Ok unit tt).
  2:{ unfold assert. rewrite (proj2 (Z.eqb_neq _ 0)) by lia. by destruct debug. }
  cbn [obind delete_all_pools]. unfold Pool_next. rewrite load_insert_eq. cbn.
  split; [done|]. intros q. apply elem_of_delete_obj.
Qed.


(** ** Giving a block back and asking again *)

Lemma get_same_index (a : list Z) (i j : Z) :
  Z.to_nat i = Z.to_nat j -> array_t.get a i = array_t.get a j.
Proof. unfold array_t.get. by intros ->. Qed.

Lemma get_set_back (a : list Z) (c v j : Z) :
  array_t.get (array_t.set (array_t.set a c v) c (array_t.get a c)) j = array_t.get a j.
Proof.
  destruct (decide (Z.to_nat c = Z.to_nat j)) as [E|E].
  - rewrite <- (get_same_index _ c j E), <- (get_same_index a c j E).
    apply array_t_facts.get_set_eq.
  - by rewrite !array_t_facts.get_set_ne.
Qed.

(** X3: a block that was given back is the next block handed out for its
    size: [allocate n] right after [deallocate ptr n] returns [ptr]
    again and leaves the cursor and every free-list head as they were
    before the block was given back.  When the block was the tail (it
    ended at the cursor) this needs the free list of its class to be
    empty, since the free list is tried before the cursor. *)
Theorem freed_block_is_reused_first (fuel : nat) (ptr n : Z) (s s' : state) :
  0 < n <= CHUNK -> ptr - DEBUG_OFFSET ≠ 0 ->
  deallocate fuel ptr n s = Ok s' ->
  (ptr - DEBUG_OFFSET + block_words n = freePtr s ->
     array_t.get (freeMem s) (block_words n) = 0 /\ freePtr s <= endFree s) ->
  exists s'', allocate n s' = Ok (ptr, s'') /\
    freePtr s'' = freePtr s /\ endFree s'' = endFree s /\ memPool s'' = memPool s /\
    forall j, array_t.get (freeMem s'') j = array_t.get (freeMem s) j.
Proof.
  intros Hn Hd Hde Htail.
  apply deallocate_Ok_inv in Hde; [|lia]. cbn zeta in Hde.
  rewrite allocate_nonzero by done. cbn zeta.
  destruct (Z.eqb_spec (ptr - DEBUG_OFFSET + block_words n) (freePtr s)) as [E|E].
  - destruct (Htail E) as [Hempty Hend]. subst s'. fields. rewrite Hempty. cbn.
    rewrite (proj2 (Z.leb_le _ _)) by lia.
    eexists. split; [f_equal; f_equal; lia|]. fields. repeat split; try done; lia.
  - subst s'. fields. rewrite array_t_facts.get_set_eq.
    rewrite (proj2 (Z.eqb_neq _ _) Hd). cbn.
    eexists. split; [f_equal; f_equal; lia|]. fields. repeat split; try done.
    intros j. rewrite load_insert_eq. unfold getNext. apply get_set_back.
Qed.

(** ** Giving a block back twice *)

Lemma deallocate_Ok_checked (fuel : nat) (ptr n : Z) (s s' : state) :
  debug = true -> n ≠ 0 -> deallocate fuel ptr n s = Ok s' ->
  hasInPools fuel (ptr - DEBUG_OFFSET) (block_words n) s' = Ok false.
Proof.
  intros Hdbg Hn. unfold deallocate.
  rewrite (proj2 (Z.eqb_neq _ _) Hn).
  fold (block_words n).
  destruct (assert _ AssertRecordedSize) as [[]| |]; cbn [obind]; try done.
  destruct (assert_hasInPools fuel true _ _ _ s) as [[]| |]; cbn [obind]; try done.
  cbv zeta.
  match goal with |- context [assert_hasInPools fuel false _ _ _ ?x] => generalize x end.
  intros t. unfold assert_hasInPools. rewrite Hdbg.
  destruct (hasInPools fuel _ _ t) as [[]| |] eqn:E; cbn; try done.
  by intros [= <-].
Qed.

(** X4: a debug build stops when a block is given back twice in a row,
    in every state: the second [deallocate] aborts, on the recorded-size
    assertion when putting the block on a free list has overwritten its
    header with a link that is not its size, and otherwise on the
    assertion that the block is in the pools and not free. *)
Theorem double_free_detected_debug (fuel : nat) (ptr n : Z) (s s' : state) :
  debug = true -> n ≠ 0 ->
  deallocate fuel ptr n s = Ok s' ->
  deallocate fuel ptr n s' = Abort AssertRecordedSize \/
  deallocate fuel ptr n s' = Abort AssertInPools.
Proof.
  intros Hdbg Hn Hde.
  pose proof (deallocate_Ok_checked fuel ptr n s s' Hdbg Hn Hde) as Hfree.
  unfold deallocate. rewrite (proj2 (Z.eqb_neq _ _) Hn).
  fold (block_words n). unfold assert. rewrite Hdbg.
  destruct (load (heap s') (ptr - DEBUG_OFFSET) =? block_words n); cbn [obind]; [|by left].
  right. unfold assert_hasInPools at 1. rewrite Hdbg, Hfree. done.
Qed.

Lemma free_list_length_cycle (fuel : nat) (h : gmap Z Z) (x : Z) :
  x ≠ 0 -> getNext (load h x) = x -> free_list_length fuel h x = None.
Proof.
  intros Hx Hloop. induction fuel as [|fuel IH]; cbn [free_list_length];
    rewrite (proj2 (Z.eqb_neq _ _) Hx); [done|].
  by rewrite Hloop, IH.
Qed.

Lemma memInFreeList_from_stuck (fuel : nat) (h : gmap Z Z) (i : Z) (heads : list Z)
    (k : nat) (hd : Z) :
  heads !! k = Some hd -> free_list_length fuel h hd = None ->
  memInFreeList_from fuel h i heads = None.
Proof.
  revert i k. induction heads as [|x heads IH]; intros i k Hk Hnone; [done|].
  cbn [memInFreeList_from]. destruct k as [|k]; cbn in Hk.
  - injection Hk as ->. by rewrite Hnone.
  - rewrite (IH (i + 1) k Hk Hnone). by destruct (free_list_length fuel h x).
Qed.

Lemma lookup_set (a : list Z) (c v : Z) :
  array_t.set a c v !! Z.to_nat c = Some v.
Proof.
  unfold array_t.set. apply list_lookup_insert_eq, array_t_facts.length_ensurePos.
Qed.

(** X5: a release build does not notice a block that is given back twice
    in a row (the tail apart): both calls return, the block then is its
    own successor on the free list of its class, the next two [allocate]
    of that size return the same pointer, and the loop of [printStats]
    over that list has no end. *)
Theorem double_free_undetected_release (fuel : nat) (ptr n : Z) (s : state) :
  debug = false -> 0 < n <= CHUNK -> ptr ≠ 0 ->
  ptr + block_words n ≠ freePtr s ->
  exists s1 s2 s3 s4,
    deallocate fuel ptr n s = Ok s1 /\ deallocate fuel ptr n s1 = Ok s2 /\
    getNext (load (heap s2) ptr) = ptr /\
    allocate n s2 = Ok (ptr, s3) /\ allocate n s3 = Ok (ptr, s4) /\
    forall k, printStats k s2 = None.
Proof.
  intros Hrel Hn Hptr Htail.
  assert (DEBUG_OFFSET = 0) as Hoff by (unfold DEBUG_OFFSET; by rewrite Hrel).
  destruct (deallocate_release_total fuel ptr n s Hrel) as (s1 & H1).
  destruct (deallocate_release_total fuel ptr n s1 Hrel) as (s2 & H2).
  exists s1, s2.
  assert (n ≠ 0) as Hn0 by lia.
  pose proof (deallocate_Ok_inv _ _ _ _ _ Hn0 H1) as E1.
  pose proof (deallocate_Ok_inv _ _ _ _ _ Hn0 H2) as E2.
  cbn zeta in E1, E2. rewrite Hoff, Z.sub_0_r in E1, E2.
  rewrite (proj2 (Z.eqb_neq _ _) Htail) in E1.
  assert (freePtr s1 = freePtr s) as Hfp by (by subst s1).
  rewrite Hfp, (proj2 (Z.eqb_neq _ _) Htail) in E2.
  assert (array_t.get (freeMem s1) (block_words n) = ptr) as Hhead1.
  { subst s1. fields. apply array_t_facts.get_set_eq. }
  rewrite Hhead1 in E2.
  assert (getNext (load (heap s2) ptr) = ptr) as Hloop.
  { subst s2. fields. by rewrite load_insert_eq. }
  assert (array_t.get (freeMem s2) (block_words n) = ptr) as Hhead2.
  { subst s2. fields. apply array_t_facts.get_set_eq. }
  assert (forall t, array_t.get (freeMem t) (block_words n) = ptr ->
            getNext (load (heap t) ptr) = ptr ->
            exists t', allocate n t = Ok (ptr, t') /\
              array_t.get (freeMem t') (block_words n) = ptr /\
              getNext (load (heap t') ptr) = ptr) as Hpop.
  { intros t Hh Hl. rewrite allocate_nonzero by done. cbn zeta.
    rewrite Hh, (proj2 (Z.eqb_neq _ _) Hptr). cbn [negb]. rewrite Hoff, Z.add_0_r.
    eexists. split; [done|]. fields. rewrite array_t_facts.get_set_eq.
    unfold DODEBUG_store. by rewrite Hrel. }
  destruct (Hpop s2 Hhead2 Hloop) as (s3 & Ha3 & Hhead3 & Hloop3).
  destruct (Hpop s3 Hhead3 Hloop3) as (s4 & Ha4 & _).
  exists s3, s4. repeat split; try done.
  intros k. unfold printStats.
  rewrite (memInFreeList_from_stuck k (heap s2) 0 (freeMem s2)
             (Z.to_nat (block_words n)) ptr).
  - by destruct (count_pools k (heap s2) (memPool s2)).
  - subst s2. fields. apply lookup_set.
  - by apply free_list_length_cycle.
Qed.

(** ** The size of a block *)

(** X6: on a well-formed allocator, the payload of the block that
    [allocate n] hands out for a valid size whose block fits a chunk
    (the [w] words from the returned pointer on, after the debug
    header) lies in the carved part of one chunk of the chain, shares no
    word with a block handed out before, and holds the [n] requested
    32-bit items wasting less than one word: with [k] items to a word,
    it has room for at least [n] and fewer than [n + k] items. *)
Theorem block_holds_request (pools : list Z) (cells : Z -> list Z)
    (used : list block) (n : Z) (s : state) :
  wf pools cells used s ->
  0 < n <= CHUNK -> block_words n <= CHUNK -> CHUNK + 1 < 2 ^ 32 ->
  let k := match uintptr with Arch32 => 1 | Arch64 => 2 end in
  exists p s' pools' cells' w,
    allocate n s = Ok (p, s') /\
    wf pools' cells' ((p - DEBUG_OFFSET, w + DEBUG_OFFSET) :: used) s' /\
    n <= k * w < n + k /\
    (exists pool, pool ∈ pools' /\ Pool_mem pool + DEBUG_OFFSET <= p /\
                  p + w <= carved_end s' pool) /\
    (forall u, u ∈ used -> apart (p, w) u).
Proof.
  intros Hwf Hn Hfits HCH. cbv zeta.
  destruct (allocate_fresh_block pools cells used n s Hwf Hn Hfits HCH)
    as (p & s1 & pools1 & cells1 & Halloc & Hfresh & Hwf1 & _).
  cbv zeta in Hfresh, Hwf1.
  destruct (payload_room n Hn HCH) as [Hw Hroom].
  pose proof DEBUG_OFFSET_range as Hd.
  assert (block_words n = arch_size n + DEBUG_OFFSET) as Hbw by lia.
  rewrite Hbw in Hwf1, Hfresh.
  exists p, s1, pools1, cells1, (arch_size n). split; [done|]. split; [done|].
  split; [done|]. split.
  - destruct (wf_in_pool _ _ _ _ Hwf1 (p - DEBUG_OFFSET, arch_size n + DEBUG_OFFSET))
      as (pool & Hpool & Hlo & Hhi); [left; by left|].
    cbn [fst snd] in *. exists pool. split; [done|]. lia.
  - intros u Hu. destruct (Hfresh u Hu) as [H|H]; [left|right]; cbn [fst snd] in *; lia.
Qed.

Lemma size_t_le (x : Z) : 0 <= x -> size_t x <= x.
Proof.
  intros Hx. unfold size_t. apply Z.mod_le; [done|].
  unfold size_bits. destruct uintptr; lia.
Qed.

(** X7: in a release build the block of every valid size fits a chunk.  In
    a debug build the header makes the block of some valid sizes (always
    that of [CHUNK_SIZE] items on 4-byte words) one word larger than a
    chunk, and [allocate] passes its assertion and hands out a block
    that ends after the end of the new chunk, the cursor left beyond
    [endFree]. *)
Theorem oversize_block_overruns_chunk (n : Z) (s : state) :
  0 < n <= CHUNK ->
  (debug = false -> block_words n <= CHUNK) /\
  (CHUNK < block_words n ->
   array_t.get (freeMem s) (block_words n) = 0 ->
   Pool_mem (memPool s) <= freePtr s -> endFree s = Pool_end (memPool s) ->
   exists p s', allocate n s = Ok (p, s') /\
     memPool s' = brk s /\ endFree s' = Pool_end (memPool s') /\
     p - DEBUG_OFFSET = Pool_mem (memPool s') /\
     Pool_end (memPool s') < p - DEBUG_OFFSET + block_words n /\
     endFree s' < freePtr s').
Proof.
  intros Hn. split.
  - intros Hrel. unfold block_words, DEBUG_OFFSET. rewrite Hrel, Z.add_0_r.
    assert (0 <= arch_size n <= n) as Ha.
    { unfold arch_size. destruct uintptr; [lia|].
      pose proof (size_t_nonneg (n + 1)).
      assert (0 <= n + 1) as Hn1 by lia. pose proof (size_t_le (n + 1) Hn1).
      split; [apply Z.div_pos; lia|].
      apply Z.div_le_upper_bound; lia. }
    pose proof (size_t_le (arch_size n) (proj1 Ha)). lia.
  - intros Hbig Hempty Hcur Hend. rewrite allocate_nonzero by done. cbn zeta.
    rewrite Hempty. cbn [Z.eqb negb].
    unfold Pool_mem, Pool_end in *.
    rewrite (proj2 (Z.leb_gt _ _)) by lia.
    eexists _, _. split; [done|]. fields. unfold Pool_mem, Pool_end.
    repeat split; lia.
Qed.

(** ** After [reset] *)

(** X8: after [reset] the retained chunk is carved again from its start:
    the next [allocate] of a size whose block fits a chunk returns the
    first block of that chunk and asks for no new chunk, whatever was
    allocated or free before. *)
Theorem reset_then_allocate_reuses_chunk (fuel : nat) (n : Z) (s : state) :
  memPool s ≠ 0 -> 0 < n <= CHUNK -> block_words n <= CHUNK ->
  exists s1 s2, reset fuel s = Ok s1 /\
    allocate n s1 = Ok (Pool_mem (memPool s) + DEBUG_OFFSET, s2) /\
    memPool s2 = memPool s /\ live s2 = live s /\
    freePtr s2 = Pool_mem (memPool s) + block_words n.
Proof.
  intros Hmp Hn Hfit. rewrite reset_Ok by done. eexists _, _. split; [done|].
  rewrite allocate_nonzero by done. cbn zeta. fields.
  rewrite array_t_facts.get_reset. cbn [Z.eqb negb].
  unfold Pool_mem, Pool_end. rewrite (proj2 (Z.leb_le _ _)) by lia.
  split; [done|]. by fields.
Qed.


(** ** What [hasInPools] computes *)

Lemma wf_older_chunk (pools : list Z) (cells : Z -> list Z) (used : list block)
    (s : state) (rest : list Z) (q : Z) :
  wf pools cells used s -> pools = memPool s :: rest -> q ∈ rest ->
  carved_end s q = Pool_end q.
Proof.
  intros Hwf Hpools Hq. unfold carved_end.
  destruct (decide (q = memPool s)) as [->|]; [|done].
  apply list_elem_of_lookup in Hq as (j & Hj).
  pose proof (wf_pools_apart _ _ _ _ Hwf 0%nat (S j) (memPool s) (memPool s)) as Hap.
  rewrite Hpools in Hap. specialize (Hap ltac:(done) eq_refl Hj).
  pose proof CHUNK_pos. unfold apart, Pool_region in Hap. cbn in Hap. lia.
Qed.

(** X9: on a well-formed allocator [hasInPools] returns (its loops need
    one unit of fuel per chunk and per block of the free list) and
    answers what its name says: [true] exactly when the address lies in
    the carved part of a chunk, below the cursor in the current chunk,
    and is not a block on the free list of the given class. *)
Theorem hasInPools_classifies (pools : list Z) (cells : Z -> list Z)
    (used : list block) (s : state) (fuel : nat) (d c : Z) :
  wf pools cells used s -> 0 <= c ->
  (length pools <= fuel)%nat -> (length (cells c) <= fuel)%nat ->
  exists b, hasInPools fuel d c s = Ok b /\
    (b = true <->
     (exists p, p ∈ pools /\ Pool_mem p <= d < carved_end s p) /\ d ∉ cells c).
Proof.
  intros Hwf Hc Hfuel1 Hfuel2. unfold hasInPools.
  pose proof (wf_memPool_pos pools cells used s Hwf) as Hmp.
  replace (assert _ _) with (@Ok unit tt).
  2:{ unfold assert. rewrite (proj2 (Z.eqb_neq _ 0)) by lia. by destruct debug. }
  cbn [obind].
  pose proof (wf_chain _ _ _ _ Hwf) as Hchain.
  destruct (linked_head_nonzero _ _ _ Hchain) as (rest & Hpools & Hrest); [lia|].
  unfold getNext in Hrest.
  pose proof (wf_lists _ _ _ _ Hwf c Hc) as Hlist.
  assert (forall inPool : bool,
    exists b,
      (if negb inPool then Ok false
       else listed <-- lift_fuel (on_free_list fuel (heap s)
                                    (array_t.get (freeMem s) c) d) ;;
            Ok (negb listed)) = Ok b /\
      (b = true <-> inPool = true /\ d ∉ cells c)) as Hsecond.
  { intros [|]; cbn [negb].
    - destruct (decide (d ∈ cells c)) as [Hin|Hout].
      + rewrite (on_free_list_present fuel _ _ d (cells c)) by done.
        exists false. split; [done|]. split; [done|]. intros [_ ?]. done.
      + rewrite (on_free_list_absent fuel _ _ d (cells c)) by done.
        exists true. by split.
    - exists false. split; [done|]. split; [done|]. by intros [? _]. }
  destruct ((Pool_mem (memPool s) <=? d) && (d <? freePtr s)) eqn:E.
  - cbn [obind]. destruct (Hsecond true) as (b & Hrun & Hb). exists b.
    split; [done|]. rewrite Hb. split; [|by intros [_ ?]].
    intros [_ Hout]. split; [|done]. exists (memPool s).
    apply andb_true_iff in E as [E1 E2]. apply Z.leb_le in E1. apply Z.ltb_lt in E2.
    split; [apply (wf_current _ _ _ _ Hwf)|].
    unfold carved_end. rewrite decide_True by done. lia.
  - assert (~ (Pool_mem (memPool s) <= d < carved_end s (memPool s))) as Hcur.
    { unfold carved_end. rewrite decide_True by done.
      apply andb_false_iff in E as [E|E];
        [apply Z.leb_gt in E | apply Z.ltb_ge in E]; lia. }
    rewrite Hpools in Hfuel1. cbn in Hfuel1. unfold Pool_next.
    destruct (decide (Exists (fun q => Pool_mem q <= d < Pool_end q) rest))
      as [Hex|Hno].
    + apply Exists_exists in Hex as (q & Hq & Hd).
      rewrite (in_full_pools_found fuel (heap s) _ d q rest Hrest Hq Hd) by lia.
      cbn [lift_fuel obind]. destruct (Hsecond true) as (b & Hrun & Hb). exists b.
      split; [done|]. rewrite Hb. split; [|by intros [_ ?]].
      intros [_ Hout]. split; [|done]. exists q.
      rewrite (wf_older_chunk pools cells used s rest q Hwf Hpools Hq).
      split; [|done]. rewrite Hpools. by right.
    + rewrite (in_full_pools_not_found fuel (heap s) _ d rest Hrest) by
        (try lia; intros q Hq Hd; apply Hno, Exists_exists; eauto).
      cbn [lift_fuel obind]. destruct (Hsecond false) as (b & Hrun & Hb). exists b.
      split; [done|]. rewrite Hb. split; [by intros [? _]|].
      intros [(p & Hp & Hd) _]. exfalso.
      rewrite Hpools in Hp. apply elem_of_cons in Hp as [->|Hp]; [done|].
      rewrite (wf_older_chunk pools cells used s rest p Hwf Hpools Hp) in Hd.
      apply Hno, Exists_exists. eauto.
Qed.


(** ** The words of the blocks a program holds *)

Lemma load_DODEBUG_store_ne (h : gmap Z Z) (x c a : Z) :
  a ≠ x -> load (DODEBUG_store x c h) a = load h a.
Proof.
  intros Hne. unfold DODEBUG_store. destruct debug; [|done].
  by apply load_insert_ne.
Qed.

Lemma wf_held_not_cursor (pools : list Z) (cells : Z -> list Z) (used : list block)
    (s : state) (u : block) (a : Z) :
  wf pools cells used s -> u ∈ used -> u.1 <= a < u.1 + u.2 ->
  freePtr s < endFree s -> a ≠ freePtr s.
Proof.
  intros Hwf Hu Ha Htail.
  pose proof (wf_block_apart_tail pools cells used s Hwf u
                (wf_used_is_block cells used u Hu)) as Hap.
  unfold apart in Hap. cbn in Hap. lia.
Qed.

(** X10: the allocator never writes into a block the program holds.  On
    a well-formed allocator, [allocate] leaves every word of every held
    block as it was (the header of the new block, the link of a filed
    leftover and the link of a new chunk are all written elsewhere), and
    giving back a held block leaves every word of the other held blocks
    as it was. *)
Theorem held_words_untouched (pools : list Z) (cells : Z -> list Z)
    (used : list block) (fuel : nat) (n ptr : Z) (s s' : state) :
  wf pools cells used s -> CHUNK + 1 < 2 ^ 32 ->
  (forall p, 0 < n <= CHUNK -> allocate n s = Ok (p, s') ->
     forall u a, u ∈ used -> u.1 <= a < u.1 + u.2 ->
       load (heap s') a = load (heap s) a) /\
  (n ≠ 0 -> (ptr - DEBUG_OFFSET, block_words n) ∈ used ->
   deallocate fuel ptr n s = Ok s' ->
     forall u a, u ∈ used -> u ≠ (ptr - DEBUG_OFFSET, block_words n) ->
       u.1 <= a < u.1 + u.2 -> load (heap s') a = load (heap s) a).
Proof.
  intros Hwf Hchunk. split.
  - intros p Hn Hal u a Hu Ha.
    rewrite allocate_nonzero in Hal by done. cbn zeta in Hal.
    destruct (block_words_valid n Hn Hchunk) as [Hbw Hpos].
    pose proof DEBUG_OFFSET_range as Hoff.
    assert (0 < block_words n) as Hc by lia.
    pose proof (wf_used_is_block cells used u Hu) as Hblk.
    pose proof (wf_size _ _ _ _ Hwf u Hblk) as Hsz.
    pose proof (wf_cursor _ _ _ _ Hwf) as Hcur.
    destruct (Z.eqb_spec (array_t.get (freeMem s) (block_words n)) 0) as [E|E];
      cbn [negb] in Hal.
    + destruct (Z.leb_spec (freePtr s + block_words n) (endFree s)) as [Hfit|Hover].
      * injection Hal as _ <-. fields. apply load_DODEBUG_store_ne.
        apply (wf_held_not_cursor pools cells used s u a Hwf Hu Ha). lia.
      * injection Hal as _ <-. fields.
        destruct (wf_block_bounds pools cells used s Hwf u Hblk) as [_ Hbrk].
        rewrite load_DODEBUG_store_ne by (unfold Pool_mem; lia).
        rewrite load_insert_ne by lia.
        destruct (Z.eqb_spec (uint32_t (endFree s - freePtr s)) 0) as [E0|E0];
          [done|]. fields.
        apply load_insert_ne. intros Heq. symmetry in Heq. revert Heq.
        apply (wf_held_not_cursor pools cells used s u a Hwf Hu Ha).
        destruct (decide (freePtr s = endFree s)) as [Heq|]; [|lia].
        rewrite Heq, Z.sub_diag in E0. done.
    + injection Hal as _ <-. fields. apply load_DODEBUG_store_ne.
      pose proof (wf_lists _ _ _ _ Hwf (block_words n) (Z.lt_le_incl _ _ Hc)) as Hl.
      destruct (linked_head_nonzero _ _ _ Hl E) as (rest & Hcells & _).
      remember (array_t.get (freeMem s) (block_words n)) as x eqn:Ex.
      assert (is_block cells used (x, block_words n)) as Hx.
      { right. cbn. rewrite Hcells. by left. }
      assert (u ≠ (x, block_words n)) as Hne.
      { intros ->. apply (wf_used_free _ _ _ _ Hwf _ Hu). cbn.
        rewrite Hcells. by left. }
      destruct (wf_apart _ _ _ _ Hwf u _ Hblk Hx Hne) as [H|H]; cbn [fst snd] in H; lia.
  - intros Hn Hheld Hde u a Hu Hne Ha.
    apply deallocate_Ok_inv in Hde; [|done]. cbn zeta in Hde.
    destruct (_ =? _); subst s'; [done|]. fields.
    apply load_insert_ne. intros <-.
    pose proof (wf_used_is_block cells used _ Hu) as Hblk.
    pose proof (wf_used_is_block cells used _ Hheld) as Hblk'.
    pose proof (wf_size _ _ _ _ Hwf _ Hblk') as Hsz. cbn in Hsz.
    destruct (wf_apart _ _ _ _ Hwf u _ Hblk Hblk' Hne) as [H|H]; cbn in H; lia.
Qed.


(** ** What the report counts *)

Lemma filter_absent (used : list block) (b : block) :
  b ∉ used -> filter (fun u => u ≠ b) used = used.
Proof.
  induction used as [|u used IH]; intros Hb; [done|].
  apply not_elem_of_cons in Hb as [Hne Hb].
  rewrite filter_cons, decide_True by done. by rewrite IH.
Qed.

Lemma held_words_filter (used : list block) (b : block) :
  NoDup used -> b ∈ used ->
  held_words (filter (fun u => u ≠ b) used) = held_words used - b.2.
Proof.
  induction 1 as [|u used Hu Hnd IH]; intros Hb.
  { by apply elem_of_nil in Hb. }
  rewrite filter_cons. cbn [held_words foldr]. fold (held_words used).
  destruct (decide (u = b)) as [->|Hne].
  - rewrite decide_False by (intros H; by apply H).
    rewrite filter_absent by done. lia.
  - rewrite decide_True by done. cbn [held_words foldr].
    fold (held_words (filter (fun u => u ≠ b) used)).
    apply elem_of_cons in Hb as [->|Hb]; [done|]. rewrite IH by done. lia.
Qed.

Lemma length_upd_le (cells : Z -> list Z) (c : Z) (l : list Z) (N M : nat) :
  (forall c', (length (cells c') <= N)%nat) -> (N <= M)%nat -> (length l <= M)%nat ->
  forall c', (length (upd cells c l c') <= M)%nat.
Proof.
  intros Hb HNM Hl c'. unfold upd. destruct (decide (c' = c)); [done|].
  specialize (Hb c'). lia.
Qed.

(** A valid request on an allocator whose words are all accounted for,
    on 4-byte words. *)
Lemma allocate_accounted (pools : list Z) (cells : Z -> list Z)
    (used : list block) (N : nat) (n : Z) (s : state) :
  uintptr = Arch32 -> CHUNK + 1 < 2 ^ 32 ->
  wf pools cells used s -> NoDup used ->
  (forall c, (length (cells c) <= N)%nat) -> accounted pools cells used s ->
  0 < n <= CHUNK -> block_words n <= CHUNK ->
  exists p s' pools' cells',
    allocate n s = Ok (p, s') /\
    let b := (p - DEBUG_OFFSET, block_words n) in
    wf pools' cells' (b :: used) s' /\ NoDup (b :: used) /\
    (forall c, (length (cells' c) <= S N)%nat) /\ accounted pools' cells' (b :: used) s'.
Proof.
  intros H32 HCH Hwf Hnd Hbound Hacc Hn Hfits.
  destruct (block_words_valid n Hn HCH) as [Hc Ha].
  pose proof DEBUG_OFFSET_range as Hd.
  assert (0 < block_words n) as Hcpos by lia.
  assert (forall x, (forall u, u ∈ used -> apart (x, block_words n) u) ->
                    NoDup ((x, block_words n) :: used)) as Hfresh.
  { intros x Hap. constructor; [|done]. intros Hin.
    destruct (Hap _ Hin) as [H|H]; cbn in H; lia. }
  rewrite allocate_nonzero by done. cbv zeta.
  unfold accounted in *.
  set (c := block_words n) in *.
  destruct (decide (array_t.get (freeMem s) c = 0)) as [Hempty|Hhead].
  2:{ (* from the free list *)
    rewrite (proj2 (Z.eqb_neq _ 0) Hhead). cbn [negb].
    destruct (wf_pop pools cells used s Hwf c (Z.lt_le_incl _ _ Hcpos) Hhead)
      as (rest & Hcells & Hwf' & Hapart).
    eexists _, _, pools, _. split; [done|]. cbn [fst snd].
    rewrite Z.add_simpl_r. split; [exact Hwf'|]. split; [by apply Hfresh|].
    split.
    - apply (length_upd_le cells c rest N); [done|lia|].
      specialize (Hbound c). rewrite Hcells in Hbound. cbn in Hbound. lia.
    - fields. rewrite (free_words_set pools cells used s) by (done || lia).
      rewrite Hcells. cbn [held_words foldr length snd]. fold (held_words used). lia. }
  rewrite Hempty. cbn [Z.eqb negb].
  destruct (freePtr s + c <=? endFree s) eqn:Efit.
  { (* at the cursor *)
    apply Z.leb_le in Efit.
    destruct (wf_bump pools cells used s Hwf c Hcpos Efit) as (Hwf' & Hapart).
    eexists _, _, pools, cells. split; [done|]. cbn [fst snd].
    rewrite Z.add_simpl_r. split; [exact Hwf'|]. split; [by apply Hfresh|].
    split; [intros c'; specialize (Hbound c'); lia|].
    fields. cbn [held_words foldr snd]. fold (held_words used). lia. }
  (* in a new chunk *)
  apply Z.leb_gt in Efit.
  pose proof (wf_cursor _ _ _ _ Hwf) as Hcur. pose proof (wf_end _ _ _ _ Hwf) as Hend.
  set (m := endFree s - freePtr s) in *.
  assert (0 <= m <= CHUNK) as Hm by (unfold m, Pool_mem, Pool_end in *; lia).
  assert (uint32_t m = m) as Htrunc by (apply Z.mod_small; lia).
  rewrite !Htrunc.
  destruct (decide (m = 0)) as [Hm0|Hm0].
  { rewrite Hm0. cbn [Z.eqb]. fields.
    assert (0 < c <= CHUNK) as Hcc by lia.
    destruct (wf_new_chunk pools cells used s Hwf c (brk s :: live s) Hcc)
      as (Hwf' & Hapart).
    eexists _, _, _, cells. split; [done|]. cbn [fst snd].
    rewrite Z.add_simpl_r. split; [exact Hwf'|]. split; [by apply Hfresh|].
    split; [intros c'; specialize (Hbound c'); lia|].
    fields. cbn [held_words foldr snd length]. fold (held_words used).
    unfold Pool_mem, Pool_end. lia. }
  rewrite (proj2 (Z.eqb_neq _ 0) Hm0). fields.
  (* the tail goes to a free list first: carve it, then give it back *)
  rewrite (arch_size_32 m H32).
  set (x := freePtr s) in *.
  assert (0 < m) as Hmpos by lia.
  assert (x + m <= endFree s) as Hxm by (unfold m; lia).
  destruct (wf_bump pools cells used s Hwf m Hmpos Hxm) as (HwfA & HapartA).
  fold x in HwfA, HapartA.
  pose proof (wf_push pools cells _ _ HwfA x m ltac:(by left)) as HwfB. fields.
  assert (wf pools (upd cells m (x :: cells m)) used
            (set_heap (<[x := getNext (array_t.get (freeMem s) m)]> (heap s))
               (set_freeMem (array_t.set (freeMem s) m x)
                  (set_freePtr (x + m) s)))) as HwfC.
  { replace (<[x := getNext (array_t.get (freeMem s) m)]> (heap s))
      with (<[x := getNext (array_t.get (freeMem s) m)]> (DODEBUG_store x m (heap s))).
    2:{ unfold DODEBUG_store. destruct debug; [|done]. by rewrite insert_insert_eq. }
    eapply wf_used_equiv; [exact HwfB|].
    intros u. rewrite list_elem_of_filter, elem_of_cons. split.
    - intros Hu. split; [|by right]. intros ->.
      destruct (HapartA _ Hu) as [H1|H1]; cbn in H1; lia.
    - intros [Hne [->|Hu]]; done. }
  assert (0 < c <= CHUNK) as Hcc by lia.
  destruct (wf_new_chunk _ _ _ _ HwfC c (brk s :: live s) Hcc) as (Hwf' & Hapart).
  fields.
  eexists _, _, _, _. split; [done|]. cbn [fst snd].
  rewrite Z.add_simpl_r. split; [exact Hwf'|]. split; [by apply Hfresh|].
  split.
  - apply (length_upd_le cells m (x :: cells m) N); [done|lia|].
    specialize (Hbound m). cbn [length]. lia.
  - fields. rewrite (free_words_set pools cells used s) by (done || lia).
    cbn [held_words foldr snd length]. fold (held_words used).
    unfold Pool_mem, Pool_end. lia.
Qed.

Lemma protocol_accounted (used : list block) (s : state) :
  uintptr = Arch32 -> CHUNK + 1 < 2 ^ 32 -> protocol used s ->
  exists pools cells N,
    wf pools cells used s /\ NoDup used /\
    (forall c, (length (cells c) <= N)%nat) /\ accounted pools cells used s.
Proof.
  intros H32 HCH.
  induction 1 as [h lv b Hb | used n p s s' _ IH Hn Hfits Halloc
                 | used fuel ptr n s s' _ IH Hn Hused Hfree
                 | used fuel s s' _ IH Hreset].
  - exists [b], (fun _ => []), O. split; [by apply wf_ctor|].
    split; [constructor|]. split; [done|].
    unfold accounted. rewrite free_words_empty by done.
    cbn. unfold Pool_mem, Pool_end. lia.
  - destruct IH as (pools & cells & N & Hwf & Hnd & Hbound & Hacc).
    destruct (allocate_accounted pools cells used N n s H32 HCH Hwf Hnd Hbound Hacc
                Hn Hfits) as (p' & s'' & pools' & cells' & Halloc' & H).
    rewrite Halloc in Halloc'. injection Halloc' as <- <-.
    cbv zeta in H. destruct H as (? & ? & ? & ?). eauto 10.
  - destruct IH as (pools & cells & N & Hwf & Hnd & Hbound & Hacc).
    apply deallocate_Ok_inv in Hfree; [|done]. cbv zeta in Hfree. subst s'.
    unfold accounted in *.
    pose proof (wf_size _ _ _ _ Hwf _ (wf_used_is_block cells used _ Hused)) as Hsz.
    cbn [snd] in Hsz.
    pose proof (held_words_filter used _ Hnd Hused) as Hheld. cbn [snd] in Hheld.
    destruct (_ =? _) eqn:Etail.
    + apply Z.eqb_eq in Etail. exists pools, cells, N.
      split; [by eapply wf_tail|]. split; [by apply NoDup_filter|].
      split; [done|]. fields. rewrite Hheld. lia.
    + eexists pools, _, (S N). split; [by eapply wf_push|].
      split; [by apply NoDup_filter|]. split.
      * apply (length_upd_le cells _ _ N); [done|lia|].
        specialize (Hbound (block_words n)). cbn [length]. lia.
      * fields. rewrite (free_words_set pools cells used s) by (done || lia).
        rewrite Hheld. cbn [length]. lia.
  - destruct IH as (pools & cells & N & Hwf & Hnd & Hbound & Hacc).
    pose proof (wf_memPool_pos pools cells used s Hwf) as Hmp.
    rewrite reset_Ok in Hreset by lia. injection Hreset as <-.
    exists [memPool s], (fun _ => []), O.
    split; [by apply (wf_reset pools cells used)|].
    split; [constructor|]. split; [done|].
    unfold accounted. rewrite free_words_empty by done.
    cbn. unfold Pool_mem, Pool_end. lia.
Qed.

(** X11: on 4-byte words, in every run that keeps the contract (valid
    sizes whose block, debug header included, fits a chunk), the
    report of [printStats] is exact: its loops end (given one unit of
    fuel per chunk and per free block), and the bytes it shows as
    allocated are 4 times the words of the blocks the program holds,
    debug headers included; the rest of every chunk is on a free list or
    after the cursor. *)
Theorem report_counts_held_words (used : list block) (s : state) :
  uintptr = Arch32 -> CHUNK + 1 < 2 ^ 32 -> protocol used s ->
  exists fuel0, forall fuel, (fuel0 <= fuel)%nat ->
    exists st, printStats fuel s = Some st /\
      memory_allocated st = uint32_t (4 * held_words used) /\
      available_in_current_pool st = uint32_t (4 * (endFree s - freePtr s)).
Proof.
  intros H32 HCH Hrun.
  destruct (protocol_accounted used s H32 HCH Hrun)
    as (pools & cells & N & Hwf & _ & Hbound & Hacc).
  exists (length pools `max` N)%nat. intros fuel Hfuel.
  destruct (printStats_wf pools cells used s Hwf fuel) as (st & Hst & _ & Hmem).
  { lia. }
  { intros c. specialize (Hbound c). lia. }
  exists st. split; [done|]. rewrite Hmem. unfold accounted in Hacc. split.
  - f_equal. lia.
  - unfold printStats in Hst.
    destruct (count_pools _ _ _); [|done]. cbn in Hst.
    destruct (memInFreeList_from _ _ _ _); [|done]. cbn in Hst.
    injection Hst as <-. cbn. f_equal. lia.
Qed.

End DataAllocator_facts.

(** * The properties on concrete runs *)

Lemma valid_addresses_fresh {cfg : build} : valid_addresses Scenario.fresh.
Proof.
  apply valid_addresses_ctor; [lia | apply map_Forall_empty | constructor].
Defined.

(** ** Release build, 4-byte words *)
Module Release32.
Import Scenario.
#[local] Existing Instance release32.

(** The scenario of the specification: A and B are carved from chunk 1,
    C overflows it, the 2 words left over go to class 2 and C is the base
    of chunk 2; giving C back moves the cursor back, and a request of 2
    words then gets the words left over in chunk 1. *)
Example specification_scenario :
  (a <-- allocate 3 fresh ;;
   b <-- allocate 3 a.2 ;;
   c <-- allocate 3 b.2 ;;
   s4 <-- deallocate 0 c.1 3 c.2 ;;
   d <-- allocate 2 s4 ;;
   Ok (a.1, b.1, freePtr b.2, endFree b.2, c.1, memPool c.2,
       array_t.get (freeMem c.2) 2, freePtr s4, d.1, freePtr d.2))
  = Ok (101, 104, 107, 109, 110, 109, 107, 110, 107, 110).
Proof. vm_compute. reflexivity. Qed.

(** C1, counterexample: the allocator is built on the chunk at 100, two
    full-chunk requests make a second chunk at 109, and [reset] keeps that
    second chunk; the first chunk ever allocated is not the one retained,
    and it is still among the live objects. *)
Lemma reset_retains_newest_chunk :
  (a <-- allocate 8 fresh ;;
   b <-- allocate 8 a.2 ;;
   s3 <-- reset 0 b.2 ;;
   Ok (memPool fresh, memPool a.2, memPool b.2, memPool s3, live s3))
  = Ok (100, 100, 109, 109, [109; 100]).
Proof. vm_compute. reflexivity. Qed.

(** The state of the run above before [reset]. *)
Lemma two_chunks_run :
  (a <-- allocate 8 fresh ;; b <-- allocate 8 a.2 ;; Ok b.2) = Ok two_chunks.
Proof. vm_compute. reflexivity. Defined.

Lemma reset_keeps_current_chunk_witness :
  memPool two_chunks ≠ 0 /\ memPool fresh = 100 /\ live two_chunks = [109; 100] /\
  exists s', reset 0 two_chunks = Ok s' /\
    memPool s' = 109 /\ Pool_next (heap s') 109 = 0 /\
    freePtr s' = 110 /\ endFree s' = 118 /\
    exists st, printStats 1 s' = Some st /\ nbPools st = 1 /\ memory_allocated st = 0.
Proof.
  assert (memPool two_chunks ≠ 0) as Hmp by (vm_compute; discriminate).
  split; [exact Hmp|]. split; [reflexivity|]. split; [reflexivity|].
  destruct (reset_keeps_current_chunk 0 0 two_chunks Hmp)
    as (s' & Hreset & Hpool & Hnext & Hcursor & Hend & _ & Hstats).
  assert (memPool s' = 109) as Hpool' by (rewrite Hpool; reflexivity).
  exists s'. split; [exact Hreset|]. split; [exact Hpool'|].
  rewrite Hpool' in Hnext, Hcursor, Hend.
  split; [exact Hnext|]. split; [rewrite Hcursor; reflexivity|].
  split; [rewrite Hend; reflexivity|]. exact Hstats.
Defined.

Lemma valid_size_3 : 0 < 3 <= CHUNK.
Proof. unfold CHUNK. simpl. lia. Defined.

Lemma allocate_sources_in_order_witness :
  0 < 3 <= CHUNK /\
  exists s', allocate 3 fresh = Ok (101, s') /\ freePtr s' = 104.
Proof.
  split; [exact valid_size_3|].
  destruct (allocate_sources_in_order 3 fresh valid_size_3) as (_ & Hbump & _).
  destruct Hbump as (s' & Halloc & Hcursor & _).
  - reflexivity.
  - vm_compute. discriminate.
  - exists s'. split; [exact Halloc|]. rewrite Hcursor. reflexivity.
Defined.

Lemma deallocate_tail_or_free_list_witness :
  3 ≠ 0 /\
  exists s', deallocate 0 101 3 (set_freePtr 104 fresh) = Ok s' /\ freePtr s' = 101.
Proof.
  assert (3 ≠ 0) as Hn by discriminate.
  split; [exact Hn|].
  destruct (deallocate_tail_or_free_list 0 101 3 (set_freePtr 104 fresh) Hn)
    as (Htotal & _ & Hstate).
  destruct (Htotal (eq_refl false)) as (s' & Hok).
  exists s'. split; [exact Hok|].
  destruct (Hstate s' Hok) as (Htail & _).
  destruct Htail as (Hcursor & _); [reflexivity|].
  rewrite Hcursor. reflexivity.
Defined.

Lemma allocate_null_only_for_zero_witness :
  valid_addresses fresh /\ 0 <= 3 <= CHUNK /\
  exists p s', allocate 3 fresh = Ok (p, s') /\ p ≠ 0.
Proof.
  assert (0 <= 3 <= CHUNK) as Hn by (unfold CHUNK; simpl; lia).
  split; [exact valid_addresses_fresh|]. split; [exact Hn|].
  destruct (allocate_null_only_for_zero 3 fresh valid_addresses_fresh Hn)
    as (p & s' & Halloc & Hnull).
  exists p, s'. split; [exact Halloc|].
  intros Hp. apply Hnull in Hp. discriminate.
Defined.

(** C8, counterexample: for size 0 the pooled strategy returns the absent
    value, the pass-through strategy an object (at address 109). *)
Lemma strategies_differ_at_size_zero :
  (r <-- base_allocate 0 fresh ;; Ok r.1) = Ok 0 /\
  (base_new 0 fresh).1 = 109 /\ 109 ≠ 0.
Proof. split; [|split]; [vm_compute; reflexivity..|discriminate]. Qed.

Lemma wf_fresh : wf [100] (fun _ => []) [] fresh.
Proof. apply wf_ctor. lia. Defined.

(** The fresh allocator after one block of 3 words was carved at 101. *)
Lemma wf_one_block :
  wf [100] (fun _ => []) [(101, 3)]
     (set_heap (DODEBUG_store 101 3 (heap fresh)) (set_freePtr 104 fresh)).
Proof.
  refine (proj1 (wf_bump [100] (fun _ => []) [] fresh wf_fresh 3 _ _)).
  - reflexivity.
  - vm_compute. discriminate.
Defined.

Lemma chunk_size_bound : CHUNK + 1 < 2 ^ 32.
Proof. vm_compute. reflexivity. Defined.

Lemma strategies_on_valid_sizes_witness :
  wf [100] (fun _ => []) [(101, 3)]
     (set_heap (DODEBUG_store 101 3 (heap fresh)) (set_freePtr 104 fresh)) /\
  0 <= 3 <= CHUNK /\
  (exists p s1 s2,
     base_allocate 3
       (set_heap (DODEBUG_store 101 3 (heap fresh)) (set_freePtr 104 fresh))
     = Ok (p, s1) /\
     p = 104 /\ apart (p, 3) (101, 3) /\ hasInPools 2 p 3 s1 = Ok true /\
     base_deallocate 2 p 3 s1 = Ok s2 /\
     (freePtr s2 = p \/ array_t.get (freeMem s2) 3 = p) /\
     hasInPools 2 p 3 s2 = Ok false) /\
  (exists q s2,
     base_new 3
       (set_heap (DODEBUG_store 101 3 (heap fresh)) (set_freePtr 104 fresh))
     = (q, s2) /\ q ≠ 0).
Proof.
  assert (0 <= 3 <= CHUNK) as Hn by (unfold CHUNK; simpl; lia).
  assert (block_words 3 <= CHUNK) as Hfits by (vm_compute; discriminate).
  assert (3 ≠ 0) as Hnz by discriminate.
  split; [exact wf_one_block|]. split; [exact Hn|].
  destruct (strategies_on_valid_sizes [100] (fun _ => []) [(101, 3)] 2 3 _
              wf_one_block) as ((p & s1 & Halloc & _ & Hblock) & (q & s2 & Hnew & Hq & _)).
  - repeat constructor.
  - exact Hn.
  - exact Hfits.
  - exact chunk_size_bound.
  - simpl. lia.
  - simpl. lia.
  - assert (exists s0,
              base_allocate 3
                (set_heap (DODEBUG_store 101 3 (heap fresh)) (set_freePtr 104 fresh))
              = Ok (104, s0)) as (s0 & Hrun) by (vm_compute; eauto).
    rewrite Hrun in Halloc. injection Halloc as <- <-.
    destruct (Hblock Hnz) as (_ & Hfresh & _ & Hheld & s2' & _ & _ & Hfree & _ & Hwhere & Hgone).
    split.
    + exists 104, s0, s2'. split; [exact Hrun|]. split; [reflexivity|].
      split; [apply (Hfresh (101, 3)); constructor|].
      split; [exact Hheld|]. split; [exact Hfree|]. split; [exact Hwhere | exact Hgone].
    + exists q, s2. split; [exact Hnew | exact Hq].
Defined.

(** With 4-byte words the tail round trip of the failing run below leaves
    the consumed bytes as they were. *)
Example tail_round_trip_arch32 :
  (a <-- allocate 3 fresh ;;
   b <-- allocate 3 a.2 ;;
   before <-- lift_fuel (printStats 8 b.2) ;;
   c <-- allocate 3 b.2 ;;
   s' <-- deallocate 0 c.1 3 c.2 ;;
   after <-- lift_fuel (printStats 8 s') ;;
   Ok (memory_allocated before, memory_allocated after))
  = Ok (24, 24).
Proof. vm_compute. reflexivity. Qed.

(** ** Instances of the further properties *)

Lemma wf_two_chunks_beside :
  wf [109; 100] (fun _ => []) [(110, 8); (101, 8)] two_chunks_beside.
Proof.
  assert (wf [100] (fun _ => []) [] (DataAllocator_ctor ∅ [50] 100)) as H0
    by (apply wf_ctor; lia).
  assert (0 < 8) as H8 by lia.
  assert (freePtr (DataAllocator_ctor ∅ [50] 100) + 8
          <= endFree (DataAllocator_ctor ∅ [50] 100)) as Hroom
    by (vm_compute; discriminate).
  pose proof (proj1 (wf_bump _ _ _ _ H0 8 H8 Hroom)) as H1.
  assert (0 < 8 <= CHUNK) as Hc by (unfold CHUNK; simpl; lia).
  exact (proj1 (wf_new_chunk _ _ _ _ H1 8 [109; 100; 50] Hc)).
Defined.

Lemma destructor_deletes_the_chain_witness :
  wf [109; 100] (fun _ => []) [(110, 8); (101, 8)] two_chunks_beside /\
  live two_chunks_beside = [109; 100; 50] /\
  exists s', DataAllocator_dtor 2 two_chunks_beside = Ok s' /\
    (109 ∉ live s') /\ (100 ∉ live s') /\ 50 ∈ live s'.
Proof.
  split; [exact wf_two_chunks_beside|]. split; [reflexivity|].
  destruct (destructor_deletes_the_chain [109; 100] (fun _ => [])
              [(110, 8); (101, 8)] 2 two_chunks_beside wf_two_chunks_beside)
    as (s' & Hrun & Hlive).
  - simpl. lia.
  - exists s'. split; [exact Hrun|]. split; [|split].
    + intros Hin. apply Hlive in Hin as [_ Hout]. apply Hout.
      apply list_elem_of_here.
    + intros Hin. apply Hlive in Hin as [_ Hout]. apply Hout.
      apply list_elem_of_further, list_elem_of_here.
    + apply Hlive. split.
      * change (50 ∈ [109; 100; 50]).
        apply list_elem_of_further, list_elem_of_further, list_elem_of_here.
      * intros Hin. apply elem_of_cons in Hin as [Hin|Hin]; [discriminate|].
        apply elem_of_cons in Hin as [Hin|Hin]; [discriminate|].
        apply elem_of_nil in Hin. exact Hin.
Defined.

Lemma reset_then_destructor_leaks_witness :
  memPool two_chunks ≠ 0 /\ live two_chunks = [109; 100] /\
  exists s1 s2, reset 0 two_chunks = Ok s1 /\ DataAllocator_dtor 1 s1 = Ok s2 /\
    (109 ∉ live s2) /\ 100 ∈ live s2.
Proof.
  assert (memPool two_chunks ≠ 0) as Hmp by (vm_compute; discriminate).
  split; [exact Hmp|]. split; [reflexivity|].
  destruct (reset_then_destructor_leaks 0 0 two_chunks Hmp)
    as (s1 & s2 & Hreset & _ & Hdtor & Hlive).
  exists s1, s2. split; [exact Hreset|]. split; [exact Hdtor|]. split.
  - intros Hin. apply Hlive in Hin as [_ Hne]. apply Hne. reflexivity.
  - apply Hlive. split.
    + change (100 ∈ [109; 100]). apply list_elem_of_further, list_elem_of_here.
    + change (100 ≠ 109). discriminate.
Defined.

Lemma freed_block_is_reused_first_witness :
  0 < 3 <= CHUNK /\ 101 - DEBUG_OFFSET ≠ 0 /\
  exists s' s'', deallocate 0 101 3 two_blocks = Ok s' /\
    allocate 3 s' = Ok (101, s'') /\ freePtr s'' = 107.
Proof.
  assert (101 - DEBUG_OFFSET ≠ 0) as Hd by (vm_compute; discriminate).
  split; [exact valid_size_3|]. split; [exact Hd|].
  destruct (deallocate 0 101 3 two_blocks) as [s'| |] eqn:Hde;
    [|vm_compute in Hde; discriminate..].
  destruct (freed_block_is_reused_first 0 101 3 two_blocks s' valid_size_3 Hd Hde)
    as (s'' & Halloc & Hcursor & _).
  - intros Htail. vm_compute in Htail. discriminate.
  - exists s', s''. split; [reflexivity|]. split; [exact Halloc|].
    rewrite Hcursor. reflexivity.
Defined.

Lemma double_free_undetected_release_witness :
  debug = false /\ 0 < 3 <= CHUNK /\ 101 + block_words 3 ≠ freePtr two_blocks /\
  exists s1 s2 s3 s4,
    deallocate 0 101 3 two_blocks = Ok s1 /\ deallocate 0 101 3 s1 = Ok s2 /\
    allocate 3 s2 = Ok (101, s3) /\ allocate 3 s3 = Ok (101, s4) /\
    printStats 1000 s2 = None.
Proof.
  assert (101 ≠ 0) as Hptr by discriminate.
  assert (101 + block_words 3 ≠ freePtr two_blocks) as Htail
    by (vm_compute; discriminate).
  split; [reflexivity|]. split; [exact valid_size_3|]. split; [exact Htail|].
  destruct (double_free_undetected_release (cfg := release32) 0 101 3 two_blocks
              (eq_refl false)
              valid_size_3 Hptr Htail)
    as (s1 & s2 & s3 & s4 & H1 & H2 & _ & H3 & H4 & Hstats).
  exists s1, s2, s3, s4. repeat (split; [assumption|]). apply Hstats.
Defined.

Lemma reset_then_allocate_reuses_chunk_witness :
  memPool two_blocks ≠ 0 /\ 0 < 3 <= CHUNK /\ block_words 3 <= CHUNK /\
  exists s1 s2, reset 0 two_blocks = Ok s1 /\ allocate 3 s1 = Ok (101, s2) /\
    freePtr s2 = 104.
Proof.
  assert (memPool two_blocks ≠ 0) as Hmp by (vm_compute; discriminate).
  assert (block_words 3 <= CHUNK) as Hfits by (vm_compute; discriminate).
  split; [exact Hmp|]. split; [exact valid_size_3|]. split; [exact Hfits|].
  destruct (reset_then_allocate_reuses_chunk 0 3 two_blocks Hmp valid_size_3 Hfits)
    as (s1 & s2 & Hreset & Halloc & _ & _ & Hcursor).
  exists s1, s2. split; [exact Hreset|]. split; [exact Halloc|].
  rewrite Hcursor. reflexivity.
Defined.

Lemma hasInPools_classifies_witness :
  wf [100] (fun _ => []) [(101, 3)]
     (set_heap (DODEBUG_store 101 3 (heap fresh)) (set_freePtr 104 fresh)) /\
  hasInPools 1 101 3
    (set_heap (DODEBUG_store 101 3 (heap fresh)) (set_freePtr 104 fresh)) = Ok true.
Proof.
  split; [exact wf_one_block|].
  destruct (hasInPools_classifies [100] (fun _ => []) [(101, 3)] _ 1 101 3
              wf_one_block) as (b & Hrun & Hb).
  - lia.
  - simpl. lia.
  - simpl. lia.
  - rewrite Hrun. f_equal. apply Hb. split.
    + exists 100. split; [constructor|]. vm_compute. split; [discriminate|reflexivity].
    + apply not_elem_of_nil.
Defined.

Lemma held_words_untouched_witness :
  wf [100] (fun _ => []) [(101, 3)]
     (set_heap (DODEBUG_store 101 3 (heap fresh)) (set_freePtr 104 fresh)) /\
  forall p s',
    allocate 3 (set_heap (DODEBUG_store 101 3 (heap fresh)) (set_freePtr 104 fresh))
    = Ok (p, s') ->
    load (heap s') 102 = load (heap fresh) 102.
Proof.
  split; [exact wf_one_block|]. intros p s' Halloc.
  destruct (held_words_untouched [100] (fun _ => []) [(101, 3)] 0 3 0 _ s'
              wf_one_block chunk_size_bound) as (Hkept & _).
  apply (Hkept p valid_size_3 Halloc (101, 3) 102).
  - constructor.
  - simpl. lia.
Defined.

Lemma protocol_fresh : protocol [] fresh.
Proof. apply protocol_ctor. lia. Defined.

Lemma allocate_full_chunk : allocate 8 fresh = Ok (101, full_chunk).
Proof. vm_compute. reflexivity. Defined.

Lemma allocate_two_chunks : allocate 8 full_chunk = Ok (110, two_chunks).
Proof. vm_compute. reflexivity. Defined.

(** The run that holds the two blocks of [two_chunks]. *)
Lemma protocol_two_chunks : protocol [(110, 8); (101, 8)] two_chunks.
Proof.
  assert (0 < 8 <= CHUNK) as Hn by (unfold CHUNK; simpl; lia).
  assert (block_words 8 <= CHUNK) as Hfits by (vm_compute; discriminate).
  exact (protocol_allocate _ 8 110 full_chunk two_chunks
           (protocol_allocate [] 8 101 fresh full_chunk protocol_fresh Hn Hfits
              allocate_full_chunk)
           Hn Hfits allocate_two_chunks).
Defined.

Lemma report_counts_held_words_witness :
  uintptr = Arch32 /\ CHUNK + 1 < 2 ^ 32 /\
  protocol [(110, 8); (101, 8)] two_chunks /\
  exists fuel0, forall fuel, (fuel0 <= fuel)%nat ->
    exists st, printStats fuel two_chunks = Some st /\
      memory_allocated st = 64 /\ available_in_current_pool st = 0.
Proof.
  split; [reflexivity|]. split; [exact chunk_size_bound|].
  split; [exact protocol_two_chunks|].
  destruct (report_counts_held_words (cfg := release32) _ two_chunks
              (eq_refl Arch32) chunk_size_bound protocol_two_chunks)
    as (fuel0 & Hreport).
  exists fuel0. intros fuel Hfuel.
  destruct (Hreport fuel Hfuel) as (st & Hst & Hmem & Havail).
  exists st. split; [exact Hst|].
  split; [rewrite Hmem | rewrite Havail]; reflexivity.
Defined.

End Release32.

(** ** Release build, 8-byte words *)
Module Release64.
Import Scenario.
#[local] Existing Instance release64.

(** C2, on the failing run: requests of 6 items take 3 words each; the
    third one overflows chunk 1 with a tail of 2 words at 107, which ends
    up as head of class 1 while class 2 stays empty; the next request that
    occupies 2 words (4 items) is then served at 113, in the new chunk,
    and not from the tail. *)
Theorem leftover_not_reused_arch64 :
  (a <-- allocate 6 fresh ;;
   b <-- allocate 6 a.2 ;;
   c <-- allocate 6 b.2 ;;
   d <-- allocate 4 c.2 ;;
   Ok (freePtr b.2, endFree b.2 - freePtr b.2, c.1, memPool c.2,
       array_t.get (freeMem c.2) 2, array_t.get (freeMem c.2) 1,
       block_words 4, d.1))
  = Ok (107, 2, 110, 109, 0, 107, 2, 113).
Proof. vm_compute. reflexivity. Qed.

Lemma leftover_is_halved_again_witness :
  uintptr = Arch64 /\ 0 < 6 <= CHUNK /\
  exists p s', allocate 6 (set_freePtr 107 fresh) = Ok (p, s') /\
    array_t.get (freeMem s') 1 = 107 /\ array_t.get (freeMem s') 2 = 0.
Proof.
  assert (0 < 6 <= CHUNK) as Hn by (unfold CHUNK; simpl; lia).
  split; [reflexivity|]. split; [exact Hn|].
  destruct (leftover_is_halved_again (cfg := release64) 6 (set_freePtr 107 fresh)
              (eq_refl Arch64) Hn)
    as (p & s' & Halloc & Hhead & _ & Hclass).
  - reflexivity.
  - vm_compute. split; [discriminate | reflexivity].
  - vm_compute. reflexivity.
  - exists p, s'. split; [exact Halloc|]. split; [exact Hhead | exact Hclass].
Defined.

(** C5, on the failing run: before the third request 24 bytes count as
    consumed; after [deallocate(allocate(6), 6)] it is 28. *)
Theorem tail_round_trip_arch64 :
  (a <-- allocate 6 fresh ;;
   b <-- allocate 6 a.2 ;;
   before <-- lift_fuel (printStats 8 b.2) ;;
   c <-- allocate 6 b.2 ;;
   s' <-- deallocate 0 c.1 6 c.2 ;;
   after <-- lift_fuel (printStats 8 s') ;;
   Ok (memory_allocated before, memory_allocated after))
  = Ok (24, 28).
Proof. vm_compute. reflexivity. Qed.

(** ** Instances of the further properties *)

(** The fresh allocator after one block of 3 words (6 items) was carved
    at 101. *)
Lemma wf_one_block_arch64 :
  wf [100] (fun _ => []) [(101, 3)]
     (set_heap (DODEBUG_store 101 3 (heap fresh)) (set_freePtr 104 fresh)).
Proof.
  refine (proj1 (wf_bump [100] (fun _ => []) [] fresh _ 3 _ _)).
  - apply wf_ctor. lia.
  - reflexivity.
  - vm_compute. discriminate.
Defined.

Lemma block_holds_request_witness :
  wf [100] (fun _ => []) [(101, 3)]
     (set_heap (DODEBUG_store 101 3 (heap fresh)) (set_freePtr 104 fresh)) /\
  0 < 5 <= CHUNK /\ block_words 5 <= CHUNK /\
  exists p s' w,
    allocate 5 (set_heap (DODEBUG_store 101 3 (heap fresh)) (set_freePtr 104 fresh))
    = Ok (p, s') /\
    p = 104 /\ w = 3 /\ 5 <= 2 * w < 5 + 2 /\ apart (p, w) (101, 3).
Proof.
  assert (0 < 5 <= CHUNK) as Hn by (unfold CHUNK; simpl; lia).
  assert (block_words 5 <= CHUNK) as Hfits by (vm_compute; discriminate).
  assert (CHUNK + 1 < 2 ^ 32) as HCH by (vm_compute; reflexivity).
  split; [exact wf_one_block_arch64|]. split; [exact Hn|]. split; [exact Hfits|].
  destruct (block_holds_request [100] (fun _ => []) [(101, 3)] 5 _
              wf_one_block_arch64 Hn Hfits HCH)
    as (p & s' & pools' & cells' & w & Halloc & _ & Hroom & _ & Hfresh).
  assert (exists s0,
            allocate 5
              (set_heap (DODEBUG_store 101 3 (heap fresh)) (set_freePtr 104 fresh))
            = Ok (104, s0)) as (s0 & Hrun) by (vm_compute; eauto).
  rewrite Hrun in Halloc. injection Halloc as <- <-.
  change (5 <= 2 * w < 5 + 2) in Hroom.
  exists 104, s0, w. split; [exact Hrun|]. split; [reflexivity|].
  split; [lia|]. split; [exact Hroom|].
  apply (Hfresh (101, 3)). constructor.
Defined.

End Release64.

(** ** Debug builds *)
Module Debug.
Import Scenario.

(** C3, counterexample: with 4-byte words, giving back a block of 3 items
    with size 0 is the no-op (the cursor stays at 105); with 8-byte words,
    giving back a block of 3 items with size 4 passes every assertion and
    the cursor moves back to 101. *)
Lemma wrong_size_not_detected :
  (a <-- allocate (cfg := debug32) 3 (fresh (cfg := debug32)) ;;
   s' <-- deallocate (cfg := debug32) 8 a.1 0 a.2 ;;
   Ok (a.1, freePtr s')) = Ok (102, 105) /\
  (a <-- allocate (cfg := debug64) 3 (fresh (cfg := debug64)) ;;
   s' <-- deallocate (cfg := debug64) 8 a.1 4 a.2 ;;
   Ok (a.1, freePtr s')) = Ok (102, 101).
Proof. split; vm_compute; reflexivity. Qed.

#[local] Existing Instance debug32.

Lemma recorded_size_abort_iff_witness :
  debug = true /\ 0 < 3 <= CHUNK /\ CHUNK + 1 < 2 ^ 32 /\ 0 <= 5 < 2 ^ size_bits /\
  exists p s', allocate 3 fresh = Ok (p, s') /\
    deallocate 8 p 5 s' = Abort AssertRecordedSize.
Proof.
  assert (0 < 3 <= CHUNK) as Hn by (unfold CHUNK; simpl; lia).
  assert (CHUNK + 1 < 2 ^ 32) as Hc by (vm_compute; reflexivity).
  assert (0 <= 5 < 2 ^ size_bits) as Hw
    by (vm_compute; split; [discriminate | reflexivity]).
  assert (exists p s', allocate 3 fresh = Ok (p, s')) as (p & s' & Halloc)
    by (vm_compute; eauto).
  do 4 (split; [done|]).
  exists p, s'. split; [exact Halloc|].
  apply (recorded_size_abort_iff (cfg := debug32) 8 3 5 p fresh s'
           (eq_refl true) Hn Hc Hw Halloc).
  split; [discriminate | vm_compute; discriminate].
Defined.

(** The debug build accepts the right size: the assertions pass and the
    block goes back by moving the cursor. *)
Example right_size_accepted :
  (a <-- allocate 3 fresh ;;
   s' <-- deallocate 8 a.1 3 a.2 ;;
   Ok (a.1, freePtr a.2, freePtr s')) = Ok (102, 105, 101).
Proof. vm_compute. reflexivity. Qed.

(** A request of [CHUNK_SIZE] items passes the assertion of [allocate] and
    then takes [CHUNK_SIZE + 1] words: the first chunk goes to class 8 as
    a whole, and in the new chunk the cursor ends up after the chunk's
    end. *)
Example full_chunk_request_overruns :
  (a <-- allocate 8 fresh ;;
   Ok (a.1, memPool a.2, freePtr a.2, endFree a.2, array_t.get (freeMem a.2) 8))
  = Ok (111, 109, 119, 118, 101).
Proof. vm_compute. reflexivity. Qed.

(** A block that is not at the cursor goes to the head of its free list
    (class 4: 3 items and the header) and is the next block of that size
    to be handed out; giving it back a second time is caught. *)
Example free_list_round_trip :
  (a <-- allocate 3 fresh ;;
   b <-- allocate 3 a.2 ;;
   s3 <-- deallocate 8 a.1 3 b.2 ;;
   c <-- allocate 3 s3 ;;
   Ok (a.1, b.1, freePtr s3, array_t.get (freeMem s3) 4, c.1,
       deallocate 8 a.1 3 s3))
  = Ok (102, 106, 109, 101, 102, Abort AssertRecordedSize).
Proof. vm_compute. reflexivity. Qed.

(** ** Instances of the further properties *)

Lemma double_free_detected_debug_witness :
  debug = true /\ 3 ≠ 0 /\
  exists s', deallocate 8 102 3 one_block = Ok s' /\
    deallocate 8 102 3 s' = Abort AssertInPools.
Proof.
  assert (3 ≠ 0) as Hn by discriminate.
  split; [reflexivity|]. split; [exact Hn|].
  destruct (deallocate 8 102 3 one_block) as [s'| |] eqn:Hde;
    [|vm_compute in Hde; discriminate..].
  exists s'. split; [reflexivity|].
  destruct (double_free_detected_debug (cfg := debug32) 8 102 3 one_block s'
              (eq_refl true) Hn Hde)
    as [Habort|Habort]; [|exact Habort].
  exfalso. revert Habort. apply deallocate_Ok_inv in Hde; [|exact Hn].
  rewrite Hde. vm_compute. discriminate.
Defined.

Lemma oversize_block_overruns_chunk_witness :
  0 < 8 <= CHUNK /\ CHUNK < block_words 8 /\
  exists p s', allocate 8 fresh = Ok (p, s') /\ endFree s' < freePtr s'.
Proof.
  assert (0 < 8 <= CHUNK) as Hn by (unfold CHUNK; simpl; lia).
  assert (CHUNK < block_words 8) as Hbig by (vm_compute; reflexivity).
  split; [exact Hn|]. split; [exact Hbig|].
  destruct (oversize_block_overruns_chunk 8 fresh Hn) as [_ Hover].
  destruct (Hover Hbig) as (p & s' & Halloc & _ & _ & _ & _ & Hcursor).
  - vm_compute. reflexivity.
  - vm_compute. discriminate.
  - reflexivity.
  - exists p, s'. split; [exact Halloc | exact Hcursor].
Defined.

End Debug.
